(** * Tenant health evaluation of ns-infra

    A shallow embedding of the two tenant health scripts of the
    repository:

    - [scripts/tenant-health-production.js] (class [ProductionTenantHealth]),
    - the tenant health monitor (class [TenantHealthMonitor]).

    Both scripts are JavaScript drivers around SQL text.  The SQL
    expressions and queries are embedded as functions over tables
    (module [Sql] and the query functions of each script), the
    JavaScript methods as computations in a state-and-exception monad
    (module [Js]).

    The scripts around them follow: the integration test suite (class
    [IntegrationTestSuite]), [scripts/deployment-validation.js] (class
    [DeploymentValidator]) and the validation of the deployment
    dashboard, as computations that may also end the process (module
    [Process]). *)

From Stdlib Require Import ZArith QArith Lia Ascii String.
From Stdlib Require Import Floats.SpecFloat.
From stdpp Require Import base strings list gmap pretty.

Local Open Scope string_scope.
Local Open Scope Z_scope.

(** ** Results of fallible evaluation

    A SQL statement either yields a value or raises an error with a
    message; an awaited JavaScript promise either fulfils or rejects
    with an [Error] carrying a message. *)

Inductive result (A : Type) : Type :=
| Value (a : A)
| Error (message : string).
Arguments Value {A} a.
Arguments Error {A} message.

Definition rbind {A B} (r : result A) (k : A → result B) : result B :=
  match r with
  | Value a => k a
  | Error e => Error e
  end.

Notation "x ←ʳ r ; k" := (rbind r (λ x, k))
  (at level 20, r at level 100, k at level 200, right associativity,
   format "x  ←ʳ  r ;  '/' k").

(** Evaluate a select-list expression on every row of a relation; the
    statement fails with the first error. *)
Fixpoint rmap {A B} (f : A → result B) (l : list A) : result (list B) :=
  match l with
  | [] => Value []
  | a :: l' => b ←ʳ f a; bs ←ʳ rmap f l'; Value (b :: bs)
  end.

(** ** The utilization status *)

Inductive UtilizationStatus : Type :=
| UNLIMITED
| OK
| HIGH
| EXCEEDED.

Global Instance UtilizationStatus_eq_dec : EqDecision UtilizationStatus.
Proof. solve_decision. Defined.

(** Severity order used to state monotonicity: OK < HIGH < EXCEEDED. *)
Definition severity (s : UtilizationStatus) : Z :=
  match s with
  | UNLIMITED => 0
  | OK => 0
  | HIGH => 1
  | EXCEEDED => 2
  end.

(** The text PostgreSQL puts in the status columns. *)
Definition status_text (s : UtilizationStatus) : string :=
  match s with
  | UNLIMITED => "UNLIMITED"
  | OK => "OK"
  | HIGH => "HIGH"
  | EXCEEDED => "EXCEEDED"
  end.

(** ** SQL scalar expressions *)

Module Sql.

(** [count > limit * 0.8]: the product of an [int] and a decimal
    literal is an exact [numeric]; the comparison is exact. *)
Definition numeric_gt (n : Z) (q : Q) : bool :=
  negb (Qle_bool (inject_Z n) q).

(** *** [text::int]

    Integer input of PostgreSQL for decimal literals: optional blanks,
    an optional sign, at least one decimal digit, optional blanks;
    the value must fit 32 bits.  This is the whole input syntax of
    the servers before version 16.  Since version 16 the server also
    reads hexadecimal, octal and binary literals ([0x10], [0o17],
    [0b11]) and underscores between digits; the repository asks for
    no version, and [int4in] refuses those texts. *)
Definition digit_of (a : ascii) : option Z :=
  let n := Z.of_nat (nat_of_ascii a) in
  if (48 <=? n) && (n <=? 57) then Some (n - 48) else None.

Definition is_blank (a : ascii) : bool :=
  let n := Z.of_nat (nat_of_ascii a) in
  (n =? 32) || ((9 <=? n) && (n <=? 13)).

Fixpoint skip_blanks (s : string) : string :=
  match s with
  | String a s' => if is_blank a then skip_blanks s' else s
  | EmptyString => s
  end.

(** Digits, then only blanks up to the end. [seen] tells whether a
    digit was read. *)
Fixpoint digits_value (seen : bool) (acc : Z) (s : string) : option Z :=
  match s with
  | EmptyString => if seen then Some acc else None
  | String a s' =>
      match digit_of a with
      | Some d => digits_value true (10 * acc + d) s'
      | None =>
          if seen && (String.length (skip_blanks s) =? 0)%nat
          then Some acc else None
      end
  end.

Definition in_int4 (z : Z) : bool :=
  (-2147483648 <=? z) && (z <=? 2147483647).

Definition quoted (s : string) : string :=
  String (ascii_of_nat 34) (s +:+ String (ascii_of_nat 34) EmptyString).

Definition int4in (s : string) : result Z :=
  let body := skip_blanks s in
  let parsed :=
    match body with
    | String "-"%char r => Z.opp <$> digits_value false 0 r
    | String "+"%char r => digits_value false 0 r
    | _ => digits_value false 0 body
    end in
  match parsed with
  | Some z =>
      if in_int4 z then Value z
      else Error ("value " +:+ quoted s +:+ " is out of range for type integer")
  | None => Error ("invalid input syntax for type integer: " +:+ quoted s)
  end.

(** The characters of the integer literals of all versions: blanks,
    signs, digits, the underscore, and the letters of the prefixes and
    of the hexadecimal digits; with them the bytes outside ASCII, which
    a locale of the server may take as blanks. *)
Definition literal_character (a : ascii) : bool :=
  is_blank a
  || bool_decide (digit_of a ≠ None)
  || existsb (Ascii.eqb a) (list_ascii_of_string "+-_abcdefABCDEFxXoObB")
  || (127 <? Z.of_nat (nat_of_ascii a)).

(** A text that holds another character; no version of the server
    reads it as an integer. *)
Fixpoint never_integer (s : string) : bool :=
  match s with
  | String a s' => negb (literal_character a) || never_integer s'
  | EmptyString => false
  end.

(** [COALESCE(x, d)] on a nullable text. *)
Definition coalesce {A} (x : option A) (d : A) : A :=
  match x with
  | Some v => v
  | None => d
  end.

(** *** [float8]

    IEEE 754 binary64, with the error checks of PostgreSQL's
    [float8div], [float8mul] and of the cast to [integer]. *)
Definition prec : Z := 53.
Definition emax : Z := 1024.
Definition float8 : Type := spec_float.

(** [n::float]: nearest binary64, ties to even. *)
Definition float8_of_Z (n : Z) : float8 := binary_normalize prec emax n 0 false.

Definition float8_is_zero (x : float8) : bool :=
  match x with
  | S754_zero _ => true
  | _ => false
  end.

Definition float8_is_finite (x : float8) : bool :=
  match x with
  | S754_zero _ | S754_finite _ _ _ => true
  | _ => false
  end.

Definition float8_div (x y : float8) : result float8 :=
  if float8_is_zero y then Error "division by zero"
  else
    let r := SFdiv prec emax x y in
    if float8_is_finite r then
      if float8_is_zero r && negb (float8_is_zero x)
      then Error "value out of range: underflow"
      else Value r
    else Error "value out of range: overflow".

Definition float8_mul (x y : float8) : result float8 :=
  let r := SFmul prec emax x y in
  if float8_is_finite r then
    if float8_is_zero r && negb (float8_is_zero x) && negb (float8_is_zero y)
    then Error "value out of range: underflow"
    else Value r
  else Error "value out of range: overflow".

(** [rint]: the nearest integer, ties to even. *)
Definition rint_magnitude (m : positive) (e : Z) : Z :=
  if 0 <=? e then Z.pos m * 2 ^ e
  else
    let d := 2 ^ (- e) in
    let q := Z.pos m / d in
    let r := Z.pos m mod d in
    match 2 * r ?= d with
    | Lt => q
    | Gt => q + 1
    | Eq => if Z.even q then q else q + 1
    end.

(** [CAST(x AS INTEGER)] on a [float8]. *)
Definition float8_to_int4 (x : float8) : result Z :=
  match x with
  | S754_zero _ => Value 0
  | S754_finite s m e =>
      let v := rint_magnitude m e in
      let z := if s then - v else v in
      if in_int4 z then Value z else Error "integer out of range"
  | _ => Error "integer out of range"
  end.

(** [CAST((count::float / limit) * 100 AS INTEGER)] *)
Definition percent_of (count limit : Z) : result Z :=
  q ←ʳ float8_div (float8_of_Z count) (float8_of_Z limit);
  p ←ʳ float8_mul q (float8_of_Z 100);
  float8_to_int4 p.

End Sql.

(** ** Tables and joins *)

Module Rel.

(** [a = b] and [a != b] on nullable integers: unknown (here [None])
    as soon as one side is NULL. *)
Definition sql_eq (a b : option Z) : option bool :=
  match a, b with
  | Some x, Some y => Some (x =? y)
  | _, _ => None
  end.

Definition sql_ne (a b : option Z) : option bool :=
  negb <$> sql_eq a b.

(** A condition holds only when it is true, not when it is unknown. *)
Definition is_true (c : option bool) : bool :=
  match c with
  | Some true => true
  | _ => false
  end.

(** [CASE WHEN c THEN 1 END]: NULL unless [c] is true. *)
Definition case_when_1 (c : option bool) : option Z :=
  if is_true c then Some 1 else None.

(** [COUNT(e)] counts the rows where [e] is not NULL. *)
Definition count {A B} (e : A → option B) (rows : list A) : Z :=
  Z.of_nat (length (List.filter (λ r, bool_decide (is_Some (e r))) rows)).

(** The rows [a LEFT JOIN b ON on] produces for one left row. *)
Definition left_join_row {A B} (on : A → B → bool) (a : A) (r : list B)
  : list (A * option B) :=
  match List.filter (on a) r with
  | [] => [(a, None)]
  | ms => map (λ b, (a, Some b)) ms
  end.

Definition left_join {A B} (on : A → B → bool) (l : list A) (r : list B)
  : list (A * option B) :=
  flat_map (λ a, left_join_row on a r) l.

End Rel.

(** Modelled from the spec: the DDL of [tenants], [tenant_users] and
    [tenant_usage_stats] is not part of the repository (its own
    [init-db.sql] declares other tables).  The columns are those the
    queries read; [id] is the key of [tenants], so that
    [GROUP BY t.id, ...] makes one group per tenant row; [limits] is
    kept as its two projections [limits->>'users'] and
    [limits->>'apiCalls'], NULL ([None]) when the key is absent. *)
Record Tenant : Type := {
  t_id : Z;
  t_name : string;
  t_plan : string;
  t_status : string;
  t_limits_users : option string;
  t_limits_apiCalls : option string
}.

Record TenantUser : Type := {
  tu_id : Z;
  tu_tenant_id : option Z;
  tu_status : string
}.

Record TenantUsageStat : Type := {
  tus_tenant_id : option Z;
  tus_api_calls_count : Z;
  tus_stat_date : Z
}.

Record Database : Type := {
  tenants : list Tenant;
  tenant_users : list TenantUser;
  tenant_usage_stats : list TenantUsageStat
}.

Definition active (t : Tenant) : bool := String.eqb (t_status t) "active".

(** The SQL statements the two scripts send. *)
Inductive Statement : Type :=
| IsolationCheck      (* production: checkTenantIsolation *)
| CapacityCheck       (* production: checkTenantLimits *)
| TenantCount         (* production: checkDatabaseHealth, first query *)
| OrphanCheck         (* production: checkDatabaseHealth, second query *)
| ActiveTenants       (* monitor: getTenants *)
| LeakageCheck        (* monitor: checkTenantIsolation, first query *)
| OrphanCheckAll      (* monitor: checkTenantIsolation, second query *)
| PerfCheck.          (* monitor: checkTenantPerformance *)

Global Instance Statement_eq_dec : EqDecision Statement.
Proof. solve_decision. Defined.

(** What the script does to its database client. *)
Inductive DbCall : Type :=
| DbConnect
| DbQuery (q : Statement)
| DbEnd.

Global Instance DbCall_eq_dec : EqDecision DbCall.
Proof. solve_decision. Defined.

(** The row source as one run sees it: the tables, and whether the
    connection, a statement or the disconnection fails for a reason
    outside the data (unreachable host, missing relation, ...).
    [current_date] is [CURRENT_DATE] as a day number.  [date_at n] is
    the text of the n-th [Date] object the production script makes
    ([new Date().toISOString()]): the clock of its process. *)
Record RowSource : Type := {
  database : Database;
  connect_error : option string;
  statement_error : Statement → option string;
  end_error : option string;
  current_date : Z;
  date_at : nat → string
}.

(** The same row source under another clock. *)
Definition at_dates (w : RowSource) (clock : nat → string) : RowSource :=
  {| database := database w; connect_error := connect_error w;
     statement_error := statement_error w; end_error := end_error w;
     current_date := current_date w; date_at := clock |}.

(** ** JavaScript control flow: state and exceptions *)

Module Js.
Section Monad.
Context {S : Type}.

Definition M (A : Type) : Type := S → result A * S.

Definition ret {A} (a : A) : M A := λ s, (Value a, s).

Definition throw {A} (e : string) : M A := λ s, (Error e, s).

Definition bind {A B} (m : M A) (k : A → M B) : M B :=
  λ s, match m s with
       | (Value a, s') => k a s'
       | (Error e, s') => (Error e, s')
       end.

(** [try { m } catch (error) { h error.message }] *)
Definition try_catch {A} (m : M A) (h : string → M A) : M A :=
  λ s, match m s with
       | (Value a, s') => (Value a, s')
       | (Error e, s') => h e s'
       end.

(** [try { m } finally { f }]: [f] always runs; if it throws, its
    exception replaces the outcome of [m]. *)
Definition try_finally {A} (m : M A) (f : M unit) : M A :=
  λ s, let '(r, s') := m s in
       match f s' with
       | (Value _, s'') => (r, s'')
       | (Error e, s'') => (Error e, s'')
       end.

Definition modify (f : S → S) : M unit := λ s, (Value tt, f s).

Definition gets {A} (f : S → A) : M A := λ s, (Value (f s), s).

(** [rows.forEach(row => body)] *)
Fixpoint forEach {A} (l : list A) (body : A → M unit) : M unit :=
  match l with
  | [] => ret tt
  | a :: l' => bind (body a) (λ _, forEach l' body)
  end.

(** [forEach] whose body updates [let] variables of the enclosing
    function, here threaded as [c]. *)
Fixpoint forEach_with {A C} (l : list A) (body : A → C → M C) (c : C) : M C :=
  match l with
  | [] => ret c
  | a :: l' => bind (body a c) (λ c', forEach_with l' body c')
  end.
End Monad.

(** [process.exit(isHealthy ? 0 : 1)] in [then], [process.exit(1)] in
    [catch]. *)
Definition exit_code (r : result bool) : Z :=
  match r with
  | Value isHealthy => if isHealthy then 0 else 1
  | Error _ => 1
  end.
End Js.

Notation "x <- m ;; k" := (Js.bind m (λ x, k))
  (at level 20, m at level 99, k at level 200, right associativity,
   format "x  <-  m ;;  '/' k").
Notation "m ;; k" := (Js.bind m (λ _, k))
  (at level 100, k at level 200, right associativity,
   format "m ;;  '/' k").

(** The sign JavaScript prints for an unlimited dimension. *)
Definition infinity_sign : string := "∞".

(** ** [scripts/tenant-health-production.js]

    Console lines are kept without the colour escapes, the leading
    glyph and the box drawing of the banners. *)

Module Production.

(** *** The SQL of the script *)

Record IsolationRow : Type := {
  tenant_name : string;
  user_count : Z;
  isolation_violations : Z
}.

(** [tu.tenant_id = t.id], the join condition of the isolation check. *)
Definition same_tenant (t : Tenant) (tu : TenantUser) : bool :=
  Rel.is_true (Rel.sql_eq (tu_tenant_id tu) (Some (t_id t))).

(** The CTE [tenant_data_integrity]: one group per active tenant over
    [tenants t LEFT JOIN tenant_users tu ON tu.tenant_id = t.id]. *)
Definition tenant_data_integrity (data : Database) : list IsolationRow :=
  map (λ t,
         let joined := Rel.left_join_row same_tenant t (tenant_users data) in
         {| tenant_name := t_name t;
            user_count := Rel.count (λ r, tu_id <$> r.2) joined;
            isolation_violations :=
              Rel.count
                (λ r, Rel.case_when_1
                        (Rel.sql_ne (r.2 ≫= tu_tenant_id) (Some (t_id r.1))))
                joined |})
      (List.filter active (tenants data)).

(** [SELECT ... FROM tenant_data_integrity WHERE isolation_violations > 0] *)
Definition isolation_query (data : Database) : list IsolationRow :=
  List.filter (λ row, 0 <? isolation_violations row) (tenant_data_integrity data).

Record CapacityRow : Type := {
  id : Z;
  name : string;
  plan : string;
  current_users : Z;
  max_users : Z;
  capacity_status : UtilizationStatus
}.

(** The [CASE] of the capacity check, on [COUNT(tu.id)], on the text
    [t.limits->>'users'] and on the value of
    [COALESCE(t.limits->>'users', '999999')::int]. *)
Definition capacity_case (count : Z) (limits_users : option string) (max : Z)
  : UtilizationStatus :=
  if bool_decide (limits_users = Some "-1") then UNLIMITED
  else if count >? max then EXCEEDED
  else if Sql.numeric_gt count (inject_Z max * (9 # 10)) then HIGH
  else OK.

(** [tu.tenant_id = t.id AND tu.status = 'active'] *)
Definition active_member (t : Tenant) (tu : TenantUser) : bool :=
  same_tenant t tu && String.eqb (tu_status tu) "active".

(** One row of the CTE [tenant_capacity]; the cast of the limit can
    fail, and then the statement fails. *)
Definition tenant_capacity_row (data : Database) (t : Tenant) : result CapacityRow :=
  let joined := Rel.left_join_row active_member t (tenant_users data) in
  let count := Rel.count (λ r, tu_id <$> r.2) joined in
  max ←ʳ Sql.int4in (Sql.coalesce (t_limits_users t) "999999");
  Value {| id := t_id t;
           name := t_name t;
           plan := t_plan t;
           current_users := count;
           max_users := max;
           capacity_status := capacity_case count (t_limits_users t) max |}.

(** [ORDER BY CASE capacity_status WHEN 'EXCEEDED' THEN 1 WHEN 'HIGH'
    THEN 2 ELSE 3 END]; rows of equal rank keep their order. *)
Definition order_rank (s : UtilizationStatus) : Z :=
  match s with
  | EXCEEDED => 1
  | HIGH => 2
  | _ => 3
  end.

Definition order_by_status (rows : list CapacityRow) : list CapacityRow :=
  List.filter (λ r, order_rank (capacity_status r) =? 1) rows
  ++ List.filter (λ r, order_rank (capacity_status r) =? 2) rows
  ++ List.filter (λ r, order_rank (capacity_status r) =? 3) rows.

Definition capacity_query (data : Database) : result (list CapacityRow) :=
  rows ←ʳ rmap (tenant_capacity_row data) (List.filter active (tenants data));
  Value (order_by_status rows).

(** [SELECT COUNT( * ) as count FROM tenants WHERE status = 'active'] *)
Definition tenant_count_query (data : Database) : Z :=
  Z.of_nat (length (List.filter active (tenants data))).

(** [tu.tenant_id = t.id], joining from the user side. *)
Definition owner (tu : TenantUser) (t : Tenant) : bool :=
  Rel.is_true (Rel.sql_eq (tu_tenant_id tu) (Some (t_id t))).

(** [SELECT COUNT( * ) FROM tenant_users tu LEFT JOIN tenants t
    ON tu.tenant_id = t.id WHERE t.id IS NULL] *)
Definition orphan_query (data : Database) : Z :=
  Z.of_nat
    (length
       (List.filter (λ r : TenantUser * option Tenant,
                       bool_decide (t_id <$> r.2 = None))
                    (Rel.left_join owner (tenant_users data) (tenants data)))).

(** *** The object *)

Record State : Type := {
  db : bool;                  (* [this.db] holds a client *)
  issues : list string;       (* [this.issues] *)
  console : list string;
  calls : list DbCall;
  dates : nat                 (* the [Date] objects made so far *)
}.

(** [new ProductionTenantHealth()] *)
Definition constructor : State :=
  {| db := false; issues := []; console := []; calls := []; dates := 0 |}.

Definition M : Type → Type := @Js.M State.

Definition log (line : string) : M unit :=
  Js.modify (λ s, {| db := db s; issues := issues s;
                     console := console s ++ [line]; calls := calls s;
                     dates := dates s |}).

Definition push_issue (issue : string) : M unit :=
  Js.modify (λ s, {| db := db s; issues := issues s ++ [issue];
                     console := console s; calls := calls s; dates := dates s |}).

Definition set_db (b : bool) : M unit :=
  Js.modify (λ s, {| db := b; issues := issues s;
                     console := console s; calls := calls s; dates := dates s |}).

Definition call (c : DbCall) : M unit :=
  Js.modify (λ s, {| db := db s; issues := issues s;
                     console := console s; calls := calls s ++ [c];
                     dates := dates s |}).

(** [new Date().toISOString()] *)
Definition new_Date (w : RowSource) : M string :=
  n <- Js.gets dates;;
  Js.modify (λ s, {| db := db s; issues := issues s;
                     console := console s; calls := calls s;
                     dates := S (dates s) |});;
  Js.ret (date_at w n).

(** [await this.db.query(...)]: rejects when the statement fails,
    for a reason of the row source or of the data. *)
Definition db_query {A} (w : RowSource) (q : Statement) (rows : result A) : M A :=
  client <- Js.gets db;;
  if client then
    call (DbQuery q);;
    match statement_error w q with
    | Some e => Js.throw e
    | None =>
        match rows with
        | Value r => Js.ret r
        | Error e => Js.throw e
        end
    end
  else Js.throw "Cannot read properties of null (reading 'query')".

Definition connect (w : RowSource) : M unit :=
  Js.try_catch
    (set_db true;;
     call DbConnect;;
     match connect_error w with
     | Some e => Js.throw e
     | None => log "Database connection established"
     end)
    (λ e, log ("Database connection failed: " +:+ e);; Js.throw e).

Definition disconnect (w : RowSource) : M unit :=
  client <- Js.gets db;;
  if client then
    call DbEnd;;
    match end_error w with
    | Some e => Js.throw e
    | None => Js.ret tt
    end
  else Js.ret tt.

(** *** The checks *)

Definition checkTenantIsolation (w : RowSource) : M bool :=
  log "Critical Tenant Isolation Check";;
  Js.try_catch
    (isolationCheck <- db_query w IsolationCheck (Value (isolation_query (database w)));;
     if (length isolationCheck =? 0)%nat then
       log "Tenant isolation verified - No data leakage detected";;
       Js.ret true
     else
       log "CRITICAL: Tenant isolation violations detected";;
       Js.forEach isolationCheck
         (λ row,
            log ("  - " +:+ tenant_name row +:+ ": "
                 +:+ pretty (isolation_violations row) +:+ " violations");;
            push_issue ("Tenant isolation violation: " +:+ tenant_name row));;
       Js.ret false)
    (λ e,
       log ("Tenant isolation check failed: " +:+ e);;
       push_issue ("Isolation check failure: " +:+ e);;
       Js.ret false).

(** [tenant.max_users === -1 ? '∞' : tenant.max_users] *)
Definition max_display (max : Z) : string :=
  if max =? -1 then infinity_sign else pretty max.

Definition users_of (tenant : CapacityRow) : string :=
  "Users " +:+ pretty (current_users tenant) +:+ "/"
  +:+ max_display (max_users tenant) +:+ " (" +:+ plan tenant +:+ ")".

(** The three counters of [checkTenantLimits]. *)
Record Counters : Type := {
  exceededCount : Z;
  warningCount : Z;
  healthyCount : Z
}.

Definition checkTenantLimits (w : RowSource) : M bool :=
  log "Tenant Capacity Check";;
  Js.try_catch
    (capacityCheck <- db_query w CapacityCheck (capacity_query (database w));;
     n <- Js.forEach_with capacityCheck
            (λ tenant n,
               if bool_decide (capacity_status tenant = EXCEEDED) then
                 log (name tenant +:+ " - CRITICAL: " +:+ users_of tenant);;
                 push_issue ("Tenant capacity exceeded: " +:+ name tenant);;
                 Js.ret {| exceededCount := exceededCount n + 1;
                           warningCount := warningCount n;
                           healthyCount := healthyCount n |}
               else if bool_decide (capacity_status tenant = HIGH) then
                 log (name tenant +:+ " - WARNING: " +:+ users_of tenant);;
                 Js.ret {| exceededCount := exceededCount n;
                           warningCount := warningCount n + 1;
                           healthyCount := healthyCount n |}
               else
                 log (name tenant +:+ " - OK: " +:+ users_of tenant);;
                 Js.ret {| exceededCount := exceededCount n;
                           warningCount := warningCount n;
                           healthyCount := healthyCount n + 1 |})
            {| exceededCount := 0; warningCount := 0; healthyCount := 0 |};;
     log ("Capacity Summary: " +:+ pretty (healthyCount n) +:+ " healthy, "
          +:+ pretty (warningCount n) +:+ " warnings, "
          +:+ pretty (exceededCount n) +:+ " exceeded");;
     Js.ret (exceededCount n =? 0))
    (λ e,
       log ("Tenant capacity check failed: " +:+ e);;
       push_issue ("Capacity check failure: " +:+ e);;
       Js.ret false).

Definition checkDatabaseHealth (w : RowSource) : M bool :=
  log "Database Health Check";;
  Js.try_catch
    (activeTenants <- db_query w TenantCount (Value (tenant_count_query (database w)));;
     if 0 <? activeTenants then
       log ("Database healthy - " +:+ pretty activeTenants +:+ " active tenants");;
       orphanCount <- db_query w OrphanCheck (Value (orphan_query (database w)));;
       (if 0 <? orphanCount then
          log ("Found " +:+ pretty orphanCount +:+ " orphaned tenant_users records")
        else
          log "No orphaned data detected");;
       Js.ret true
     else
       log "No active tenants found - potential database issue";;
       push_issue "No active tenants in database";;
       Js.ret false)
    (λ e,
       log ("Database health check failed: " +:+ e);;
       push_issue ("Database health failure: " +:+ e);;
       Js.ret false).

Definition generateProductionReport : M bool :=
  log "PRODUCTION TENANT HEALTH REPORT";;
  all <- Js.gets issues;;
  let criticalIssues := length all in
  if (criticalIssues =? 0)%nat then
    log "TENANT SYSTEM PRODUCTION READY";;
    log "Tenant isolation verified";;
    log "Tenant capacity within limits";;
    log "Database integrity confirmed";;
    log "Safe to deploy to production";;
    Js.ret true
  else
    log "PRODUCTION DEPLOYMENT BLOCKED";;
    log (pretty criticalIssues +:+ " critical tenant issues detected:");;
    Js.forEach all (λ issue, log ("   - " +:+ issue));;
    log "Fix all issues before production deployment";;
    Js.ret false.

Definition runProductionHealthCheck (w : RowSource) : M bool :=
  log "PRODUCTION TENANT HEALTH VALIDATOR";;
  (date <- new_Date w;; log date);;
  connect w;;
  Js.try_finally
    (isolationHealthy <- checkTenantIsolation w;;
     capacityHealthy <- checkTenantLimits w;;
     databaseHealthy <- checkDatabaseHealth w;;
     productionReady <- generateProductionReport;;
     Js.ret productionReady)
    (disconnect w).

(** The promise chain under [require.main === module], on a given
    object: the exit code and the object afterwards. *)
Definition exit_of (w : RowSource) (healthCheck : State) : Z * State :=
  match runProductionHealthCheck w healthCheck with
  | (Value isHealthy, s) => (Js.exit_code (Value isHealthy), s)
  | (Error e, s) =>
      (Js.exit_code (Error e),
       snd (log ("Production health check failed: " +:+ e) s))
  end.

Definition main (w : RowSource) : Z * State := exit_of w constructor.

(** *** What one run records

    The issues each check adds to [this.issues], read off the row
    source; the theorems below relate them to the run. *)

Definition isolation_issues (w : RowSource) : list string :=
  match statement_error w IsolationCheck with
  | Some e => ["Isolation check failure: " +:+ e]
  | None =>
      map (λ row, "Tenant isolation violation: " +:+ tenant_name row)
          (isolation_query (database w))
  end.

Definition exceeded (tenant : CapacityRow) : bool :=
  bool_decide (capacity_status tenant = EXCEEDED).

Definition capacity_issues (w : RowSource) : list string :=
  match statement_error w CapacityCheck with
  | Some e => ["Capacity check failure: " +:+ e]
  | None =>
      match capacity_query (database w) with
      | Error e => ["Capacity check failure: " +:+ e]
      | Value rows =>
          map (λ tenant, "Tenant capacity exceeded: " +:+ name tenant)
              (List.filter exceeded rows)
      end
  end.

Definition database_issues (w : RowSource) : list string :=
  match statement_error w TenantCount with
  | Some e => ["Database health failure: " +:+ e]
  | None =>
      if 0 <? tenant_count_query (database w) then
        match statement_error w OrphanCheck with
        | Some e => ["Database health failure: " +:+ e]
        | None => []
        end
      else ["No active tenants in database"]
  end.

Definition run_issues (w : RowSource) : list string :=
  isolation_issues w ++ capacity_issues w ++ database_issues w.

(** The statements [checkDatabaseHealth] sends. *)
Definition database_calls (w : RowSource) : list DbCall :=
  match statement_error w TenantCount with
  | Some _ => [DbQuery TenantCount]
  | None =>
      if 0 <? tenant_count_query (database w)
      then [DbQuery TenantCount; DbQuery OrphanCheck]
      else [DbQuery TenantCount]
  end.

(** A [tenant_users] row that references no tenant. *)
Definition orphaned (data : Database) (tu : TenantUser) : Prop :=
  ∀ t, t ∈ tenants data → tu_tenant_id tu ≠ Some (t_id t).

(** The object after some steps: what they appended. *)
Definition after (s : State) (new_issues new_lines : list string)
    (new_calls : list DbCall) : State :=
  {| db := db s; issues := issues s ++ new_issues;
     console := console s ++ new_lines; calls := calls s ++ new_calls;
     dates := dates s |}.

(** The object once [connect] has stored the client. *)
Definition connected (s : State) : State :=
  {| db := true; issues := issues s; console := console s; calls := calls s;
     dates := dates s |}.

(** The object once a run has printed its banner, with the date. *)
Definition started (w : RowSource) (s : State) : State :=
  {| db := db s; issues := issues s;
     console := console s ++ ["PRODUCTION TENANT HEALTH VALIDATOR"; date_at w (dates s)];
     calls := calls s; dates := S (dates s) |}.

(** The outcome of a connected run that ends with the issues [all]. *)
Definition outcome (w : RowSource) (all : list string) : result bool :=
  match end_error w with
  | Some e => Error e
  | None => Value (bool_decide (all = []))
  end.

Definition run_calls (w : RowSource) : list DbCall :=
  [DbConnect; DbQuery IsolationCheck; DbQuery CapacityCheck]
  ++ database_calls w ++ [DbEnd].

End Production.

(** ** The tenant health monitor (class [TenantHealthMonitor])

    Console lines as for the production script. *)

(** A value of a column as the driver hands it to JavaScript, and a row
    object as a map from column names.  A 64-bit count arrives as its
    decimal text. *)
Inductive JsValue : Type :=
| JsNumber (n : Z)
| JsString (s : string).

(** [`${v}`]: a missing property interpolates as [undefined]. *)
Definition interpolate (v : option JsValue) : string :=
  match v with
  | Some (JsNumber n) => pretty n
  | Some (JsString s) => s
  | None => "undefined"
  end.

Module Monitor.

(** *** The SQL of the script *)

Definition same_tenant (t : Tenant) (tu : TenantUser) : bool :=
  Rel.is_true (Rel.sql_eq (tu_tenant_id tu) (Some (t_id t))).

Definition same_tenant_usage (r : Tenant * option TenantUser) (tus : TenantUsageStat)
  : bool :=
  Rel.is_true (Rel.sql_eq (tus_tenant_id tus) (Some (t_id r.1))).

(** [tenants t LEFT JOIN tenant_users tu ON tu.tenant_id = t.id
    LEFT JOIN tenant_usage_stats tus ON tus.tenant_id = t.id],
    restricted to one tenant. *)
Definition leakage_join (data : Database) (t : Tenant)
  : list (Tenant * option TenantUser * option TenantUsageStat) :=
  Rel.left_join same_tenant_usage
    (Rel.left_join_row same_tenant t (tenant_users data))
    (tenant_usage_stats data).

Definition mismatched_users (data : Database) (t : Tenant) : Z :=
  Rel.count
    (λ r : Tenant * option TenantUser * option TenantUsageStat,
       Rel.case_when_1 (Rel.sql_ne (r.1.2 ≫= tu_tenant_id) (Some (t_id r.1.1))))
    (leakage_join data t).

Definition mismatched_usage (data : Database) (t : Tenant) : Z :=
  Rel.count
    (λ r : Tenant * option TenantUser * option TenantUsageStat,
       Rel.case_when_1 (Rel.sql_ne (r.2 ≫= tus_tenant_id) (Some (t_id r.1.1))))
    (leakage_join data t).

(** A row of [SELECT * FROM tenant_data_counts]: exactly the four
    columns of the CTE. *)
Definition leakage_row (tenant_id : Z) (tenant_name : string)
    (mismatched_users mismatched_usage : Z) : gmap string JsValue :=
  <["tenant_id" := JsNumber tenant_id]>
    (<["tenant_name" := JsString tenant_name]>
       (<["mismatched_users" := JsString (pretty mismatched_users)]>
          (<["mismatched_usage" := JsString (pretty mismatched_usage)]> ∅))).

(** [... WHERE mismatched_users > 0 OR mismatched_usage > 0] *)
Definition leakage_query (data : Database) : list (gmap string JsValue) :=
  map (λ t, leakage_row (t_id t) (t_name t)
              (mismatched_users data t) (mismatched_usage data t))
      (List.filter
         (λ t, (0 <? mismatched_users data t) || (0 <? mismatched_usage data t))
         (List.filter active (tenants data))).

Record OrphanRow : Type := {
  table_name : string;
  orphan_count : Z
}.

Definition user_owner (tu : TenantUser) (t : Tenant) : bool :=
  Rel.is_true (Rel.sql_eq (tu_tenant_id tu) (Some (t_id t))).

Definition usage_owner (tus : TenantUsageStat) (t : Tenant) : bool :=
  Rel.is_true (Rel.sql_eq (tus_tenant_id tus) (Some (t_id t))).

(** [COUNT( * ) FROM child LEFT JOIN tenants t ON child.tenant_id = t.id
    WHERE t.id IS NULL] *)
Definition orphans {A} (on : A → Tenant → bool) (child : list A) (data : Database) : Z :=
  Z.of_nat
    (length
       (List.filter (λ r : A * option Tenant, bool_decide (t_id <$> r.2 = None))
                    (Rel.left_join on child (tenants data)))).

(** The two branches of the [UNION ALL]. *)
Definition orphan_query (data : Database) : list OrphanRow :=
  [ {| table_name := "tenant_users";
       orphan_count := orphans user_owner (tenant_users data) data |};
    {| table_name := "tenant_usage_stats";
       orphan_count := orphans usage_owner (tenant_usage_stats data) data |} ].

(** The [CASE] expressions of the performance check. *)
Definition user_status_case (user_count max_users : Z) : UtilizationStatus :=
  if max_users =? -1 then UNLIMITED
  else if user_count >=? max_users then EXCEEDED
  else if Sql.numeric_gt user_count (inject_Z max_users * (8 # 10)) then HIGH
  else OK.

Definition api_status_case (api_calls_count max_api_calls : Z) : UtilizationStatus :=
  if max_api_calls =? -1 then UNLIMITED
  else if api_calls_count >=? max_api_calls then EXCEEDED
  else if Sql.numeric_gt api_calls_count (inject_Z max_api_calls * (8 # 10)) then HIGH
  else OK.

Definition user_utilization_case (user_count max_users : Z) : result Z :=
  if max_users =? -1 then Value 0 else Sql.percent_of user_count max_users.

Definition api_utilization_case (api_calls_count max_api_calls : Z) : result Z :=
  if max_api_calls =? -1 then Value 0 else Sql.percent_of api_calls_count max_api_calls.

(** A row of the CTE [tenant_metrics]. *)
Record MetricsRow : Type := {
  m_id : Z;
  m_name : string;
  m_plan : string;
  m_user_count : Z;
  m_api_calls_count : Z;
  m_max_users : Z;
  m_max_api_calls : Z
}.

(** A row of the performance check. *)
Record PerfRow : Type := {
  id : Z;
  name : string;
  plan : string;
  user_count : Z;
  api_calls_count : Z;
  max_users : Z;
  max_api_calls : Z;
  user_utilization : Z;
  api_utilization : Z;
  user_status : UtilizationStatus;
  api_status : UtilizationStatus
}.

Definition active_member (t : Tenant) (tu : TenantUser) : bool :=
  same_tenant t tu && String.eqb (tu_status tu) "active".

(** [tus.tenant_id = t.id AND tus.stat_date >= CURRENT_DATE - 30] *)
Definition recent_usage (today : Z) (r : Tenant * option TenantUser)
    (tus : TenantUsageStat) : bool :=
  same_tenant_usage r tus && (tus_stat_date tus >=? today - 30).

Definition metrics_join (today : Z) (data : Database) (t : Tenant)
  : list (Tenant * option TenantUser * option TenantUsageStat) :=
  Rel.left_join (recent_usage today)
    (Rel.left_join_row active_member t (tenant_users data))
    (tenant_usage_stats data).

(** [COALESCE(SUM(tus.api_calls_count), 0)]: NULLs do not count and
    the sum of no value is NULL. *)
Definition sum_api_calls
    (rows : list (Tenant * option TenantUser * option TenantUsageStat)) : Z :=
  foldr Z.add 0 (omap (λ r, tus_api_calls_count <$> r.2) rows).

Definition tenant_metrics_row (today : Z) (data : Database) (t : Tenant)
  : result MetricsRow :=
  let joined := metrics_join today data t in
  mu ←ʳ Sql.int4in (Sql.coalesce (t_limits_users t) "999999");
  ma ←ʳ Sql.int4in (Sql.coalesce (t_limits_apiCalls t) "999999");
  Value {| m_id := t_id t;
           m_name := t_name t;
           m_plan := t_plan t;
           m_user_count := Rel.count (λ r, tu_id <$> r.1.2) joined;
           m_api_calls_count := sum_api_calls joined;
           m_max_users := mu;
           m_max_api_calls := ma |}.

Definition perf_row (m : MetricsRow) : result PerfRow :=
  uu ←ʳ user_utilization_case (m_user_count m) (m_max_users m);
  au ←ʳ api_utilization_case (m_api_calls_count m) (m_max_api_calls m);
  Value {| id := m_id m;
           name := m_name m;
           plan := m_plan m;
           user_count := m_user_count m;
           api_calls_count := m_api_calls_count m;
           max_users := m_max_users m;
           max_api_calls := m_max_api_calls m;
           user_utilization := uu;
           api_utilization := au;
           user_status := user_status_case (m_user_count m) (m_max_users m);
           api_status := api_status_case (m_api_calls_count m) (m_max_api_calls m) |}.

(** [ORDER BY user_count DESC]; rows of equal count keep their order. *)
Fixpoint insert_desc (r : PerfRow) (sorted : list PerfRow) : list PerfRow :=
  match sorted with
  | [] => [r]
  | r' :: rest =>
      if user_count r' <=? user_count r then r :: sorted
      else r' :: insert_desc r rest
  end.

Definition order_by_user_count (rows : list PerfRow) : list PerfRow :=
  foldr insert_desc [] rows.

Definition perf_query (today : Z) (data : Database) : result (list PerfRow) :=
  metrics ←ʳ rmap (tenant_metrics_row today data) (List.filter active (tenants data));
  rows ←ʳ rmap perf_row metrics;
  Value (order_by_user_count rows).

(** [getTenants]: the rows are only counted, so their order
    ([created_at DESC]) is not kept. *)
Definition tenants_query (data : Database) : list Tenant :=
  List.filter active (tenants data).

(** *** What is outside the database

    The answer of each service to [GET /api/health] as [makeRequest]
    resolves it (or the message it rejects with), the time
    [checkServiceHealth] measures around the call, the instant at
    which the request settles, the configured threshold and the clock:
    [now n] is the text of the n-th [Date] object the monitor makes
    ([new Date().toISOString()]). *)
Inductive ProbeResult : Type :=
| Response (statusCode : Z)
| Failure (error : string)
| Rejected (message : string).

Record Environment : Type := {
  probe : string → ProbeResult;
  elapsed : string → Z;
  settled_at : string → Z;
  responseTime_threshold : Z;   (* [config.monitoring.alertThresholds.responseTime] *)
  now : nat → string
}.

(** The keys of [config.services]. *)
Definition services : list string := ["auth"; "user"; "dashboard"; "payments"].

(** The order in which the requests settle.  They are sent one after
    the other in the order of the configuration; of two that settle at
    the same instant the one sent first is taken first. *)
Fixpoint insert_settled (env : Environment) (serviceName : string)
    (later : list string) : list string :=
  match later with
  | [] => [serviceName]
  | other :: rest =>
      if settled_at env serviceName <=? settled_at env other
      then serviceName :: later
      else other :: insert_settled env serviceName rest
  end.

Definition completion (env : Environment) : list string :=
  foldr (insert_settled env) [] services.

(** *** The object *)

Inductive AlertType : Type :=
| CRITICAL
| WARNING.

Global Instance AlertType_eq_dec : EqDecision AlertType.
Proof. solve_decision. Defined.

Record Alert : Type := {
  type : AlertType;
  service : string;
  message : string;
  timestamp : string
}.

Record State : Type := {
  db : bool;                  (* [this.db] holds a client *)
  alerts : list Alert;        (* [this.healthMetrics.alerts] *)
  violations : list string;   (* the local array of [checkTenantIsolation] *)
  console : list string;
  calls : list DbCall;
  dates : nat                 (* the [Date] objects made so far *)
}.

(** [new TenantHealthMonitor()]; [healthMetrics.tenants] and
    [healthMetrics.services] are never written nor read. *)
Definition constructor : State :=
  {| db := false; alerts := []; violations := []; console := []; calls := [];
     dates := 0 |}.

Definition M : Type → Type := @Js.M State.

Definition log (line : string) : M unit :=
  Js.modify (λ s, {| db := db s; alerts := alerts s; violations := violations s;
                     console := console s ++ [line]; calls := calls s;
                     dates := dates s |}).

Definition push_alert (a : Alert) : M unit :=
  Js.modify (λ s, {| db := db s; alerts := alerts s ++ [a];
                     violations := violations s;
                     console := console s; calls := calls s; dates := dates s |}).

(** [new Date().toISOString()] *)
Definition new_Date (env : Environment) : M string :=
  n <- Js.gets dates;;
  Js.modify (λ s, {| db := db s; alerts := alerts s; violations := violations s;
                     console := console s; calls := calls s;
                     dates := S (dates s) |});;
  Js.ret (now env n).

Definition set_violations (v : list string) : M unit :=
  Js.modify (λ s, {| db := db s; alerts := alerts s; violations := v;
                     console := console s; calls := calls s; dates := dates s |}).

Definition push_violation (v : string) : M unit :=
  vs <- Js.gets violations;;
  set_violations (vs ++ [v]).

Definition set_db (b : bool) : M unit :=
  Js.modify (λ s, {| db := b; alerts := alerts s; violations := violations s;
                     console := console s; calls := calls s; dates := dates s |}).

Definition call (c : DbCall) : M unit :=
  Js.modify (λ s, {| db := db s; alerts := alerts s; violations := violations s;
                     console := console s; calls := calls s ++ [c];
                     dates := dates s |}).

Definition db_query {A} (w : RowSource) (q : Statement) (rows : result A) : M A :=
  client <- Js.gets db;;
  if client then
    call (DbQuery q);;
    match statement_error w q with
    | Some e => Js.throw e
    | None =>
        match rows with
        | Value r => Js.ret r
        | Error e => Js.throw e
        end
    end
  else Js.throw "Cannot read properties of null (reading 'query')".

Definition connect (w : RowSource) : M unit :=
  Js.try_catch
    (set_db true;;
     call DbConnect;;
     match connect_error w with
     | Some e => Js.throw e
     | None => log "Connected to PostgreSQL database"
     end)
    (λ e, log ("Database connection failed: " +:+ e);; Js.throw e).

Definition disconnect (w : RowSource) : M unit :=
  client <- Js.gets db;;
  if client then
    call DbEnd;;
    match end_error w with
    | Some e => Js.throw e
    | None => log "Database connection closed"
    end
  else Js.ret tt.

Definition getTenants (w : RowSource) : M (list Tenant) :=
  Js.try_catch
    (db_query w ActiveTenants (Value (tenants_query (database w))))
    (λ e, log ("Failed to fetch tenants: " +:+ e);; Js.ret []).

(** [violations.join(', ')] *)
Fixpoint join (sep : string) (l : list string) : string :=
  match l with
  | [] => EmptyString
  | [x] => x
  | x :: l' => x +:+ sep +:+ join sep l'
  end.

(** The message pushed for one row of the leakage check. *)
Definition leakage_message (row : gmap string JsValue) : string :=
  "Tenant " +:+ interpolate (row !! "tenant_name") +:+ ": "
  +:+ interpolate (row !! "mismatched_users") +:+ " user violations, "
  +:+ interpolate (row !! "mismatched_subscriptions") +:+ " subscription violations".

Definition orphan_message (row : OrphanRow) : string :=
  pretty (orphan_count row) +:+ " orphaned records in " +:+ table_name row +:+ " table".

Definition checkTenantIsolation (w : RowSource) (env : Environment)
  : M (list string) :=
  log "Tenant Isolation Health";;
  set_violations [];;
  Js.try_catch
    (leakageCheck <- db_query w LeakageCheck (Value (leakage_query (database w)));;
     (if (0 <? length leakageCheck)%nat then
        Js.forEach leakageCheck (λ row, push_violation (leakage_message row))
      else Js.ret tt);;
     orphanCheck <- db_query w OrphanCheckAll (Value (orphan_query (database w)));;
     Js.forEach orphanCheck
       (λ row,
          if 0 <? orphan_count row then push_violation (orphan_message row)
          else Js.ret tt);;
     vs <- Js.gets violations;;
     if (length vs =? 0)%nat then
       log "Tenant isolation - No violations detected"
     else
       log ("Tenant isolation - " +:+ pretty (length vs) +:+ " violations:");;
       Js.forEach vs (λ v, log ("  - " +:+ v));;
       timestamp <- new_Date env;;
       push_alert {| type := CRITICAL;
                     service := "Database";
                     message := "Tenant isolation violations: " +:+ join ", " vs;
                     timestamp := timestamp |})
    (λ e,
       log ("Tenant isolation check failed: " +:+ e);;
       push_violation ("Isolation check failed: " +:+ e));;
  Js.gets violations.

(** [tenant.max_users === -1 ? '∞' : tenant.max_users] *)
Definition display (max : Z) : string :=
  if max =? -1 then infinity_sign else pretty max.

(** [tenant.user_utilization || 0] *)
Definition or_zero (n : Z) : Z := if n =? 0 then 0 else n.

Definition usage_of (tenant : PerfRow) : string :=
  let userDisplay := display (max_users tenant) in
  let apiDisplay := display (max_api_calls tenant) in
  let userUtil := or_zero (user_utilization tenant) in
  let apiUtil := or_zero (api_utilization tenant) in
  "Users: " +:+ pretty (user_count tenant) +:+ "/" +:+ userDisplay
  +:+ " (" +:+ pretty userUtil +:+ "%), API: "
  +:+ pretty (api_calls_count tenant) +:+ "/" +:+ apiDisplay
  +:+ " (" +:+ pretty apiUtil +:+ "%)".

Record Counters : Type := {
  healthyTenants : Z;
  warningTenants : Z;
  criticalTenants : Z
}.

Definition hasExceeded (tenant : PerfRow) : bool :=
  bool_decide (user_status tenant = EXCEEDED)
  || bool_decide (api_status tenant = EXCEEDED).

Definition hasWarning (tenant : PerfRow) : bool :=
  bool_decide (user_status tenant = HIGH) || bool_decide (api_status tenant = HIGH).

Definition checkTenantPerformance (w : RowSource) (env : Environment) : M unit :=
  log "Tenant Performance Health";;
  Js.try_catch
    (perfCheck <- db_query w PerfCheck (perf_query (current_date w) (database w));;
     n <- Js.forEach_with perfCheck
            (λ tenant n,
               if hasExceeded tenant then
                 log (name tenant +:+ " - CRITICAL: " +:+ usage_of tenant);;
                 (timestamp <- new_Date env;;
                  push_alert {| type := CRITICAL;
                                service := "Tenant Limits";
                                message := "Tenant " +:+ name tenant
                                           +:+ " has exceeded limits";
                                timestamp := timestamp |});;
                 Js.ret {| healthyTenants := healthyTenants n;
                           warningTenants := warningTenants n;
                           criticalTenants := criticalTenants n + 1 |}
               else if hasWarning tenant then
                 log (name tenant +:+ " - WARNING: " +:+ usage_of tenant);;
                 Js.ret {| healthyTenants := healthyTenants n;
                           warningTenants := warningTenants n + 1;
                           criticalTenants := criticalTenants n |}
               else
                 log (name tenant +:+ " - OK: " +:+ usage_of tenant);;
                 Js.ret {| healthyTenants := healthyTenants n + 1;
                           warningTenants := warningTenants n;
                           criticalTenants := criticalTenants n |})
            {| healthyTenants := 0; warningTenants := 0; criticalTenants := 0 |};;
     log ("Tenant Performance Summary: " +:+ pretty (healthyTenants n)
          +:+ " healthy, " +:+ pretty (warningTenants n) +:+ " warnings, "
          +:+ pretty (criticalTenants n) +:+ " critical"))
    (λ e, log ("Tenant performance check failed: " +:+ e)).

(** One element of the [results] array of [checkServiceHealth]. *)
Record ServiceResult : Type := {
  serviceName : string;
  healthy : bool
}.

(** [response.error || x]: the error text unless it is empty. *)
Definition error_or (error fallback : string) : string :=
  if String.eqb error EmptyString then fallback else error.

(** The body of the [map] callback of [checkServiceHealth], from the
    point where its request has settled. *)
Definition checkService (env : Environment) (serviceName : string) : M ServiceResult :=
  match probe env serviceName with
  | Rejected e =>
      log (serviceName +:+ " - ERROR (" +:+ e +:+ ")");;
      Js.ret {| serviceName := serviceName; healthy := false |}
  | Response statusCode =>
      let responseTime := elapsed env serviceName in
      let isHealthy := statusCode =? 200 in
      let isSlow := responseTime >? responseTime_threshold env in
      (if isHealthy && negb isSlow then
         log (serviceName +:+ " - OK (" +:+ pretty responseTime +:+ "ms)")
       else if isHealthy && isSlow then
         log (serviceName +:+ " - SLOW (" +:+ pretty responseTime +:+ "ms)");;
         timestamp <- new_Date env;;
         push_alert {| type := WARNING;
                       service := serviceName;
                       message := "Slow response time: " +:+ pretty responseTime +:+ "ms";
                       timestamp := timestamp |}
       else
         log (serviceName +:+ " - FAILED (" +:+ pretty statusCode +:+ ")");;
         timestamp <- new_Date env;;
         push_alert {| type := CRITICAL;
                       service := serviceName;
                       message := "HTTP " +:+ pretty statusCode;
                       timestamp := timestamp |});;
      Js.ret {| serviceName := serviceName; healthy := isHealthy |}
  | Failure error =>
      (* [response.statusCode] is undefined: neither healthy nor slow-and-healthy *)
      log (serviceName +:+ " - FAILED (" +:+ error_or error "undefined" +:+ ")");;
      (timestamp <- new_Date env;;
       push_alert {| type := CRITICAL;
                     service := serviceName;
                     message := error_or error "HTTP undefined";
                     timestamp := timestamp |});;
      Js.ret {| serviceName := serviceName; healthy := false |}
  end.

Fixpoint mapM {A B} (f : A → M B) (l : list A) : M (list B) :=
  match l with
  | [] => Js.ret []
  | a :: l' => b <- f a;; bs <- mapM f l';; Js.ret (b :: bs)
  end.

(** [Promise.all] gives the results in the order of the promises,
    whatever the order in which they settled. *)
Definition in_order_of (names : list string) (settled : list ServiceResult)
  : list ServiceResult :=
  omap (λ n, List.find (λ r, String.eqb (serviceName r) n) settled) names.

(** [services.map(async ...)] sends the four requests in the order of
    the configuration, and each callback goes on when its own request
    has settled: the lines are printed and the alerts pushed in the
    order in which the requests settle. *)
Definition checkServiceHealth (env : Environment) : M (list ServiceResult) :=
  log "Service Health Check";;
  settled <- mapM (checkService env) (completion env);;
  Js.ret (in_order_of services settled).

Definition count_type (t : AlertType) (l : list Alert) : nat :=
  length (List.filter (λ a, bool_decide (type a = t)) l).

Definition generateReport (w : RowSource) : M bool :=
  log "TENANT HEALTH SUMMARY";;
  tenants <- getTenants w;;
  log ("Total Active Tenants: " +:+ pretty (length tenants));;
  all <- Js.gets alerts;;
  let criticalAlerts := count_type CRITICAL all in
  let warningAlerts := count_type WARNING all in
  log ("Critical Alerts: " +:+ pretty criticalAlerts);;
  log ("Warning Alerts: " +:+ pretty warningAlerts);;
  if (0 <? criticalAlerts)%nat then
    log "CRITICAL ISSUES DETECTED";;
    Js.forEach (List.filter (λ a, bool_decide (type a = CRITICAL)) all)
      (λ alert, log ("   " +:+ service alert +:+ ": " +:+ message alert));;
    Js.ret false
  else if (0 <? warningAlerts)%nat then
    log "WARNINGS DETECTED";;
    Js.forEach (List.filter (λ a, bool_decide (type a = WARNING)) all)
      (λ alert, log ("   " +:+ service alert +:+ ": " +:+ message alert));;
    Js.ret true
  else
    log "ALL SYSTEMS HEALTHY";;
    Js.ret true.

Definition runFullHealthCheck (w : RowSource) (env : Environment) : M bool :=
  log "TENANT HEALTH MONITORING";;
  (date <- new_Date env;; log date);;
  connect w;;
  Js.try_finally
    (checkTenantIsolation w env;;
     checkTenantPerformance w env;;
     checkServiceHealth env;;
     isHealthy <- generateReport w;;
     Js.ret isHealthy)
    (disconnect w).

(** The promise chain under [require.main === module], on a given
    object: the exit code and the object afterwards. *)
Definition exit_of (w : RowSource) (env : Environment) (monitor : State) : Z * State :=
  match runFullHealthCheck w env monitor with
  | (Value isHealthy, s) => (Js.exit_code (Value isHealthy), s)
  | (Error e, s) =>
      (Js.exit_code (Error e), snd (log ("Health monitoring failed: " +:+ e) s))
  end.

Definition main (w : RowSource) (env : Environment) : Z * State :=
  exit_of w env constructor.

(** *** What one run records *)

Definition orphan_violations (data : Database) : list string :=
  map orphan_message (List.filter (λ row, 0 <? orphan_count row) (orphan_query data)).

(** The array [checkTenantIsolation] returns. *)
Definition isolation_violations (w : RowSource) : list string :=
  match statement_error w LeakageCheck with
  | Some e => ["Isolation check failed: " +:+ e]
  | None =>
      let leaks := map leakage_message (leakage_query (database w)) in
      match statement_error w OrphanCheckAll with
      | Some e => leaks ++ ["Isolation check failed: " +:+ e]
      | None => leaks ++ orphan_violations (database w)
      end
  end.

(** What an alert says, apart from its time. *)
Record Notice : Type := {
  notice_type : AlertType;
  notice_service : string;
  notice_message : string
}.

Definition notice_of (a : Alert) : Notice :=
  {| notice_type := type a; notice_service := service a;
     notice_message := message a |}.

Definition stamp (x : Notice) (time : string) : Alert :=
  {| type := notice_type x; service := notice_service x;
     message := notice_message x; timestamp := time |}.

(** Alerts pushed one after the other, the first with [Date] object
    [n]: each takes the next reading of the clock. *)
Definition stamped (env : Environment) (n : nat) (l : list Notice) : list Alert :=
  imap (λ k x, stamp x (now env (n + k))) l.

Definition count_notices (t : AlertType) (l : list Notice) : nat :=
  length (List.filter (λ x, bool_decide (notice_type x = t)) l).

(** The alert [checkTenantIsolation] raises: only when both
    statements succeeded and some violation was found. *)
Definition isolation_notices (w : RowSource) : list Notice :=
  match statement_error w LeakageCheck, statement_error w OrphanCheckAll with
  | None, None =>
      match isolation_violations w with
      | [] => []
      | vs => [ {| notice_type := CRITICAL;
                   notice_service := "Database";
                   notice_message := "Tenant isolation violations: " +:+ join ", " vs |} ]
      end
  | _, _ => []
  end.

Definition limits_notice (tenant : PerfRow) : Notice :=
  {| notice_type := CRITICAL;
     notice_service := "Tenant Limits";
     notice_message := "Tenant " +:+ name tenant +:+ " has exceeded limits" |}.

Definition performance_notices (w : RowSource) : list Notice :=
  match statement_error w PerfCheck with
  | Some _ => []
  | None =>
      match perf_query (current_date w) (database w) with
      | Error _ => []
      | Value rows => map limits_notice (List.filter hasExceeded rows)
      end
  end.

Definition service_notice (env : Environment) (serviceName : string) : list Notice :=
  match probe env serviceName with
  | Rejected _ => []
  | Response statusCode =>
      let responseTime := elapsed env serviceName in
      if statusCode =? 200 then
        if responseTime >? responseTime_threshold env then
          [ {| notice_type := WARNING;
               notice_service := serviceName;
               notice_message := "Slow response time: " +:+ pretty responseTime +:+ "ms" |} ]
        else []
      else
        [ {| notice_type := CRITICAL;
             notice_service := serviceName;
             notice_message := "HTTP " +:+ pretty statusCode |} ]
  | Failure error =>
      [ {| notice_type := CRITICAL;
           notice_service := serviceName;
           notice_message := error_or error "HTTP undefined" |} ]
  end.

(** The console line and the result of one probe. *)
Definition service_line (env : Environment) (serviceName : string) : string :=
  match probe env serviceName with
  | Rejected e => serviceName +:+ " - ERROR (" +:+ e +:+ ")"
  | Response statusCode =>
      if statusCode =? 200 then
        if elapsed env serviceName >? responseTime_threshold env
        then serviceName +:+ " - SLOW (" +:+ pretty (elapsed env serviceName) +:+ "ms)"
        else serviceName +:+ " - OK (" +:+ pretty (elapsed env serviceName) +:+ "ms)"
      else serviceName +:+ " - FAILED (" +:+ pretty statusCode +:+ ")"
  | Failure error => serviceName +:+ " - FAILED (" +:+ error_or error "undefined" +:+ ")"
  end.

Definition service_result (env : Environment) (serviceName : string) : ServiceResult :=
  {| serviceName := serviceName;
     healthy := match probe env serviceName with
                | Response statusCode => statusCode =? 200
                | _ => false
                end |}.

(** The alerts of the services, in the order in which their requests
    settle. *)
Definition service_notices (env : Environment) : list Notice :=
  flat_map (service_notice env) (completion env).

Definition run_notices (w : RowSource) (env : Environment) : list Notice :=
  isolation_notices w ++ performance_notices w ++ service_notices env.

(** A child row that references no tenant. *)
Definition orphaned_user (data : Database) (tu : TenantUser) : Prop :=
  ∀ t, t ∈ tenants data → tu_tenant_id tu ≠ Some (t_id t).

Definition orphaned_usage (data : Database) (tus : TenantUsageStat) : Prop :=
  ∀ t, t ∈ tenants data → tus_tenant_id tus ≠ Some (t_id t).

(** The object after some steps: what they appended.  Each new alert
    has taken one reading of the clock. *)
Definition after (env : Environment) (s : State) (new_violations : list string)
    (new_notices : list Notice) (new_lines : list string) (new_calls : list DbCall)
  : State :=
  {| db := db s; alerts := alerts s ++ stamped env (dates s) new_notices;
     violations := violations s ++ new_violations;
     console := console s ++ new_lines; calls := calls s ++ new_calls;
     dates := dates s + length new_notices |}.

(** The object once [connect] has stored the client. *)
Definition connected (s : State) : State :=
  {| db := true; alerts := alerts s; violations := violations s;
     console := console s; calls := calls s; dates := dates s |}.

(** The object once [checkTenantIsolation] has made its empty array. *)
Definition cleared (s : State) : State :=
  {| db := db s; alerts := alerts s; violations := [];
     console := console s; calls := calls s; dates := dates s |}.

(** The object once a run has printed its banner, with the date. *)
Definition started (env : Environment) (s : State) : State :=
  {| db := db s; alerts := alerts s; violations := violations s;
     console := console s ++ ["TENANT HEALTH MONITORING"; now env (dates s)];
     calls := calls s; dates := S (dates s) |}.

(** Two environments in which the services answer alike; their clocks
    and the instants at which the requests settle may differ. *)
Definition same_answers (env env' : Environment) : Prop :=
  (∀ serviceName, probe env' serviceName = probe env serviceName)
  ∧ (∀ serviceName, elapsed env' serviceName = elapsed env serviceName)
  ∧ responseTime_threshold env' = responseTime_threshold env.

Definition isolation_calls (w : RowSource) : list DbCall :=
  match statement_error w LeakageCheck with
  | Some _ => [DbQuery LeakageCheck]
  | None => [DbQuery LeakageCheck; DbQuery OrphanCheckAll]
  end.

(** The outcome of a connected run that ends with the alerts [all]. *)
Definition outcome (w : RowSource) (all : list Notice) : result bool :=
  match end_error w with
  | Some e => Error e
  | None => Value (bool_decide (count_notices CRITICAL all = 0%nat))
  end.

Definition run_calls (w : RowSource) : list DbCall :=
  [DbConnect] ++ isolation_calls w
  ++ [DbQuery PerfCheck; DbQuery ActiveTenants; DbEnd].

End Monitor.

(** ** Sample row sources *)

Module Sample.

Definition tenant (id : Z) (name : string) (users apiCalls : option string) : Tenant :=
  {| t_id := id; t_name := name; t_plan := "pro"; t_status := "active";
     t_limits_users := users; t_limits_apiCalls := apiCalls |}.

Definition user (id tenant_id : Z) : TenantUser :=
  {| tu_id := id; tu_tenant_id := Some tenant_id; tu_status := "active" |}.

(** [n] active users of tenant [tenant_id], numbered from [first]. *)
Definition users (first : Z) (n : nat) (tenant_id : Z) : list TenantUser :=
  map (λ i, user (first + Z.of_nat i) tenant_id) (seq 0 n).

(** A row source that answers every call. *)
Definition reachable (data : Database) : RowSource :=
  {| database := data; connect_error := None; statement_error := λ _, None;
     end_error := None; current_date := 20000;
     date_at := λ n, "2026-01-01T00:00:0" +:+ pretty n +:+ ".000Z" |}.

Definition empty : Database :=
  {| tenants := []; tenant_users := []; tenant_usage_stats := [] |}.

(** One tenant with a limit of 10 users and exactly 10 active users. *)
Definition at_limit : Database :=
  {| tenants := [tenant 1 "acme" (Some "10") None];
     tenant_users := users 1 10 1;
     tenant_usage_stats := [] |}.

(** One tenant with a limit of 10 users and 11 active users. *)
Definition over_limit : Database :=
  {| tenants := [tenant 1 "acme" (Some "10") None];
     tenant_users := users 1 11 1;
     tenant_usage_stats := [] |}.

(** One healthy tenant, and a [tenant_users] row of tenant 99, which
    does not exist. *)
Definition with_orphan : Database :=
  {| tenants := [tenant 1 "acme" (Some "10") None];
     tenant_users := [user 1 1; user 2 99];
     tenant_usage_stats := [] |}.

(** No database: the connection is refused. *)
Definition unreachable : RowSource :=
  {| database := empty; connect_error := Some "connect ECONNREFUSED";
     statement_error := λ _, None; end_error := None; current_date := 20000;
     date_at := λ n, "2026-01-01T00:00:0" +:+ pretty n +:+ ".000Z" |}.

(** The leakage statement of the monitor fails; all else answers. *)
Definition leakage_fails (data : Database) : RowSource :=
  {| database := data; connect_error := None;
     statement_error :=
       λ q, if decide (q = LeakageCheck) then Some "relation does not exist" else None;
     end_error := None; current_date := 20000;
     date_at := λ n, "2026-01-01T00:00:0" +:+ pretty n +:+ ".000Z" |}.

(** Every service answers 200 in 12 ms. *)
Definition healthy_services : Monitor.Environment :=
  {| Monitor.probe := λ _, Monitor.Response 200;
     Monitor.elapsed := λ _, 12;
     Monitor.settled_at := λ _, 12;
     Monitor.responseTime_threshold := 5000;
     Monitor.now := λ n, "2026-01-01T00:00:0" +:+ pretty n +:+ ".000Z" |}.

(** The services answer as in [healthy_services], but the request to
    the payments service settles first and the clock started a year
    later. *)
Definition payments_first : Monitor.Environment :=
  {| Monitor.probe := λ _, Monitor.Response 200;
     Monitor.elapsed := λ _, 12;
     Monitor.settled_at := λ n, if String.eqb n "payments" then 3 else 12;
     Monitor.responseTime_threshold := 5000;
     Monitor.now := λ n, "2027-01-01T00:00:0" +:+ pretty n +:+ ".000Z" |}.

(** The joined and aggregated row of a tenant with 500 users and no
    limit on either dimension. *)
Definition unlimited_metrics : Monitor.MetricsRow :=
  {| Monitor.m_id := 2; Monitor.m_name := "free"; Monitor.m_plan := "enterprise";
     Monitor.m_user_count := 500; Monitor.m_api_calls_count := 0;
     Monitor.m_max_users := -1; Monitor.m_max_api_calls := -1 |}.

End Sample.

(** ** The percentage against the exact quotient *)

Module Percent.

(** [p] is an integer nearest to [100 * count / limit]. *)
Definition nearest (count limit p : Z) : Prop :=
  2 * Z.abs (100 * count - p * limit) <= limit.

End Percent.

(** ** Views of the two scripts used by the properties *)

(** What a probe must answer for its service to raise no CRITICAL
    alert: status 200, or a rejection (which is only logged). *)
Definition quiet (r : Monitor.ProbeResult) : Prop :=
  match r with
  | Monitor.Response statusCode => statusCode = 200
  | Monitor.Failure _ => False
  | Monitor.Rejected _ => True
  end.

(** [response.statusCode === 200] on what [makeRequest] resolved. *)
Definition answered_200 (r : Monitor.ProbeResult) : bool :=
  match r with
  | Monitor.Response statusCode => statusCode =? 200
  | _ => false
  end.

(** The probes that raise a WARNING and those that raise a CRITICAL
    alert. *)
Definition slow (env : Monitor.Environment) (n : string) : bool :=
  answered_200 (Monitor.probe env n)
  && (Monitor.elapsed env n >? Monitor.responseTime_threshold env).

Definition failed (env : Monitor.Environment) (n : string) : bool :=
  match Monitor.probe env n with
  | Monitor.Response statusCode => negb (statusCode =? 200)
  | Monitor.Failure _ => true
  | Monitor.Rejected _ => false
  end.

(** The active [tenant_users] rows of a tenant and its
    [tenant_usage_stats] rows of the last 30 days: what the two joins
    of the performance check match. *)
Definition active_users (data : Database) (t : Tenant) : list TenantUser :=
  List.filter (Monitor.active_member t) (tenant_users data).

Definition recent_stats (today : Z) (data : Database) (t : Tenant)
  : list TenantUsageStat :=
  List.filter (Monitor.recent_usage today (t, None)) (tenant_usage_stats data).

Definition total_api_calls (stats : list TenantUsageStat) : Z :=
  foldr Z.add 0 (map tus_api_calls_count stats).

(** A child row references no tenant: its [tenant_id] is NULL or the
    id of no row of [tenants]. *)
Definition references_no_tenant (data : Database) (tenant_id : option Z) : bool :=
  match tenant_id with
  | None => true
  | Some i => bool_decide (i ∉ map t_id (tenants data))
  end.

Module Cases.

Definition acme : Tenant := Sample.tenant 1 "acme" (Some "10") (Some "1000").

Definition stat (tenant_id calls day : Z) : TenantUsageStat :=
  {| tus_tenant_id := Some tenant_id; tus_api_calls_count := calls;
     tus_stat_date := day |}.

(** One tenant with two active users and three usage rows of the last
    30 days, of 100 calls each. *)
Definition busy : Database :=
  {| tenants := [acme];
     tenant_users := Sample.users 1 2 1;
     tenant_usage_stats := [stat 1 100 19990; stat 1 100 19991; stat 1 100 19992] |}.

Definition busy_metrics : Monitor.MetricsRow :=
  {| Monitor.m_id := 1; Monitor.m_name := "acme"; Monitor.m_plan := "pro";
     Monitor.m_user_count := 6; Monitor.m_api_calls_count := 600;
     Monitor.m_max_users := 10; Monitor.m_max_api_calls := 1000 |}.

Definition busy_capacity : Production.CapacityRow :=
  {| Production.id := 1; Production.name := "acme"; Production.plan := "pro";
     Production.current_users := 2; Production.max_users := 10;
     Production.capacity_status := OK |}.

End Cases.

(** The number of rows of the capacity check with a given status. *)
Definition capacity_rows_with (st : UtilizationStatus)
    (rows : list Production.CapacityRow) : Z :=
  Z.of_nat (length (List.filter
                      (λ r, bool_decide (Production.capacity_status r = st)) rows)).

(** The console line of [checkTenantLimits] for one row. *)
Definition capacity_line (tenant : Production.CapacityRow) : string :=
  Production.name tenant
  +:+ match Production.capacity_status tenant with
      | EXCEEDED => " - CRITICAL: "
      | HIGH => " - WARNING: "
      | _ => " - OK: "
      end
  +:+ Production.users_of tenant.

(** The bucket [checkTenantPerformance] puts a row in. *)
Inductive Bucket : Type :=
| Critical
| Warning
| Healthy.

Global Instance Bucket_eq_dec : EqDecision Bucket.
Proof. solve_decision. Defined.

Definition bucket (tenant : Monitor.PerfRow) : Bucket :=
  if Monitor.hasExceeded tenant then Critical
  else if Monitor.hasWarning tenant then Warning
  else Healthy.

Definition perf_rows_in (b : Bucket) (rows : list Monitor.PerfRow) : Z :=
  Z.of_nat (length (List.filter (λ r, bool_decide (bucket r = b)) rows)).

(** The console line of [checkTenantPerformance] for one row. *)
Definition perf_line (tenant : Monitor.PerfRow) : string :=
  Monitor.name tenant
  +:+ match bucket tenant with
      | Critical => " - CRITICAL: "
      | Warning => " - WARNING: "
      | Healthy => " - OK: "
      end
  +:+ Monitor.usage_of tenant.

(** The update of the three counters of [checkTenantLimits] for one
    row. *)
Definition tally (tenant : Production.CapacityRow) (n : Production.Counters)
  : Production.Counters :=
  if bool_decide (Production.capacity_status tenant = EXCEEDED) then
    {| Production.exceededCount := Production.exceededCount n + 1;
       Production.warningCount := Production.warningCount n;
       Production.healthyCount := Production.healthyCount n |}
  else if bool_decide (Production.capacity_status tenant = HIGH) then
    {| Production.exceededCount := Production.exceededCount n;
       Production.warningCount := Production.warningCount n + 1;
       Production.healthyCount := Production.healthyCount n |}
  else
    {| Production.exceededCount := Production.exceededCount n;
       Production.warningCount := Production.warningCount n;
       Production.healthyCount := Production.healthyCount n + 1 |}.

(** The update of the three counters of [checkTenantPerformance] for
    one row. *)
Definition perf_tally (tenant : Monitor.PerfRow) (n : Monitor.Counters)
  : Monitor.Counters :=
  match bucket tenant with
  | Critical =>
      {| Monitor.healthyTenants := Monitor.healthyTenants n;
         Monitor.warningTenants := Monitor.warningTenants n;
         Monitor.criticalTenants := Monitor.criticalTenants n + 1 |}
  | Warning =>
      {| Monitor.healthyTenants := Monitor.healthyTenants n;
         Monitor.warningTenants := Monitor.warningTenants n + 1;
         Monitor.criticalTenants := Monitor.criticalTenants n |}
  | Healthy =>
      {| Monitor.healthyTenants := Monitor.healthyTenants n + 1;
         Monitor.warningTenants := Monitor.warningTenants n;
         Monitor.criticalTenants := Monitor.criticalTenants n |}
  end.

(** ** JavaScript control flow with [process.exit]

    The other scripts end the process from inside their methods.  A
    computation returns, throws an [Error] with a message, or ends the
    process with an exit code; [catch] sees only what was thrown. *)

Inductive outcome (A : Type) : Type :=
| Returned (a : A)
| Thrown (message : string)
| Exited (code : Z).
Arguments Returned {A} a.
Arguments Thrown {A} message.
Arguments Exited {A} code.

Module Process.
Section Monad.
Context {S : Type}.

Definition M (A : Type) : Type := S → outcome A * S.

Definition ret {A} (a : A) : M A := λ s, (Returned a, s).

Definition throw {A} (e : string) : M A := λ s, (Thrown e, s).

(** [process.exit(code)] *)
Definition exit {A} (code : Z) : M A := λ s, (Exited code, s).

Definition bind {A B} (m : M A) (k : A → M B) : M B :=
  λ s, match m s with
       | (Returned a, s') => k a s'
       | (Thrown e, s') => (Thrown e, s')
       | (Exited c, s') => (Exited c, s')
       end.

(** [try { m } catch (error) { h error.message }] *)
Definition try_catch {A} (m : M A) (h : string → M A) : M A :=
  λ s, match m s with
       | (Thrown e, s') => h e s'
       | r => r
       end.

Definition modify (f : S → S) : M unit := λ s, (Returned tt, f s).

Definition gets {A} (f : S → A) : M A := λ s, (Returned (f s), s).

(** [for (const x of l) { body }] and [l.forEach(x => body)] *)
Fixpoint forEach {A} (l : list A) (body : A → M unit) : M unit :=
  match l with
  | [] => ret tt
  | a :: l' => bind (body a) (λ _, forEach l' body)
  end.

(** A loop whose body updates [let] variables of the enclosing
    function, here threaded as [c]. *)
Fixpoint forEach_with {A C} (l : list A) (body : A → C → M C) (c : C) : M C :=
  match l with
  | [] => ret c
  | a :: l' => bind (body a c) (λ c', forEach_with l' body c')
  end.
End Monad.
End Process.

Notation "x <<- m ;; k" := (Process.bind m (λ x, k))
  (at level 20, m at level 99, k at level 200, right associativity,
   format "x  <<-  m ;;  '/' k").
Notation "m ;;; k" := (Process.bind m (λ _, k))
  (at level 100, k at level 200, right associativity,
   format "m ;;;  '/' k").

(** ** JavaScript numbers where the scripts divide

    Counts and times are integers; a quotient is a binary64 value, and
    [Math.round] takes it to the nearest integer, a half going up. *)

Module JsNumber.

Definition of_Z (n : Z) : spec_float := Sql.float8_of_Z n.

(** [x / y]: no error, a zero divisor gives NaN or an infinity. *)
Definition div (x y : spec_float) : spec_float := SFdiv Sql.prec Sql.emax x y.

Definition mul (x y : spec_float) : spec_float := SFmul Sql.prec Sql.emax x y.

(** What [Math.round] returns. *)
Inductive Rounded : Type :=
| Integer (z : Z)
| NotANumber
| PlusInfinity
| MinusInfinity.

(** [Math.round(x)]: the floor of x + 1/2, computed exactly. *)
Definition round (x : spec_float) : Rounded :=
  match x with
  | S754_zero _ => Integer 0
  | S754_infinity false => PlusInfinity
  | S754_infinity true => MinusInfinity
  | S754_nan => NotANumber
  | S754_finite s m e =>
      let n := if s then Z.neg m else Z.pos m in
      if 0 <=? e then Integer (n * 2 ^ e)
      else Integer ((2 * n + 2 ^ (- e)) / (2 * 2 ^ (- e)))
  end.

(** [`${r}`], for integers below 10^21 in magnitude, which is all the
    quotients of these scripts round to. *)
Definition to_text (r : Rounded) : string :=
  match r with
  | Integer z => pretty z
  | NotANumber => "NaN"
  | PlusInfinity => "Infinity"
  | MinusInfinity => "-Infinity"
  end.

(** [r >= n]: false for NaN. *)
Definition ge (r : Rounded) (n : Z) : bool :=
  match r with
  | Integer z => n <=? z
  | NotANumber => false
  | PlusInfinity => true
  | MinusInfinity => false
  end.

(** [haystack.includes(needle)] *)
Definition includes (haystack needle : string) : bool :=
  match String.index 0 needle haystack with
  | Some _ => true
  | None => false
  end.

(** ['c'.repeat(n)] *)
Fixpoint repeat_char (c : ascii) (n : nat) : string :=
  match n with
  | O => EmptyString
  | S n' => String c (repeat_char c n')
  end.

End JsNumber.

(** ** The integration test suite (class [IntegrationTestSuite])

    Console lines are kept with their glyphs, without the blank line
    some of them start with; the two lines that only print the date are
    left out, and so is the [timestamp] of a result, which is written
    and never read. *)

Module Suite.

(** [TEST_CONFIG] *)
Definition environment : string := "dev".
Definition api : string := "https://c39q8sqdp8.execute-api.us-east-1.amazonaws.com/dev".
Definition frontend : string := "https://dz2lwnpg8aefz.cloudfront.net".
Definition s3_direct : string := "http://dev-ns-shell.s3-website-us-east-1.amazonaws.com".

(** What [makeRequest] resolves with ([headers] is never read), and how
    a request settles. *)
Record Response : Type := {
  statusCode : Z;
  body : string
}.

Inductive Settled : Type :=
| Resolved (r : Response)
| Rejected (message : string).

(** What is outside the process: how the n-th request of the run, to a
    given URL, settles, when it does (which matters only where several
    requests are in flight), and the n-th reading of [Date.now()], an
    integer below 2^53 in magnitude. *)
Record Environment : Type := {
  respond : nat → string → Settled;
  settle_time : nat → Z;
  clock : nat → Z
}.

Record TestResult : Type := {
  test : string;
  passed : bool;
  details : string
}.

Record State : Type := {
  results : list TestResult;      (* [this.results] *)
  startTime : Z;                  (* [this.startTime] *)
  console : list string;
  requests : list string;         (* the URLs requested so far *)
  readings : nat                  (* the readings of [Date.now()] so far *)
}.

(** [new IntegrationTestSuite()] *)
Definition constructor (env : Environment) : State :=
  {| results := [];
     startTime := clock env 0;
     console := [ "🚀 Starting NiroSubs Integration Test Suite";
                  "🌍 Environment: " +:+ environment;
                  JsNumber.repeat_char "=" 80 ];
     requests := [];
     readings := 1 |}.

Definition M : Type → Type := @Process.M State.

Definition log (line : string) : M unit :=
  Process.modify (λ s, {| results := results s; startTime := startTime s;
                          console := console s ++ [line];
                          requests := requests s; readings := readings s |}).

Definition recordResult (testName : string) (passed : bool) (details : string) : M unit :=
  Process.modify
    (λ s, {| results := results s
                        ++ [ {| test := testName; passed := passed;
                                details := details |} ];
             startTime := startTime s; console := console s;
             requests := requests s; readings := readings s |}).

(** [Date.now()] *)
Definition Date_now (env : Environment) : M Z :=
  n <<- Process.gets readings;;
  Process.modify (λ s, {| results := results s; startTime := startTime s;
                          console := console s; requests := requests s;
                          readings := S (readings s) |});;;
  Process.ret (clock env n).

(** Calling [makeRequest]: the request leaves, and will settle. *)
Definition send (env : Environment) (url : string) : M (nat * Settled) :=
  n <<- Process.gets (λ s, length (requests s));;
  Process.modify (λ s, {| results := results s; startTime := startTime s;
                          console := console s; requests := requests s ++ [url];
                          readings := readings s |});;;
  Process.ret (n, respond env n url).

(** [await this.makeRequest(url)] *)
Definition makeRequest (env : Environment) (url : string) : M Response :=
  sent <<- send env url;;
  match sent.2 with
  | Resolved r => Process.ret r
  | Rejected e => Process.throw e
  end.

(** [test.name]: the tests are arrow functions written inside an array
    literal, and such a function has the empty name. *)
Definition test_name : string := EmptyString.

Definition testGroup (groupName : string) (tests : list (M bool)) : M unit :=
  log ("🔍 " +:+ groupName);;;
  log (JsNumber.repeat_char "-" 50);;;
  Process.forEach tests
    (λ test,
       Process.try_catch
         (test;;; Process.ret tt)
         (λ e,
            recordResult test_name false e;;;
            log ("❌ " +:+ test_name +:+ ": " +:+ e))).

Definition testAPIGatewayHealth (env : Environment) : M bool :=
  result <<- makeRequest env (api +:+ "/health");;
  if (statusCode result =? 200) && JsNumber.includes (body result) "ok" then
    recordResult "API Gateway Health" true "Healthy";;;
    log "✅ API Gateway Health: Healthy";;;
    Process.ret true
  else
    Process.throw ("API Gateway health check failed: " +:+ pretty (statusCode result)).

Definition testCloudFrontDistribution (env : Environment) : M bool :=
  result <<- makeRequest env frontend;;
  if (statusCode result =? 200) && JsNumber.includes (body result) "<!DOCTYPE html>" then
    recordResult "CloudFront Distribution" true "Serving content";;;
    log "✅ CloudFront Distribution: Serving content correctly";;;
    Process.ret true
  else
    Process.throw ("CloudFront not serving content: " +:+ pretty (statusCode result)).

Definition testS3DirectAccess (env : Environment) : M bool :=
  result <<- makeRequest env s3_direct;;
  if statusCode result =? 200 then
    recordResult "S3 Direct Access" true "Accessible";;;
    log "✅ S3 Direct Access: Website hosting enabled";;;
    Process.ret true
  else
    Process.throw ("S3 website not accessible: " +:+ pretty (statusCode result)).

(** A loop of the tests: request each URL, count those whose answer
    is accepted, ignore a request that rejects. *)
Definition count_accepted {A} (env : Environment) (items : list A)
    (url : A → string) (accepted : A → Response → bool) : M Z :=
  Process.forEach_with items
    (λ item successful,
       Process.try_catch
         (result <<- makeRequest env (url item);;
          if accepted item result then Process.ret (successful + 1)
          else Process.ret successful)
         (λ _, Process.ret successful))
    0.

Definition lambdaEndpoints : list string := ["/health"].

Definition testLambdaFunctions (env : Environment) : M bool :=
  successful <<- count_accepted env lambdaEndpoints (λ endpoint, api +:+ endpoint)
                   (λ _ result, (statusCode result =? 200) || (statusCode result =? 401));;
  if 0 <? successful then
    let text := pretty successful +:+ "/" +:+ pretty (length lambdaEndpoints)
                +:+ " endpoints responding" in
    recordResult "Lambda Functions" true text;;;
    log ("✅ Lambda Functions: " +:+ text);;;
    Process.ret true
  else Process.throw "No Lambda endpoints responding".

Definition testCoreHealthEndpoint (env : Environment) : M bool :=
  Process.try_catch
    (result <<- makeRequest env (api +:+ "/core/health");;
     if statusCode result =? 401 then
       recordResult "Core Health Endpoint" true "Authentication required (expected)";;;
       log "✅ Core Health Endpoint: Authentication required (expected behavior)";;;
       Process.ret true
     else if statusCode result =? 200 then
       recordResult "Core Health Endpoint" true "Healthy";;;
       log "✅ Core Health Endpoint: Healthy";;;
       Process.ret true
     else Process.throw ("Unexpected status code: " +:+ pretty (statusCode result)))
    (λ e, Process.throw ("Core health endpoint failed: " +:+ e)).

Record Route : Type := {
  path : string;
  expectedStatus : list Z
}.

Definition routes : list Route :=
  [ {| path := "/health"; expectedStatus := [200] |};
    {| path := "/core/health"; expectedStatus := [200; 401] |};
    {| path := "/nonexistent"; expectedStatus := [404; 403] |} ].

(** [successful >= routes.length / 2], a comparison with 1.5. *)
Definition testAPIGatewayRouting (env : Environment) : M bool :=
  successful <<- count_accepted env routes (λ route, api +:+ path route)
                   (λ route result,
                      bool_decide (statusCode result ∈ expectedStatus route));;
  if Z.of_nat (length routes) <=? 2 * successful then
    let text := pretty successful +:+ "/" +:+ pretty (length routes) in
    recordResult "API Gateway Routing" true (text +:+ " routes working");;;
    log ("✅ API Gateway Routing: " +:+ text +:+ " routes working correctly");;;
    Process.ret true
  else
    Process.throw ("Insufficient routes working: " +:+ pretty successful +:+ "/"
                   +:+ pretty (length routes)).

Definition testErrorHandling (env : Environment) : M bool :=
  Process.try_catch
    (result <<- makeRequest env (api +:+ "/nonexistent-endpoint");;
     if bool_decide (statusCode result ∈ [403; 404]) then
       recordResult "Error Handling" true "Proper error responses";;;
       log "✅ Error Handling: Returning proper error responses";;;
       Process.ret true
     else Process.throw ("Expected error status, got: " +:+ pretty (statusCode result)))
    (λ e, Process.throw ("Error handling test failed: " +:+ e)).

Definition assets : list string :=
  ["/assets/index-DgQC42gf.css"; "/assets/index-CYv_A7p2.js"].

Definition testStaticAssets (env : Environment) : M bool :=
  successful <<- count_accepted env assets (λ asset, frontend +:+ asset)
                   (λ _ result, statusCode result =? 200);;
  if 0 <? successful then
    recordResult "Static Assets" true (pretty successful +:+ " assets loading");;;
    log ("✅ Static Assets: " +:+ pretty successful +:+ " assets loading correctly");;;
    Process.ret true
  else
    result <<- makeRequest env frontend;;
    if JsNumber.includes (body result) "/assets/" then
      recordResult "Static Assets" true "Assets referenced in HTML";;;
      log "✅ Static Assets: Assets referenced in HTML";;;
      Process.ret true
    else Process.throw "No static assets found".

Definition requiredElements : list string := ["<title>"; "<script"; "<link"; "root"].

Definition testIndexHTML (env : Environment) : M bool :=
  result <<- makeRequest env frontend;;
  let missingElements :=
    List.filter (λ element, negb (JsNumber.includes (body result) element))
      requiredElements in
  if (length missingElements =? 0)%nat then
    recordResult "Index HTML" true "All required elements present";;;
    log "✅ Index HTML: All required elements present";;;
    Process.ret true
  else Process.throw ("Missing elements: " +:+ Monitor.join ", " missingElements).

Definition testModuleFederationAssets (env : Environment) : M bool :=
  result <<- makeRequest env frontend;;
  if JsNumber.includes (body result) "federation"
     || JsNumber.includes (body result) "remoteEntry" then
    recordResult "Module Federation Assets" true "Federation assets present";;;
    log "✅ Module Federation Assets: Federation assets present";;;
    Process.ret true
  else
    recordResult "Module Federation Assets" true
      "Not enabled (expected for initial deployment)";;;
    log "ℹ️ Module Federation Assets: Not enabled (expected for initial deployment)";;;
    Process.ret true.

Definition testTenantRouting : M bool :=
  recordResult "Tenant Routing" true "Placeholder - tenant routing to be implemented";;;
  log "ℹ️ Tenant Routing: Placeholder - tenant routing to be implemented";;;
  Process.ret true.

Definition testTenantIsolation : M bool :=
  recordResult "Tenant Isolation" true "Placeholder - isolation tests to be implemented";;;
  log "ℹ️ Tenant Isolation: Placeholder - isolation tests to be implemented";;;
  Process.ret true.

(** The two [let] variables of [testResponseTimes]. *)
Record Timing : Type := {
  totalTime : Z;
  successful : Z
}.

Definition testResponseTimes (env : Environment) : M bool :=
  t <<- Process.forEach_with [api +:+ "/health"; frontend]
          (λ endpoint t,
             Process.try_catch
               (start <<- Date_now env;;
                makeRequest env endpoint;;;
                stop <<- Date_now env;;
                let responseTime := stop - start in
                (if 5000 <? responseTime then
                   log ("⚠️ Slow response from " +:+ endpoint +:+ ": "
                        +:+ pretty responseTime +:+ "ms")
                 else Process.ret tt);;;
                Process.ret {| totalTime := totalTime t + responseTime;
                               successful := successful t + 1 |})
               (λ _, Process.ret t))
          {| totalTime := 0; successful := 0 |};;
  if 0 <? successful t then
    let avgTime :=
      JsNumber.round (JsNumber.div (JsNumber.of_Z (totalTime t))
                        (JsNumber.of_Z (successful t))) in
    recordResult "Response Times" true
      ("Average: " +:+ JsNumber.to_text avgTime +:+ "ms");;;
    log ("✅ Response Times: Average " +:+ JsNumber.to_text avgTime +:+ "ms across "
         +:+ pretty (successful t) +:+ " endpoints");;;
    Process.ret true
  else Process.throw "No endpoints responded for timing test".

(** The reason [Promise.all] rejects with: that of the request that
    rejects first. *)
Fixpoint first_rejection (env : Environment) (sent : list (nat * Settled))
  : option (Z * string) :=
  match sent with
  | [] => None
  | (n, Resolved _) :: rest => first_rejection env rest
  | (n, Rejected e) :: rest =>
      match first_rejection env rest with
      | Some (t, e') =>
          if t <? settle_time env n then Some (t, e') else Some (settle_time env n, e)
      | None => Some (settle_time env n, e)
      end
  end.

Definition resolved (sent : list (nat * Settled)) : list Response :=
  omap (λ x : nat * Settled,
          match x.2 with
          | Resolved r => Some r
          | Rejected _ => None
          end) sent.

(** [await Promise.all(promises)] on requests already sent. *)
Definition Promise_all (env : Environment) (sent : list (nat * Settled))
  : M (list Response) :=
  match first_rejection env sent with
  | Some (_, e) => Process.throw e
  | None => Process.ret (resolved sent)
  end.

Fixpoint send_all (env : Environment) (urls : list string) : M (list (nat * Settled)) :=
  match urls with
  | [] => Process.ret []
  | url :: rest =>
      x <<- send env url;;
      xs <<- send_all env rest;;
      Process.ret (x :: xs)
  end.

Definition testLoadHandling (env : Environment) : M bool :=
  promises <<- send_all env (replicate 5 (api +:+ "/health"));;
  Process.try_catch
    (results <<- Promise_all env promises;;
     let successful :=
       length (List.filter (λ r, statusCode r =? 200) results) in
     if (3 <=? successful)%nat then
       let text := pretty successful +:+ "/5 concurrent requests succeeded" in
       recordResult "Load Handling" true text;;;
       log ("✅ Load Handling: " +:+ text);;;
       Process.ret true
     else
       Process.throw ("Only " +:+ pretty successful +:+ "/5 requests succeeded"))
    (λ e, Process.throw ("Load handling test failed: " +:+ e)).

(** [Math.round((passed / total) * 100)] *)
Definition success_rate (passed total : nat) : JsNumber.Rounded :=
  JsNumber.round
    (JsNumber.mul
       (JsNumber.div (JsNumber.of_Z (Z.of_nat passed)) (JsNumber.of_Z (Z.of_nat total)))
       (JsNumber.of_Z 100)).

Definition generateReport (env : Environment) : M unit :=
  now <<- Date_now env;;
  start <<- Process.gets startTime;;
  all <<- Process.gets results;;
  let duration := now - start in
  let passed := length (List.filter passed all) in
  let total := length all in
  let successRate := success_rate passed total in
  log (JsNumber.repeat_char "=" 80);;;
  log "📊 INTEGRATION TEST SUMMARY";;;
  log (JsNumber.repeat_char "=" 80);;;
  log ("⏱️ Duration: "
       +:+ JsNumber.to_text
             (JsNumber.round (JsNumber.div (JsNumber.of_Z duration) (JsNumber.of_Z 1000)))
       +:+ "s");;;
  log ("📈 Success Rate: " +:+ JsNumber.to_text successRate +:+ "% ("
       +:+ pretty passed +:+ "/" +:+ pretty total +:+ ")");;;
  log ("🌍 Environment: " +:+ environment);;;
  log "📋 DETAILED RESULTS:";;;
  Process.forEach all
    (λ result,
       log ((if Suite.passed result then "✅" else "❌") +:+ " " +:+ test result
            +:+ ": " +:+ details result));;;
  log "🔗 DEPLOYMENT URLS:";;;
  log ("🌐 Frontend (CloudFront): " +:+ frontend);;;
  log ("🔌 API Gateway: " +:+ api);;;
  log ("📦 S3 Direct: " +:+ s3_direct);;;
  if JsNumber.ge successRate 80 then
    log "🎉 DEPLOYMENT SUCCESSFUL! Multitenant environment is ready.";;;
    Process.exit 0
  else
    log "⚠️ DEPLOYMENT ISSUES DETECTED. Some components may need attention.";;;
    Process.exit 1.

Definition runAllTests (env : Environment) : M unit :=
  Process.try_catch
    (testGroup "Infrastructure Health"
       [ testAPIGatewayHealth env; testCloudFrontDistribution env;
         testS3DirectAccess env; testLambdaFunctions env ];;;
     testGroup "API Endpoints"
       [ testCoreHealthEndpoint env; testAPIGatewayRouting env; testErrorHandling env ];;;
     testGroup "Frontend Deployment"
       [ testStaticAssets env; testIndexHTML env; testModuleFederationAssets env ];;;
     testGroup "Multitenant Functionality"
       [ testTenantRouting; testTenantIsolation ];;;
     testGroup "Performance & Reliability"
       [ testResponseTimes env; testLoadHandling env ];;;
     generateReport env)
    (λ e, log ("❌ Test suite failed: " +:+ e);;; Process.exit 1).

(** The script under [require.main === module]: how the process ends
    and the object then. *)
Definition main (env : Environment) : outcome unit * State :=
  Process.try_catch (runAllTests env)
    (λ e, log ("Test suite crashed: " +:+ e);;; Process.exit 1)
    (constructor env).

(** *** What the properties say of a computation *)

(** It leaves [this.results] alone and does not end the process. *)
Definition keeps_results {A} (m : M A) : Prop :=
  ∀ s, results (snd (m s)) = results s ∧ ∀ c, fst (m s) ≠ Exited c.

(** It behaves as a test: it returns after recording one passed result
    under a name, or throws and records nothing. *)
Definition records_once (m : M bool) : Prop :=
  ∀ s, match m s with
       | (Returned _, s') =>
           ∃ r, results s' = (results s ++ [r])%list ∧ passed r = true
                ∧ test r ≠ test_name
       | (Thrown _, s') => results s' = results s
       | (Exited _, _) => False
       end.

(** A result as [testGroup] leaves it: passed under the name of its
    test, or failed under the empty name. *)
Definition named_iff_passed (r : TestResult) : Prop :=
  (passed r = true ∧ test r ≠ test_name) ∨ (passed r = false ∧ test r = test_name).

(** A request that resolved, and one that resolved with status 200. *)
Definition is_resolved (a : Settled) : bool :=
  match a with
  | Resolved _ => true
  | Rejected _ => false
  end.

Definition is_200 (a : Settled) : bool :=
  match a with
  | Resolved r => statusCode r =? 200
  | Rejected _ => false
  end.

(** The number of accepted answers among the requests a counting loop
    sends, the first of them being request [n] of the run. *)
Fixpoint accepted_from {A} (env : Environment) (n : nat) (items : list A)
    (url : A → string) (accepted : A → Response → bool) : Z :=
  match items with
  | [] => 0
  | item :: rest =>
      match respond env n (url item) with
      | Resolved r => if accepted item r then 1 else 0
      | Rejected _ => 0
      end
      + accepted_from env (S n) rest url accepted
  end.

(** The requests sent at once from request [n] on, with what they
    settle to. *)
Definition sent_from (env : Environment) (n : nat) (urls : list string)
  : list (nat * Settled) :=
  imap (λ k url, ((n + k)%nat, respond env (n + k) url)) urls.

(** The object after some console lines. *)
Definition logged (s : State) (lines : list string) : State :=
  {| results := results s; startTime := startTime s;
     console := console s ++ lines;
     requests := requests s; readings := readings s |}.

Definition passed_count (l : list TestResult) : nat :=
  length (List.filter passed l).

(** The two placeholder results. *)
Definition routing_result : TestResult :=
  {| test := "Tenant Routing"; passed := true;
     details := "Placeholder - tenant routing to be implemented" |}.

Definition isolation_result : TestResult :=
  {| test := "Tenant Isolation"; passed := true;
     details := "Placeholder - isolation tests to be implemented" |}.

End Suite.

(** ** Child processes

    [execSync(command, { cwd })] returns what the command printed, or
    throws when the command exits with another code than 0, is killed
    or cannot be started; the error carries a message and what the
    command printed. *)

Record ExecError : Type := {
  exec_message : string;
  exec_stdout : string;
  exec_stderr : string
}.

Inductive ExecOutcome : Type :=
| Succeeded (output : string)
| Failed (error : ExecError).

Definition succeeded (r : ExecOutcome) : bool :=
  match r with
  | Succeeded _ => true
  | Failed _ => false
  end.

(** [s.toUpperCase()], for the ASCII letters environment names are
    made of; other bytes are kept. *)
Definition upper_ascii (a : ascii) : ascii :=
  let n := nat_of_ascii a in
  if ((97 <=? n) && (n <=? 122))%nat then ascii_of_nat (n - 32) else a.

Fixpoint toUpperCase (s : string) : string :=
  match s with
  | EmptyString => EmptyString
  | String a s' => String (upper_ascii a) (toUpperCase s')
  end.

(** The command both callers run for the tenant health, and the one
    for the infrastructure. *)
Definition tenant_health_command : string := "node scripts/tenant-health-production.js".
Definition infrastructure_command : string := "node scripts/production-health-check.js".

(** ** [scripts/deployment-validation.js] (class [DeploymentValidator])

    Console lines without the colour escapes and the leading blank
    line; the banners (box drawing, the date) are left out. *)

Module Validator.

(** [config] *)
Definition retryAttempts : Z := 3.
Definition retryDelay : Z := 10000.

(** What is outside the process: [config.environment], and what the
    n-th [execSync] of the run does, for a command and a working
    directory given relative to the directory of the script. *)
Record Environment : Type := {
  environment : string;
  exec : nat → string → string → ExecOutcome
}.

(** [this.results] *)
Record Results : Type := {
  infrastructure : bool;
  tenantHealth : bool;
  productionReadiness : bool
}.

Record State : Type := {
  results : Results;
  console : list string;
  executed : list (string * string);   (* the commands run so far, with their directory *)
  slept : list Z                       (* the delays waited so far *)
}.

(** [new DeploymentValidator()] *)
Definition constructor : State :=
  {| results := {| infrastructure := false; tenantHealth := false;
                   productionReadiness := false |};
     console := []; executed := []; slept := [] |}.

Definition M : Type → Type := @Process.M State.

Definition log (message : string) : M unit :=
  Process.modify (λ s, {| results := results s; console := console s ++ [message];
                          executed := executed s; slept := slept s |}).

Definition sleep (ms : Z) : M unit :=
  Process.modify (λ s, {| results := results s; console := console s;
                          executed := executed s; slept := slept s ++ [ms] |}).

Definition set_results (f : Results → Results) : M unit :=
  Process.modify (λ s, {| results := f (results s); console := console s;
                          executed := executed s; slept := slept s |}).

(** [execSync(command, { cwd: workingDir, ... })], without its throw:
    the outcome is matched where the source has [try] and [catch]. *)
Definition execSync (env : Environment) (command workingDir : string) : M ExecOutcome :=
  n <<- Process.gets (λ s, length (executed s));;
  Process.modify (λ s, {| results := results s; console := console s;
                          executed := executed s ++ [(command, workingDir)];
                          slept := slept s |});;;
  Process.ret (exec env n command workingDir).

(** What [runTest] returns: [{ success: true, output }] or
    [{ success: false, error }]. *)
Record TestRun : Type := {
  success : bool;
  text : string
}.

(** The [for] loop of [runTest] over the attempts still to make; past
    the last one the function would return [undefined], here [None]. *)
Fixpoint attempts (env : Environment) (name command workingDir : string)
    (remaining : list Z) : M (option TestRun) :=
  match remaining with
  | [] => Process.ret None
  | attempt :: rest =>
      r <<- execSync env command workingDir;;
      match r with
      | Succeeded result =>
          log ("✓ " +:+ name +:+ " - PASSED");;;
          Process.ret (Some {| success := true; text := result |})
      | Failed error =>
          if attempt =? retryAttempts then
            log ("✗ " +:+ name +:+ " - FAILED after " +:+ pretty attempt +:+ " attempts");;;
            log ("Error: " +:+ exec_message error);;;
            (if String.eqb (exec_stdout error) EmptyString then Process.ret tt
             else log ("Stdout: " +:+ exec_stdout error));;;
            (if String.eqb (exec_stderr error) EmptyString then Process.ret tt
             else log ("Stderr: " +:+ exec_stderr error));;;
            Process.ret (Some {| success := false; text := exec_message error |})
          else
            log ("⚠ " +:+ name +:+ " - Attempt " +:+ pretty attempt
                 +:+ " failed, retrying in " +:+ pretty (retryDelay / 1000) +:+ "s...");;;
            sleep retryDelay;;;
            attempts env name command workingDir rest
      end
  end.

Definition runTest (env : Environment) (name command workingDir : string)
  : M (option TestRun) :=
  log ("═══ " +:+ name +:+ " ═══");;;
  attempts env name command workingDir [1; 2; 3].

(** [result.success] *)
Definition success_of (result : option TestRun) : M bool :=
  match result with
  | Some r => Process.ret (success r)
  | None => Process.throw "Cannot read properties of undefined (reading 'success')"
  end.

Definition validateInfrastructure (env : Environment) : M bool :=
  infraResult <<- runTest env "Infrastructure Health Check" infrastructure_command "..";;
  detailedResult <<- runTest env "Detailed Infrastructure Tests"
                      "node tests/infrastructure-test-fixed.js" "..";;
  a <<- success_of infraResult;;
  b <<- (if a then success_of detailedResult else Process.ret false);;
  set_results (λ r, {| infrastructure := b; tenantHealth := tenantHealth r;
                       productionReadiness := productionReadiness r |});;;
  Process.ret b.

Definition validateTenantHealth (env : Environment) : M bool :=
  tenantResult <<- runTest env "Production Tenant Health Check" tenant_health_command "..";;
  a <<- success_of tenantResult;;
  set_results (λ r, {| infrastructure := infrastructure r; tenantHealth := a;
                       productionReadiness := productionReadiness r |});;;
  Process.ret a.

Record Service : Type := {
  service_name : string;
  service_path : string;
  service_command : string
}.

Definition services : list Service :=
  [ {| service_name := "Auth Service Tests"; service_path := "../ns-auth/backend";
       service_command := "npm test" |};
    {| service_name := "User Service Tests"; service_path := "../ns-user/backend";
       service_command := "npm test" |};
    {| service_name := "Platform Tests"; service_path := "../ns-platform-tests";
       service_command := "npm run test:integration" |} ].

Definition validateApplicationTests (env : Environment) : M bool :=
  Process.forEach_with services
    (λ service allPassed,
       result <<- runTest env (service_name service) (service_command service)
                    (service_path service);;
       a <<- success_of result;;
       Process.ret (if a then allPassed else false))
    true.

Definition generateDeploymentReport (env : Environment) : M bool :=
  r <<- Process.gets results;;
  log ("Infrastructure Health: " +:+ (if infrastructure r then "✅ READY" else "❌ ISSUES"));;;
  log ("Tenant Health: " +:+ (if tenantHealth r then "✅ HEALTHY" else "❌ ISSUES"));;;
  log ("Application Tests: "
       +:+ (if productionReadiness r then "✅ PASSED" else "❌ FAILED"));;;
  let overallReady := infrastructure r && tenantHealth r in
  if overallReady then
    log ("🚀 DEPLOYMENT APPROVED FOR " +:+ toUpperCase (environment env) +:+ "!");;;
    log "✅ Infrastructure is stable and healthy";;;
    log "✅ Tenant isolation and performance validated";;;
    log ("✅ Ready for " +:+ environment env +:+ " deployment");;;
    log "Next Steps:";;;
    log ("1. Push to " +:+ environment env +:+ " branch: git push origin "
         +:+ environment env);;;
    log "2. Monitor deployment: gh run watch";;;
    log ("3. Run post-deployment validation: npm run validate:" +:+ environment env);;;
    Process.ret true
  else
    log ("🛑 DEPLOYMENT BLOCKED FOR " +:+ toUpperCase (environment env));;;
    log "❌ Critical issues must be resolved before deployment";;;
    (if infrastructure r then Process.ret tt
     else log "   - Infrastructure health issues detected");;;
    (if tenantHealth r then Process.ret tt
     else log "   - Tenant health or isolation issues detected");;;
    Process.ret false.

Definition runFullValidation (env : Environment) : M unit :=
  Process.try_catch
    (validateInfrastructure env;;;
     validateTenantHealth env;;;
     Process.try_catch
       (passed <<- validateApplicationTests env;;
        set_results (λ r, {| infrastructure := infrastructure r;
                             tenantHealth := tenantHealth r;
                             productionReadiness := passed |}))
       (λ _,
          log "⚠ Application tests had issues but won't block deployment";;;
          set_results (λ r, {| infrastructure := infrastructure r;
                               tenantHealth := tenantHealth r;
                               productionReadiness := false |}));;;
     deploymentApproved <<- generateDeploymentReport env;;
     Process.exit (if deploymentApproved then 0 else 1))
    (λ e,
       log "💥 VALIDATION FAILED";;;
       log ("Error: " +:+ e);;;
       Process.exit 1).

(** The script under [require.main === module]; a rejection nobody
    handles ends the process with 1. *)
Definition main (env : Environment) : outcome unit * State :=
  Process.try_catch (runFullValidation env)
    (λ e, log ("Unhandled error: " +:+ e);;; Process.exit 1)
    constructor.

(** *** What the properties say *)

(** The three attempts of the test that starts as execution [n]: the
    number of the first that succeeds. *)
Definition first_success (env : Environment) (n : nat) (command workingDir : string)
  : option nat :=
  if succeeded (exec env n command workingDir) then Some 0%nat
  else if succeeded (exec env (n + 1) command workingDir) then Some 1%nat
  else if succeeded (exec env (n + 2) command workingDir) then Some 2%nat
  else None.

(** The executions a test makes. *)
Definition executions (env : Environment) (n : nat) (command workingDir : string) : nat :=
  match first_success env n command workingDir with
  | Some k => S k
  | None => 3
  end.

(** A test passes: one of its attempts succeeds. *)
Definition passes (env : Environment) (n : nat) (command workingDir : string) : bool :=
  bool_decide (is_Some (first_success env n command workingDir)).

Definition detailed_command : string := "node tests/infrastructure-test-fixed.js".

(** The two infrastructure tests from execution [n] on, and the
    executions they make. *)
Definition infrastructure_executions (env : Environment) (n : nat) : nat :=
  executions env n infrastructure_command ".."
  + executions env (n + executions env n infrastructure_command "..")
      detailed_command "..".

Definition infrastructure_ok (env : Environment) (n : nat) : bool :=
  passes env n infrastructure_command ".."
  && passes env (n + executions env n infrastructure_command "..") detailed_command "..".

(** The verdict of a run of the script. *)
Definition approved (env : Environment) : bool :=
  infrastructure_ok env 0
  && passes env (infrastructure_executions env 0) tenant_health_command "..".

(** The object after a test that ran its command [times] times. *)
Definition ran (s s' : State) (command workingDir : string) (times : nat) : Prop :=
  executed s' = (executed s ++ replicate times (command, workingDir))%list
  ∧ slept s' = (slept s ++ replicate (times - 1) retryDelay)%list
  ∧ results s' = results s.

(** An environment for examples: every command has the outcome the
    flag says. *)
Definition sample (ok : bool) : Environment :=
  {| environment := "dev";
     exec := λ _ command _,
       if ok then Succeeded "ok"
       else Failed {| exec_message := "Command failed: " +:+ command;
                      exec_stdout := EmptyString; exec_stderr := EmptyString |} |}.

End Validator.

(** ** The deployment dashboard ([runFullValidation] and
    [sendEmailNotification] of the dashboard server)

    The state is the module variable [deploymentResults], which the
    server keeps from one validation to the next. *)

Module Dashboard.

Record Health : Type := {
  status : string;
  score : Z;
  details : list string
}.

Record Tests : Type := {
  tests_status : string;
  passed : Z;
  failed : Z;
  tests_details : list string
}.

Record Overall : Type := {
  overall_status : string;
  ready : bool
}.

Record DeploymentResults : Type := {
  lastUpdate : option string;      (* [null] at first *)
  infrastructure : Health;
  tenantHealth : Health;
  tests : Tests;
  overall : Overall
}.

(** The mail handed to the transporter; [html] keeps the values the
    template interpolates. *)
Record Mail : Type := {
  mail_from : string;
  mail_to : string;
  subject : string;
  html_healthy : bool;
  html_lastUpdate : option string;
  html_infrastructure_score : Z;
  html_tenantHealth_score : Z;
  html_tests_passed : Z;
  html_tests_total : Z
}.

(** What is outside the process: what the n-th [execSync] does, the
    n-th reading of the clock as a number and as [toISOString()] text,
    the SMTP credentials of the environment, and the error with which
    the n-th [sendMail] rejects, if it does. *)
Record Environment : Type := {
  exec : nat → string → ExecOutcome;
  clock : nat → Z;
  iso : nat → string;
  smtp_user : option string;       (* [process.env.SMTP_USER] *)
  smtp_pass : option string;       (* [process.env.SMTP_PASSWORD] *)
  sendMail : nat → option string;
  email_from : string;             (* [config.email.from] *)
  email_to : string                (* [config.email.to] *)
}.

(** The variables of the module: [deploymentResults] and
    [emailTransporter] ([false] is [null]), with the console, the
    commands executed, the readings of the clock and the mails handed
    to [sendMail] so far. *)
Record State : Type := {
  deploymentResults : DeploymentResults;
  emailTransporter : bool;
  console : list string;
  executed : list string;
  readings : nat;
  mails : list Mail                (* every mail handed to [sendMail] *)
}.

(** The variables as they are declared. *)
Definition initial : State :=
  {| deploymentResults :=
       {| lastUpdate := None;
          infrastructure := {| status := "unknown"; score := 0; details := [] |};
          tenantHealth := {| status := "unknown"; score := 0; details := [] |};
          tests := {| tests_status := "unknown"; passed := 0; failed := 0;
                      tests_details := [] |};
          overall := {| overall_status := "unknown"; ready := false |} |};
     emailTransporter := false;
     console := []; executed := []; readings := 0; mails := [] |}.

Definition M : Type → Type := @Process.M State.

(** A text of the environment in a condition: unset and empty are
    false. *)
Definition given (x : option string) : bool :=
  match x with
  | Some text => negb (String.eqb text EmptyString)
  | None => false
  end.

(** [nodemailer.createTransporter(config.email.smtp)]. The package
    exports [createTransport]; it has no [createTransporter], so the
    call throws a [TypeError]. *)
Definition createTransporter : M bool :=
  Process.throw "nodemailer.createTransporter is not a function".

(** The statements of the module that make the transporter; what they
    throw ends the process before the server listens. *)
Definition load (env : Environment) : M unit :=
  if given (smtp_user env) && given (smtp_pass env) then
    transporter <<- createTransporter;;
    Process.modify (λ s, {| deploymentResults := deploymentResults s;
                            emailTransporter := transporter;
                            console := console s; executed := executed s;
                            readings := readings s; mails := mails s |})
  else Process.ret tt.

Definition log (line : string) : M unit :=
  Process.modify (λ s, {| deploymentResults := deploymentResults s;
                          emailTransporter := emailTransporter s;
                          console := console s ++ [line]; executed := executed s;
                          readings := readings s; mails := mails s |}).

Definition update (f : DeploymentResults → DeploymentResults) : M unit :=
  Process.modify (λ s, {| deploymentResults := f (deploymentResults s);
                          emailTransporter := emailTransporter s;
                          console := console s; executed := executed s;
                          readings := readings s; mails := mails s |}).

(** A reading of the clock: its index. *)
Definition read_clock : M nat :=
  n <<- Process.gets readings;;
  Process.modify (λ s, {| deploymentResults := deploymentResults s;
                          emailTransporter := emailTransporter s;
                          console := console s; executed := executed s;
                          readings := S (readings s); mails := mails s |});;;
  Process.ret n.

(** [execSync(command, ...)]: throws the message of the error. *)
Definition execSync (env : Environment) (command : string) : M string :=
  n <<- Process.gets (λ s, length (executed s));;
  Process.modify (λ s, {| deploymentResults := deploymentResults s;
                          emailTransporter := emailTransporter s;
                          console := console s; executed := executed s ++ [command];
                          readings := readings s; mails := mails s |});;;
  match exec env n command with
  | Succeeded output => Process.ret output
  | Failed error => Process.throw (exec_message error)
  end.

(** The object literals [runFullValidation] assigns. *)
Definition healthy_infrastructure : Health :=
  {| status := "healthy"; score := 100;
     details := [ "All critical services responding"; "CDN operational";
                  "DNS resolved"; "API Gateway healthy" ] |}.

Definition healthy_tenants : Health :=
  {| status := "healthy"; score := 100;
     details := [ "Perfect tenant isolation"; "No data leakage detected";
                  "Capacity within limits"; "Database integrity verified" ] |}.

Definition healthy_tests : Tests :=
  {| tests_status := "healthy"; passed := 260; failed := 0;
     tests_details := [ "All multitenant tests passed"; "Frontend components validated";
                        "Backend APIs tested" ] |}.

Definition set_status (h : Health) (st : string) : Health :=
  {| status := st; score := score h; details := details h |}.

Definition sendEmailNotification (env : Environment) : M unit :=
  transporter <<- Process.gets emailTransporter;;
  if transporter then
    r <<- Process.gets deploymentResults;;
    let isHealthy := ready (overall r) in
    let subject :=
      if isHealthy then "✅ NiroSubs Deployment HEALTHY - Production Ready"
      else "🚨 NiroSubs Deployment ISSUES - Action Required" in
    n <<- Process.gets (λ s, length (mails s));;
    Process.modify
      (λ s, {| deploymentResults := deploymentResults s;
               emailTransporter := emailTransporter s; console := console s;
               executed := executed s; readings := readings s;
               mails := mails s
                        ++ [ {| mail_from := email_from env;
                                mail_to := email_to env;
                                subject := subject;
                                html_healthy := isHealthy;
                                html_lastUpdate := lastUpdate r;
                                html_infrastructure_score := score (infrastructure r);
                                html_tenantHealth_score := score (tenantHealth r);
                                html_tests_passed := passed (tests r);
                                html_tests_total :=
                                  passed (tests r) + failed (tests r) |} ] |});;;
    match sendMail env n with
    | None => log ("📧 Email notification sent to " +:+ email_to env)
    | Some e => log ("📧 Failed to send email: " +:+ e)
    end
  else
    log "📧 Email not configured, skipping notification".

Definition runFullValidation (env : Environment) : M unit :=
  log "🔍 Running full deployment validation...";;;
  startTime <<- read_clock;;
  Process.try_catch
    (log "Checking infrastructure health...";;;
     execSync env infrastructure_command;;;
     update (λ r, {| lastUpdate := lastUpdate r;
                     infrastructure := healthy_infrastructure;
                     tenantHealth := tenantHealth r; tests := tests r;
                     overall := overall r |});;;
     log "Checking tenant health...";;;
     execSync env tenant_health_command;;;
     update (λ r, {| lastUpdate := lastUpdate r;
                     infrastructure := infrastructure r;
                     tenantHealth := healthy_tenants;
                     tests := tests r; overall := overall r |});;;
     log "Running test validation...";;;
     update (λ r, {| lastUpdate := lastUpdate r;
                     infrastructure := infrastructure r;
                     tenantHealth := tenantHealth r;
                     tests := healthy_tests;
                     overall := {| overall_status := "ready"; ready := true |} |}))
    (λ e,
       log ("Validation failed: " +:+ e);;;
       update (λ r, {| lastUpdate := lastUpdate r;
                       infrastructure := set_status (infrastructure r) "critical";
                       tenantHealth := set_status (tenantHealth r) "critical";
                       tests := {| tests_status := "critical";
                                   passed := passed (tests r);
                                   failed := failed (tests r);
                                   tests_details := tests_details (tests r) |};
                       overall := {| overall_status := overall_status (overall r);
                                     ready := false |} |}));;;
  now <<- read_clock;;
  update (λ r, {| lastUpdate := Some (iso env now);
                  infrastructure := infrastructure r; tenantHealth := tenantHealth r;
                  tests := tests r; overall := overall r |});;;
  sendEmailNotification env;;;
  stop <<- read_clock;;
  log ("✅ Validation completed in " +:+ pretty (clock env stop - clock env startTime)
       +:+ "ms").

(** The answer of [POST /api/trigger-validation]. *)
Inductive Reply : Type :=
| Ok (message : string)            (* [{ success: true, message }] *)
| ServerError (error : string).    (* status 500, [{ success: false, error }] *)

Definition trigger_validation (env : Environment) : M Reply :=
  Process.try_catch
    (runFullValidation env;;; Process.ret (Ok "Validation triggered successfully"))
    (λ e, Process.ret (ServerError e)).

(** [GET /api/status] *)
Definition api_status : M DeploymentResults := Process.gets deploymentResults.

(** *** What the properties say *)

(** The two commands of the validation that starts as execution [n]
    both succeed. *)
Definition both_succeed (env : Environment) (n : nat) : bool :=
  succeeded (exec env n infrastructure_command)
  && succeeded (exec env (S n) tenant_health_command).

(** The mail of a validation: its subject follows [overall.ready]. *)
Definition mail_of (env : Environment) (r : DeploymentResults) : Mail :=
  {| mail_from := email_from env;
     mail_to := email_to env;
     subject := if ready (overall r)
                then "✅ NiroSubs Deployment HEALTHY - Production Ready"
                else "🚨 NiroSubs Deployment ISSUES - Action Required";
     html_healthy := ready (overall r);
     html_lastUpdate := lastUpdate r;
     html_infrastructure_score := score (infrastructure r);
     html_tenantHealth_score := score (tenantHealth r);
     html_tests_passed := passed (tests r);
     html_tests_total := passed (tests r) + failed (tests r) |}.

(** What the [try] block and its [catch] leave in [deploymentResults]. *)
Definition outcome_of (env : Environment) (n : nat) (r : DeploymentResults)
  : DeploymentResults :=
  match exec env n infrastructure_command with
  | Failed _ =>
      {| lastUpdate := lastUpdate r;
         infrastructure := set_status (infrastructure r) "critical";
         tenantHealth := set_status (tenantHealth r) "critical";
         tests := {| tests_status := "critical"; passed := passed (tests r);
                     failed := failed (tests r);
                     tests_details := tests_details (tests r) |};
         overall := {| overall_status := overall_status (overall r); ready := false |} |}
  | Succeeded _ =>
      match exec env (S n) tenant_health_command with
      | Failed _ =>
          {| lastUpdate := lastUpdate r;
             infrastructure := set_status healthy_infrastructure "critical";
             tenantHealth := set_status (tenantHealth r) "critical";
             tests := {| tests_status := "critical"; passed := passed (tests r);
                         failed := failed (tests r);
                         tests_details := tests_details (tests r) |};
             overall := {| overall_status := overall_status (overall r);
                           ready := false |} |}
      | Succeeded _ =>
          {| lastUpdate := lastUpdate r;
             infrastructure := healthy_infrastructure;
             tenantHealth := healthy_tenants;
             tests := healthy_tests;
             overall := {| overall_status := "ready"; ready := true |} |}
      end
  end.

(** [deploymentResults.lastUpdate = new Date().toISOString()] *)
Definition dated (r : DeploymentResults) (text : string) : DeploymentResults :=
  {| lastUpdate := Some text; infrastructure := infrastructure r;
     tenantHealth := tenantHealth r; tests := tests r; overall := overall r |}.

(** The commands of the validation that starts as execution [n]: the
    second is reached only when the first succeeds. *)
Definition commands_run (env : Environment) (n : nat) : list string :=
  if succeeded (exec env n infrastructure_command)
  then [infrastructure_command; tenant_health_command]
  else [infrastructure_command].

(** [n] validations, one after the other: the one [app.listen] starts
    and those of the timer and of the POST route. *)
Fixpoint validations (env : Environment) (n : nat) : M unit :=
  match n with
  | O => Process.ret tt
  | S n' => runFullValidation env;;; validations env n'
  end.

(** An environment for examples: the commands succeed or fail as the
    flags of their execution say, and no SMTP credentials are set. *)
Definition sample (infra_ok tenants_ok : nat → bool) : Environment :=
  {| exec := λ n command,
       if (if String.eqb command infrastructure_command
           then infra_ok n else tenants_ok n)
       then Succeeded "ok"
       else Failed {| exec_message := "Command failed: " +:+ command;
                      exec_stdout := EmptyString; exec_stderr := EmptyString |};
     clock := λ n, 1000 * Z.of_nat n;
     iso := λ n, "2025-01-01T00:00:0" +:+ pretty (Z.of_nat n) +:+ ".000Z";
     smtp_user := None;
     smtp_pass := None;
     sendMail := λ _, None;
     email_from := "noreply@visualforge.ai";
     email_to := "ops@visualforge.ai" |}.

(** [sample] with SMTP credentials. *)
Definition with_credentials (infra_ok tenants_ok : nat → bool) : Environment :=
  {| exec := exec (sample infra_ok tenants_ok);
     clock := clock (sample infra_ok tenants_ok);
     iso := iso (sample infra_ok tenants_ok);
     smtp_user := Some "ops@visualforge.ai";
     smtp_pass := Some "secret";
     sendMail := λ _, None;
     email_from := "noreply@visualforge.ai";
     email_to := "ops@visualforge.ai" |}.

(** The state after a first validation in which both commands
    succeeded, with the clock of [sample]. *)
Definition validated : State :=
  {| deploymentResults :=
       {| lastUpdate := Some "2025-01-01T00:00:01.000Z";
          infrastructure := healthy_infrastructure;
          tenantHealth := healthy_tenants;
          tests := healthy_tests;
          overall := {| overall_status := "ready"; ready := true |} |};
     emailTransporter := false;
     console := [];
     executed := [infrastructure_command; tenant_health_command];
     readings := 3;
     mails := [] |}.

End Dashboard.

(** * Properties *)

(** ** The classifiers *)

Ltac zcases :=
  repeat match goal with
         | |- context [?a <=? ?b] => destruct (Z.leb_spec a b)
         | |- context [?a <? ?b] => destruct (Z.ltb_spec a b)
         end.

Lemma numeric_gt_spec (n m : Z) (k : positive) :
  Sql.numeric_gt n (inject_Z m * (Z.pos k # 10)) = true ↔ Z.pos k * m < 10 * n.
Proof.
  unfold Sql.numeric_gt. rewrite negb_true_iff.
  rewrite <- not_true_iff_false, Qle_bool_iff.
  unfold Qle. simpl. lia.
Qed.

Lemma numeric_gt_Qlt (n : Z) (q : Q) :
  Sql.numeric_gt n q = true ↔ (q < inject_Z n)%Q.
Proof.
  unfold Sql.numeric_gt. rewrite negb_true_iff.
  rewrite <- not_true_iff_false, Qle_bool_iff.
  split; [apply Qnot_le_lt | apply Qlt_not_le].
Qed.

Lemma user_status_case_cases (count limit : Z) :
  limit ≠ -1 →
  Monitor.user_status_case count limit =
    if limit <=? count then EXCEEDED
    else if 8 * limit <? 10 * count then HIGH else OK.
Proof.
  intros Hl. unfold Monitor.user_status_case.
  destruct (Z.eqb_spec limit (-1)); [done|].
  rewrite Z.geb_leb. destruct (limit <=? count); [done|].
  destruct (Sql.numeric_gt _ _) eqn:E.
  - apply numeric_gt_spec in E. destruct (Z.ltb_spec (8 * limit) (10 * count)); [done|lia].
  - destruct (Z.ltb_spec (8 * limit) (10 * count)) as [Hlt|Hge]; [|done].
    apply (numeric_gt_spec count limit 8) in Hlt. congruence.
Qed.

Lemma api_status_case_eq (count limit : Z) :
  Monitor.api_status_case count limit = Monitor.user_status_case count limit.
Proof. reflexivity. Qed.

Lemma capacity_case_cases (count : Z) (txt : option string) (limit : Z) :
  txt ≠ Some "-1" →
  Production.capacity_case count txt limit =
    if limit <? count then EXCEEDED
    else if 9 * limit <? 10 * count then HIGH else OK.
Proof.
  intros Hl. unfold Production.capacity_case.
  case_bool_decide; [done|].
  rewrite Z.gtb_ltb. destruct (limit <? count); [done|].
  destruct (Sql.numeric_gt _ _) eqn:E.
  - apply numeric_gt_spec in E. destruct (Z.ltb_spec (9 * limit) (10 * count)); [done|lia].
  - destruct (Z.ltb_spec (9 * limit) (10 * count)) as [Hlt|Hge]; [|done].
    apply (numeric_gt_spec count limit 9) in Hlt. congruence.
Qed.

Lemma Qlt_tenths (n m : Z) (k : positive) :
  (inject_Z m * (Z.pos k # 10) < inject_Z n)%Q ↔ Z.pos k * m < 10 * n.
Proof. unfold Qlt. simpl. lia. Qed.

Lemma Qle_tenths (n m : Z) (k : positive) :
  (inject_Z n <= inject_Z m * (Z.pos k # 10))%Q ↔ 10 * n <= Z.pos k * m.
Proof. unfold Qle. simpl. lia. Qed.

Lemma positive_limit_text (txt : option string) (limit : Z) :
  Sql.int4in (Sql.coalesce txt "999999") = Value limit → 0 < limit → txt ≠ Some "-1".
Proof.
  intros H Hpos ->. simpl in H. vm_compute in H. injection H as <-. lia.
Qed.

(** C1, as the code has it. For a limit above 0 the monitor classifies
    users and API calls alike: EXCEEDED from the limit on, HIGH strictly
    between 0.8 of the limit and the limit, OK up to 0.8 of the limit.
    The production check classifies users as EXCEEDED strictly above
    the limit, HIGH strictly above 0.9 of the limit and up to the
    limit, OK up to 0.9 of the limit. Each classifier is monotone in
    the count. *)
Theorem capacity_classifier_policy (count limit : Z) (Hlimit : 0 < limit) :
  (count >= limit → Monitor.user_status_case count limit = EXCEEDED) ∧
  ((inject_Z limit * (8 # 10) < inject_Z count)%Q → count < limit →
     Monitor.user_status_case count limit = HIGH) ∧
  ((inject_Z count <= inject_Z limit * (8 # 10))%Q →
     Monitor.user_status_case count limit = OK) ∧
  (count >= limit → Monitor.api_status_case count limit = EXCEEDED) ∧
  ((inject_Z limit * (8 # 10) < inject_Z count)%Q → count < limit →
     Monitor.api_status_case count limit = HIGH) ∧
  ((inject_Z count <= inject_Z limit * (8 # 10))%Q →
     Monitor.api_status_case count limit = OK) ∧
  (∀ count', count <= count' →
     severity (Monitor.user_status_case count limit)
       <= severity (Monitor.user_status_case count' limit)) ∧
  (∀ count', count <= count' →
     severity (Monitor.api_status_case count limit)
       <= severity (Monitor.api_status_case count' limit)) ∧
  (∀ limits_users,
     Sql.int4in (Sql.coalesce limits_users "999999") = Value limit →
     (count > limit → Production.capacity_case count limits_users limit = EXCEEDED) ∧
     ((inject_Z limit * (9 # 10) < inject_Z count)%Q → count <= limit →
        Production.capacity_case count limits_users limit = HIGH) ∧
     ((inject_Z count <= inject_Z limit * (9 # 10))%Q →
        Production.capacity_case count limits_users limit = OK) ∧
     (∀ count', count <= count' →
        severity (Production.capacity_case count limits_users limit)
          <= severity (Production.capacity_case count' limits_users limit))).
Proof.
  assert (Hne : limit ≠ -1) by lia.
  assert (Hmon : ∀ c c', c <= c' →
            severity (Monitor.user_status_case c limit)
              <= severity (Monitor.user_status_case c' limit)).
  { intros c c' Hc. rewrite !user_status_case_cases by done.
    zcases; simpl; lia. }
  assert (He : count >= limit → Monitor.user_status_case count limit = EXCEEDED).
  { intros H. rewrite user_status_case_cases by done. zcases; (done || lia). }
  assert (Hh : (inject_Z limit * (8 # 10) < inject_Z count)%Q → count < limit →
               Monitor.user_status_case count limit = HIGH).
  { intros H%Qlt_tenths H'. rewrite user_status_case_cases by done.
    zcases; (done || lia). }
  assert (Ho : (inject_Z count <= inject_Z limit * (8 # 10))%Q →
               Monitor.user_status_case count limit = OK).
  { intros H%Qle_tenths. rewrite user_status_case_cases by done.
    zcases; (done || lia). }
  repeat split; try first [exact He | exact Hh | exact Ho | exact (Hmon count)].
  - intros Hgt. rewrite capacity_case_cases by eauto using positive_limit_text.
    zcases; (done || lia).
  - intros H1%Qlt_tenths H2. rewrite capacity_case_cases by eauto using positive_limit_text.
    zcases; (done || lia).
  - intros H1%Qle_tenths. rewrite capacity_case_cases by eauto using positive_limit_text.
    zcases; (done || lia).
  - intros c' Hc. rewrite !capacity_case_cases by eauto using positive_limit_text.
    zcases; simpl; lia.
Qed.

(** ** Stepping through a method body *)

Module JsFacts.
Section Steps.
Context {S : Type}.
Implicit Types s : S.

Lemma bind_value {A B} (m : @Js.M S A) (k : A → Js.M B) s a s' :
  m s = (Value a, s') → Js.bind m k s = k a s'.
Proof. unfold Js.bind. by intros ->. Qed.

Lemma bind_error {A B} (m : @Js.M S A) (k : A → Js.M B) s e s' :
  m s = (Error e, s') → Js.bind m k s = (Error e, s').
Proof. unfold Js.bind. by intros ->. Qed.

Lemma try_catch_value {A} (m : @Js.M S A) (h : string → Js.M A) s a s' :
  m s = (Value a, s') → Js.try_catch m h s = (Value a, s').
Proof. unfold Js.try_catch. by intros ->. Qed.

Lemma try_catch_error {A} (m : @Js.M S A) (h : string → Js.M A) s e s' :
  m s = (Error e, s') → Js.try_catch m h s = h e s'.
Proof. unfold Js.try_catch. by intros ->. Qed.

Lemma gets_value {A B} (f : S → A) (k : A → @Js.M S B) s :
  Js.bind (Js.gets f) k s = k (f s) s.
Proof. done. Qed.
End Steps.

Lemma flat_map_singleton {A B} (f : A → B) (l : list A) :
  flat_map (λ x, [f x]) l = map f l.
Proof. induction l; simpl; congruence. Qed.

Lemma flat_map_filter {A B} (p : A → bool) (f : A → B) (l : list A) :
  flat_map (λ x, if p x then [f x] else []) l = map f (List.filter p l).
Proof. induction l as [|x l IH]; simpl; [done|]. destruct (p x); simpl; congruence. Qed.

Lemma flat_map_nil {A B} (l : list A) : flat_map (λ _ : A, @nil B) l = [].
Proof. induction l; simpl; congruence. Qed.
End JsFacts.

(** ** One run of the production check *)

Module ProductionFacts.
Import Production JsFacts.

Lemma production_after_after s i1 l1 c1 i2 l2 c2 :
  after (after s i1 l1 c1) i2 l2 c2 = after s (i1 ++ i2) (l1 ++ l2) (c1 ++ c2).
Proof. unfold after; simpl. by rewrite !app_assoc. Qed.

Lemma production_forEach_after {A} (l : list A) (body : A → M unit) (iss lin : A → list string) :
  (∀ x s, body x s = (Value tt, after s (iss x) (lin x) [])) →
  ∀ s, Js.forEach l body s = (Value tt, after s (flat_map iss l) (flat_map lin l) []).
Proof.
  intros Hbody. induction l as [|x l IH]; intros s; simpl.
  - unfold Js.ret, after. destruct s; simpl. by rewrite !app_nil_r.
  - unfold Js.bind. rewrite Hbody, IH, production_after_after. done.
Qed.

Lemma production_log_after line s : log line s = (Value tt, after s [] [line] []).
Proof. unfold log, Js.modify, after. by rewrite !app_nil_r. Qed.

Lemma production_push_issue_after issue s : push_issue issue s = (Value tt, after s [issue] [] []).
Proof. unfold push_issue, Js.modify, after. by rewrite !app_nil_r. Qed.

Lemma production_call_after c s : call c s = (Value tt, after s [] [] [c]).
Proof. unfold call, Js.modify, after. by rewrite !app_nil_r. Qed.

Lemma production_after_nil s : after s [] [] [] = s.
Proof. destruct s; unfold after; simpl. by rewrite !app_nil_r. Qed.

Lemma production_db_query_ok {A} w q (rows : result A) r s :
  db s = true → statement_error w q = None → rows = Value r →
  db_query w q rows s = (Value r, after s [] [] [DbQuery q]).
Proof.
  intros Hdb Hq ->. unfold db_query, Js.bind, Js.gets. rewrite Hdb, production_call_after, Hq. done.
Qed.

Lemma production_db_query_rejected {A} w q (rows : result A) e s :
  db s = true → statement_error w q = Some e →
  db_query w q rows s = (Error e, after s [] [] [DbQuery q]).
Proof.
  intros Hdb Hq. unfold db_query, Js.bind, Js.gets. rewrite Hdb, production_call_after, Hq. done.
Qed.

Lemma production_db_query_failed {A} w q (rows : result A) e s :
  db s = true → statement_error w q = None → rows = Error e →
  db_query w q rows s = (Error e, after s [] [] [DbQuery q]).
Proof.
  intros Hdb Hq ->. unfold db_query, Js.bind, Js.gets. rewrite Hdb, production_call_after, Hq. done.
Qed.

Lemma production_db_after s i l c : db (after s i l c) = db s.
Proof. done. Qed.

Lemma production_try_catch_error {A} (m : M A) (h : string → M A) s e s' :
  m s = (Error e, s') → Js.try_catch m h s = h e s'.
Proof. unfold Js.try_catch. by intros ->. Qed.

Lemma production_ret_after {A} (a : A) s : Js.ret a s = (Value a, after s [] [] []).
Proof. by rewrite production_after_nil. Qed.

(** One statement of a method body, and a sequence of them. *)
Ltac prim :=
  lazymatch goal with
  | |- log _ _ = _ => apply production_log_after
  | |- push_issue _ _ = _ => apply production_push_issue_after
  | |- call _ _ = _ => apply production_call_after
  | |- Js.ret _ _ = _ => apply production_ret_after
  | |- db_query _ _ _ _ = _ =>
      first [ apply production_db_query_ok;
              [simpl; assumption | assumption | reflexivity || eassumption]
            | apply production_db_query_rejected; [simpl; assumption | eassumption]
            | apply production_db_query_failed;
              [simpl; assumption | assumption | reflexivity || eassumption] ]
  | |- Js.bind _ _ _ = _ => step; prim
  end
with step :=
  lazymatch goal with
  | |- Js.bind ?m ?k ?s = _ =>
      first [ erewrite (bind_value m k s) by prim
            | erewrite (bind_error m k s) by prim ];
      cbv beta
  end.

Lemma production_checkTenantIsolation_after w :
  ∃ b lines, ∀ s, db s = true →
    checkTenantIsolation w s
    = (Value b, after s (isolation_issues w) lines [DbQuery IsolationCheck]).
Proof.
  unfold checkTenantIsolation, isolation_issues.
  destruct (statement_error w IsolationCheck) as [e|] eqn:Hq.
  - eexists _, _. intros s Hdb. step.
    erewrite production_try_catch_error; cycle 1.
    { step. reflexivity. }
    repeat step. rewrite production_ret_after, !production_after_after. simpl. reflexivity.
  - destruct (isolation_query (database w)) as [|row rows] eqn:Hrows.
    + eexists _, _. intros s Hdb. step.
      erewrite try_catch_value; cycle 1.
      { step. cbn [length Nat.eqb]. step. apply production_ret_after. }
      rewrite !production_after_after. simpl. reflexivity.
    + eexists _, _. intros s Hdb. step.
      erewrite try_catch_value; cycle 1.
      { step. cbn [length Nat.eqb]. step.
        erewrite bind_value; cycle 1.
        { eapply production_forEach_after.
          intros x s'. step. rewrite production_push_issue_after, production_after_after. simpl. reflexivity. }
        apply production_ret_after. }
      rewrite !production_after_after, flat_map_singleton. simpl. rewrite ?app_nil_r. reflexivity.
Qed.
Lemma production_forEach_with_after {A C} (l : list A) (body : A → C → M C)
    (iss : A → list string) :
  (∀ x, ∃ lin upd, ∀ c s, body x c s = (Value (upd c), after s (iss x) lin [])) →
  ∃ lines f, ∀ c s,
    Js.forEach_with l body c s = (Value (f c), after s (flat_map iss l) lines []).
Proof.
  intros Hbody. induction l as [|x l (lines & f & IH)]; simpl.
  - exists [], (λ c, c). intros c s. by rewrite production_ret_after.
  - destruct (Hbody x) as (lin & upd & Hx).
    exists (lin ++ lines)%list, (λ c, f (upd c)). intros c s.
    erewrite bind_value by apply Hx. by rewrite IH, production_after_after.
Qed.

Lemma production_checkTenantLimits_after w :
  ∃ b lines, ∀ s, db s = true →
    checkTenantLimits w s
    = (Value b, after s (capacity_issues w) lines [DbQuery CapacityCheck]).
Proof.
  unfold checkTenantLimits, capacity_issues.
  destruct (statement_error w CapacityCheck) as [e|] eqn:Hq.
  - eexists _, _. intros s Hdb. step.
    erewrite production_try_catch_error; cycle 1.
    { step. reflexivity. }
    repeat step. rewrite production_ret_after, !production_after_after. simpl. reflexivity.
  - destruct (capacity_query (database w)) as [rows|e] eqn:Hrows.
    + match goal with
      | |- context [Js.forEach_with _ ?body _] =>
          destruct (production_forEach_with_after rows body
                      (λ tenant, if exceeded tenant
                                 then ["Tenant capacity exceeded: " +:+ name tenant]
                                 else []))
            as (lines & f & Hloop)
      end.
      { intros tenant. unfold exceeded.
        destruct (bool_decide (capacity_status tenant = EXCEEDED));
          [|destruct (bool_decide (capacity_status tenant = HIGH))];
          eexists _, (λ n, _); intros n s; repeat step;
          rewrite production_ret_after, ?production_after_after; simpl; reflexivity. }
      eexists _, _. intros s Hdb. step.
      erewrite try_catch_value; cycle 1.
      { step. erewrite bind_value by apply Hloop. step. apply production_ret_after. }
      rewrite !production_after_after, flat_map_filter. simpl. rewrite ?app_nil_r. reflexivity.
    + eexists _, _. intros s Hdb. step.
      erewrite production_try_catch_error; cycle 1.
      { step. reflexivity. }
      repeat step. rewrite production_ret_after, !production_after_after. simpl. reflexivity.
Qed.

Lemma production_checkDatabaseHealth_after w :
  ∃ lines, ∀ s, db s = true →
    checkDatabaseHealth w s
    = (Value (bool_decide (database_issues w = [])),
       after s (database_issues w) lines (database_calls w)).
Proof.
  unfold checkDatabaseHealth, database_issues, database_calls.
  destruct (statement_error w TenantCount) as [e|] eqn:Hq.
  - eexists. intros s Hdb. step.
    erewrite production_try_catch_error; cycle 1.
    { step. reflexivity. }
    repeat step. rewrite production_ret_after, !production_after_after. simpl. reflexivity.
  - destruct (0 <? tenant_count_query (database w)) eqn:Hcount.
    + destruct (statement_error w OrphanCheck) as [e|] eqn:Hq'.
      * eexists. intros s Hdb. step.
        erewrite production_try_catch_error; cycle 1.
        { step. rewrite Hcount. step. step. reflexivity. }
        repeat step. rewrite production_ret_after, !production_after_after. simpl. reflexivity.
      * destruct (0 <? orphan_query (database w)) eqn:Horphan.
        -- eexists. intros s Hdb. step.
           erewrite try_catch_value; cycle 1.
           { step. rewrite Hcount. step. step. rewrite Horphan. step. apply production_ret_after. }
           rewrite !production_after_after. simpl. reflexivity.
        -- eexists. intros s Hdb. step.
           erewrite try_catch_value; cycle 1.
           { step. rewrite Hcount. step. step. rewrite Horphan. step. apply production_ret_after. }
           rewrite !production_after_after. simpl. reflexivity.
    + eexists. intros s Hdb. step.
      erewrite try_catch_value; cycle 1.
      { step. rewrite Hcount. repeat step. apply production_ret_after. }
      rewrite !production_after_after. simpl. reflexivity.
Qed.

(** With an active tenant and answering statements, orphaned
    [tenant_users] rows cost a console line and nothing else. *)
Lemma production_checkDatabaseHealth_orphans w s :
  db s = true →
  statement_error w TenantCount = None →
  statement_error w OrphanCheck = None →
  0 < tenant_count_query (database w) →
  0 < orphan_query (database w) →
  checkDatabaseHealth w s
  = (Value true,
     after s []
       [ "Database Health Check";
         "Database healthy - " +:+ pretty (tenant_count_query (database w))
           +:+ " active tenants";
         "Found " +:+ pretty (orphan_query (database w))
           +:+ " orphaned tenant_users records" ]
       [DbQuery TenantCount; DbQuery OrphanCheck]).
Proof.
  intros Hdb Hq Hq' Hcount%Z.ltb_lt Horphan%Z.ltb_lt. unfold checkDatabaseHealth.
  step.
  erewrite try_catch_value; cycle 1.
  { step. rewrite Hcount. step. step. rewrite Horphan. step. apply production_ret_after. }
  by rewrite !production_after_after.
Qed.
Lemma production_generateProductionReport_after (all : list string) :
  ∃ lines, ∀ s, issues s = all →
    generateProductionReport s
    = (Value (bool_decide (all = [])), after s [] lines []).
Proof.
  unfold generateProductionReport. destruct all as [|issue all].
  - eexists. intros s Hs. step. rewrite gets_value. cbn [issues after]. rewrite app_nil_r, Hs.
    cbn [length Nat.eqb].
    repeat step. rewrite production_ret_after, !production_after_after. simpl. reflexivity.
  - eexists. intros s Hs. step. rewrite gets_value. cbn [issues after]. rewrite app_nil_r, Hs.
    cbn [length Nat.eqb].
    do 2 step.
    erewrite bind_value; cycle 1.
    { apply production_forEach_after with (iss := λ _, []) (lin := λ issue, ["   - " +:+ issue]).
      intros x s'. by rewrite production_log_after. }
    step. rewrite production_ret_after, !production_after_after. simpl. rewrite ?app_nil_r.
    replace (flat_map (λ _ : string, []) all) with (@nil string)
      by (clear; induction all; simpl; congruence).
    reflexivity.
Qed.

Lemma production_connect_ok w s :
  connect_error w = None →
  connect w s
  = (Value tt, after (connected s) [] ["Database connection established"] [DbConnect]).
Proof.
  intros Hc. unfold connect, Js.try_catch, Js.bind, set_db, call, Js.modify.
  rewrite Hc. unfold log, Js.modify, after, connected. simpl. by rewrite !app_nil_r.
Qed.

Lemma production_connect_failed w e s :
  connect_error w = Some e →
  connect w s
  = (Error e,
     after (connected s) [] ["Database connection failed: " +:+ e] [DbConnect]).
Proof.
  intros Hc. unfold connect, Js.try_catch, Js.bind, set_db, call, Js.modify.
  rewrite Hc. unfold Js.throw, log, Js.modify, after, connected. simpl.
  by rewrite !app_nil_r.
Qed.

Lemma production_disconnect_after w s :
  db s = true →
  disconnect w s
  = (match end_error w with Some e => Error e | None => Value tt end,
     after s [] [] [DbEnd]).
Proof.
  intros Hdb. unfold disconnect. rewrite gets_value, Hdb.
  erewrite bind_value by apply production_call_after.
  by destruct (end_error w).
Qed.

(** The banner of a run: its title and the date. *)
Lemma production_banner {A} w (k : unit → M A) s :
  Js.bind (log "PRODUCTION TENANT HEALTH VALIDATOR")
    (λ _, Js.bind (Js.bind (new_Date w) (λ date, log date)) k) s
  = k tt (started w s).
Proof.
  unfold Js.bind, log, new_Date, Js.gets, Js.modify, Js.ret, started. simpl.
  by rewrite <- app_assoc.
Qed.

Lemma production_connected_after s i l c :
  connected (after s i l c) = after (connected s) i l c.
Proof. done. Qed.

(** The clock is read for the banner only: what follows it is the same
    under every clock. *)
Lemma production_run_clock w clock s :
  runProductionHealthCheck (at_dates w clock) s
  = (connect w;;
     Js.try_finally
       (isolationHealthy <- checkTenantIsolation w;;
        capacityHealthy <- checkTenantLimits w;;
        databaseHealthy <- checkDatabaseHealth w;;
        productionReady <- generateProductionReport;;
        Js.ret productionReady)
       (disconnect w)) (started (at_dates w clock) s).
Proof. unfold runProductionHealthCheck. by rewrite production_banner. Qed.

Lemma production_at_dates w : at_dates w (date_at w) = w.
Proof. by destruct w. Qed.

Lemma production_run_clocks w (all : list string) :
  connect_error w = None →
  ∃ lines, ∀ clock s, issues s = all →
    runProductionHealthCheck (at_dates w clock) s
    = (outcome w (all ++ run_issues w),
       after (connected (started (at_dates w clock) s)) (run_issues w) lines
         (run_calls w)).
Proof.
  intros Hc.
  destruct (production_checkTenantIsolation_after w) as (b1 & l1 & H1).
  destruct (production_checkTenantLimits_after w) as (b2 & l2 & H2).
  destruct (production_checkDatabaseHealth_after w) as (l3 & H3).
  destruct (production_generateProductionReport_after (all ++ run_issues w)) as (l4 & H4).
  eexists. intros clock s Hs. rewrite production_run_clock.
  erewrite bind_value by (by apply production_connect_ok).
  unfold Js.try_finally.
  erewrite bind_value by (by apply H1).
  erewrite bind_value by (by apply H2).
  erewrite bind_value by (by apply H3).
  erewrite bind_value; cycle 1.
  { apply H4. simpl. rewrite Hs, app_nil_r. unfold run_issues.
    by rewrite <- !app_assoc. }
  rewrite production_ret_after, !production_after_after, production_disconnect_after by done.
  unfold outcome. rewrite production_after_after.
  destruct (end_error w); simpl; rewrite ?app_nil_r; unfold run_issues, run_calls;
    rewrite <- ?app_assoc; reflexivity.
Qed.

Lemma production_run_connected w (all : list string) :
  connect_error w = None →
  ∃ lines, ∀ s, issues s = all →
    runProductionHealthCheck w s
    = (outcome w (all ++ run_issues w),
       after (connected (started w s)) (run_issues w) lines (run_calls w)).
Proof.
  intros Hc. destruct (production_run_clocks w all Hc) as (lines & Hrun).
  exists lines. intros s Hs. specialize (Hrun (date_at w) s Hs).
  by rewrite production_at_dates in Hrun.
Qed.

Lemma production_run_refused w e s :
  connect_error w = Some e →
  runProductionHealthCheck w s
  = (Error e,
     after (connected (started w s)) []
       ["Database connection failed: " +:+ e] [DbConnect]).
Proof.
  intros Hc. unfold runProductionHealthCheck. rewrite production_banner.
  by erewrite bind_error by (by apply production_connect_failed).
Qed.

(** A run on a new object. *)
Lemma production_run_new w :
  connect_error w = None →
  ∃ lines,
    runProductionHealthCheck w constructor
    = (outcome w (run_issues w),
       {| db := true; issues := run_issues w;
          console := "PRODUCTION TENANT HEALTH VALIDATOR" :: date_at w 0 :: lines;
          calls := run_calls w; dates := 1 |}).
Proof.
  intros Hc. destruct (production_run_connected w [] Hc) as (lines & Hrun).
  exists lines. by rewrite Hrun.
Qed.

Lemma production_isolation_issues_nil w :
  isolation_issues w = []
  ↔ statement_error w IsolationCheck = None ∧ isolation_query (database w) = [].
Proof.
  unfold isolation_issues. destruct (statement_error w IsolationCheck).
  - split; [done | by intros [? _]].
  - destruct (isolation_query (database w)); simpl; split; (done || by intros [_ ?]).
Qed.

Lemma production_filter_exceeded_nil rows :
  List.filter exceeded rows = []
  ↔ Forall (λ tenant, capacity_status tenant ≠ EXCEEDED) rows.
Proof.
  induction rows as [|r rows IH]; simpl.
  - split; [constructor | done].
  - unfold exceeded at 1. case_bool_decide as Hr.
    + split; [done|]. by inversion 1.
    + rewrite IH. split; [by constructor | by inversion 1].
Qed.

Lemma production_capacity_issues_nil w :
  capacity_issues w = []
  ↔ statement_error w CapacityCheck = None
    ∧ ∃ rows, capacity_query (database w) = Value rows
              ∧ Forall (λ tenant, capacity_status tenant ≠ EXCEEDED) rows.
Proof.
  unfold capacity_issues. destruct (statement_error w CapacityCheck).
  - split; [done | by intros [? _]].
  - destruct (capacity_query (database w)) as [rows|e].
    + split.
      * intros H. split; [done|]. exists rows. split; [done|].
        apply production_filter_exceeded_nil. by destruct (List.filter exceeded rows).
      * intros (_ & rows' & [= <-] & H%production_filter_exceeded_nil). by rewrite H.
    + split; [done | by intros (_ & ? & ? & _)].
Qed.

Lemma production_database_issues_nil w :
  database_issues w = []
  ↔ statement_error w TenantCount = None
    ∧ statement_error w OrphanCheck = None
    ∧ 0 < tenant_count_query (database w).
Proof.
  unfold database_issues. destruct (statement_error w TenantCount).
  - split; [done | by intros [? _]].
  - destruct (Z.ltb_spec 0 (tenant_count_query (database w))).
    + destruct (statement_error w OrphanCheck); split; (done || by intros (_ & ? & _)).
    + split; [done | intros (_ & _ & ?); lia].
Qed.

Lemma production_run_issues_nil w :
  run_issues w = []
  ↔ isolation_issues w = [] ∧ capacity_issues w = [] ∧ database_issues w = [].
Proof.
  unfold run_issues. split.
  - intros (? & (? & ?)%app_eq_nil)%app_eq_nil. done.
  - by intros (-> & -> & ->).
Qed.

(** The join condition of the isolation check rules out what its
    [CASE] counts: the statement never returns a row. *)
Lemma production_tenant_data_integrity_clean data :
  Forall (λ row, isolation_violations row = 0) (tenant_data_integrity data).
Proof.
  unfold tenant_data_integrity. apply Forall_map, Forall_forall. intros t _. simpl.
  unfold Rel.count.
  replace (List.filter _ (Rel.left_join_row same_tenant t (tenant_users data)))
    with (@nil (Tenant * option TenantUser)); [done|].
  symmetry. unfold Rel.left_join_row.
  assert (Hall : ∀ tu, In tu (List.filter (same_tenant t) (tenant_users data)) →
                       tu_tenant_id tu = Some (t_id t)).
  { intros tu [_ Htu]%filter_In. unfold same_tenant, Rel.is_true, Rel.sql_eq in Htu.
    destruct (tu_tenant_id tu) as [i|]; [|done].
    destruct (Z.eqb_spec i (t_id t)); [by subst | done]. }
  destruct (List.filter (same_tenant t) (tenant_users data)) as [|tu0 l]; [done|].
  set (ms := tu0 :: l) in *. clearbody ms.
  induction ms as [|tu ms IH]; [done|]. simpl.
  rewrite (Hall tu) by (by left). simpl.
  unfold Rel.case_when_1, Rel.sql_ne, Rel.sql_eq. simpl. rewrite Z.eqb_refl. simpl.
  apply IH. intros tu' ?. apply Hall. by right.
Qed.

Lemma production_isolation_query_empty data : isolation_query data = [].
Proof.
  unfold isolation_query.
  induction (production_tenant_data_integrity_clean data) as [|row rows Hrow _ IH]; [done|].
  simpl. by rewrite Hrow.
Qed.
End ProductionFacts.

(** ** One run of the monitor *)

Module MonitorFacts.
Import Monitor JsFacts.

Lemma monitor_stamped_app env n l1 l2 :
  stamped env n (l1 ++ l2)
  = (stamped env n l1 ++ stamped env (n + length l1) l2)%list.
Proof.
  unfold stamped. rewrite imap_app. f_equal. apply imap_ext. intros k x _. simpl.
  by rewrite Nat.add_assoc.
Qed.

Lemma monitor_stamped_length env n l : length (stamped env n l) = length l.
Proof. unfold stamped. apply length_imap. Qed.

Lemma monitor_notice_of_stamped env n l : map notice_of (stamped env n l) = l.
Proof.
  revert n. induction l as [|x l IH]; intros n; [done|].
  change (x :: l) with ([x] ++ l)%list. rewrite monitor_stamped_app, map_app, IH.
  by destruct x.
Qed.

Lemma monitor_count_type_notices t (l : list Alert) :
  count_type t l = count_notices t (map notice_of l).
Proof.
  unfold count_type, count_notices. induction l as [|a l IH]; [done|]. simpl.
  destruct (bool_decide (type a = t)); simpl; by rewrite IH.
Qed.

Lemma monitor_count_type_stamped env n t l :
  count_type t (stamped env n l) = count_notices t l.
Proof. by rewrite monitor_count_type_notices, monitor_notice_of_stamped. Qed.

Lemma monitor_same_answers_refl env : same_answers env env.
Proof. done. Qed.

Lemma monitor_after_after env s v1 a1 l1 c1 v2 a2 l2 c2 :
  after env (after env s v1 a1 l1 c1) v2 a2 l2 c2
  = after env s (v1 ++ v2) (a1 ++ a2) (l1 ++ l2) (c1 ++ c2).
Proof.
  unfold after; simpl.
  by rewrite monitor_stamped_app, length_app, !app_assoc, Nat.add_assoc.
Qed.

Lemma monitor_after_nil env s : after env s [] [] [] [] = s.
Proof. destruct s; unfold after; simpl. by rewrite !app_nil_r, Nat.add_0_r. Qed.

Lemma monitor_ret_after env {A} (a : A) s :
  Js.ret a s = (Value a, after env s [] [] [] []).
Proof. by rewrite monitor_after_nil. Qed.

Lemma monitor_log_after env line s :
  log line s = (Value tt, after env s [] [] [line] []).
Proof. unfold log, Js.modify, after. simpl. by rewrite !app_nil_r, Nat.add_0_r. Qed.

(** Pushing an alert: the clock is read, then the alert is appended. *)
Lemma monitor_alert_after env ty sv msg s :
  Js.bind (new_Date env)
    (λ timestamp, push_alert {| type := ty; service := sv; message := msg;
                                timestamp := timestamp |}) s
  = (Value tt,
     after env s []
       [ {| notice_type := ty; notice_service := sv; notice_message := msg |} ] [] []).
Proof.
  unfold new_Date, push_alert, Js.bind, Js.gets, Js.modify, Js.ret, after, stamped, stamp.
  simpl. by rewrite !app_nil_r, Nat.add_0_r, Nat.add_1_r.
Qed.

Lemma monitor_push_violation_after env v s :
  push_violation v s = (Value tt, after env s [v] [] [] []).
Proof.
  unfold push_violation. rewrite gets_value.
  unfold set_violations, Js.modify, after. simpl. by rewrite !app_nil_r, Nat.add_0_r.
Qed.

Lemma monitor_call_after env c s : call c s = (Value tt, after env s [] [] [] [c]).
Proof. unfold call, Js.modify, after. simpl. by rewrite !app_nil_r, Nat.add_0_r. Qed.

Lemma monitor_set_violations_nil s : set_violations [] s = (Value tt, cleared s).
Proof. done. Qed.

Lemma monitor_db_query_ok env {A} w q (rows : result A) r s :
  db s = true → statement_error w q = None → rows = Value r →
  db_query w q rows s = (Value r, after env s [] [] [] [DbQuery q]).
Proof.
  intros Hdb Hq ->. unfold db_query. rewrite gets_value, Hdb.
  erewrite bind_value by apply (monitor_call_after env). by rewrite Hq.
Qed.

Lemma monitor_db_query_rejected env {A} w q (rows : result A) e s :
  db s = true → statement_error w q = Some e →
  db_query w q rows s = (Error e, after env s [] [] [] [DbQuery q]).
Proof.
  intros Hdb Hq. unfold db_query. rewrite gets_value, Hdb.
  erewrite bind_value by apply (monitor_call_after env). by rewrite Hq.
Qed.

Lemma monitor_db_query_failed env {A} w q (rows : result A) e s :
  db s = true → statement_error w q = None → rows = Error e →
  db_query w q rows s = (Error e, after env s [] [] [] [DbQuery q]).
Proof.
  intros Hdb Hq ->. unfold db_query. rewrite gets_value, Hdb.
  erewrite bind_value by apply (monitor_call_after env). by rewrite Hq.
Qed.

(** One statement of a method body, and a sequence of them, under the
    clock of [env]. *)
Ltac mprim env :=
  lazymatch goal with
  | |- log _ _ = _ => apply (monitor_log_after env)
  | |- Js.bind (new_Date _) _ _ = _ => apply (monitor_alert_after env)
  | |- push_violation _ _ = _ => apply (monitor_push_violation_after env)
  | |- call _ _ = _ => apply (monitor_call_after env)
  | |- Js.ret _ _ = _ => apply (monitor_ret_after env)
  | |- set_violations [] _ = _ => apply monitor_set_violations_nil
  | |- db_query _ _ _ _ = _ =>
      first [ apply (monitor_db_query_ok env);
              [simpl; assumption | assumption | reflexivity || eassumption]
            | apply (monitor_db_query_rejected env); [simpl; assumption | eassumption]
            | apply (monitor_db_query_failed env);
              [simpl; assumption | assumption | reflexivity || eassumption] ]
  | |- Js.bind _ _ _ = _ => mstep env; mprim env
  end
with mstep env :=
  lazymatch goal with
  | |- Js.bind ?m ?k ?s = _ =>
      first [ erewrite (bind_value m k s) by mprim env
            | erewrite (bind_error m k s) by mprim env ];
      cbv beta
  end.

Lemma monitor_forEach_after env {A} (l : list A) (body : A → M unit)
    (vio : A → list string) (lin : A → list string) :
  (∀ x s, body x s = (Value tt, after env s (vio x) [] (lin x) [])) →
  ∀ s, Js.forEach l body s
       = (Value tt, after env s (flat_map vio l) [] (flat_map lin l) []).
Proof.
  intros Hbody. induction l as [|x l IH]; intros s; simpl.
  - apply monitor_ret_after.
  - erewrite bind_value by apply Hbody. by rewrite IH, monitor_after_after.
Qed.

Lemma monitor_forEach_with_after env {A C} (l : list A) (body : A → C → M C)
    (al : A → list Notice) (lin : A → list string) (upd : A → C → C) :
  (∀ x c s, body x c s = (Value (upd x c), after env s [] (al x) (lin x) [])) →
  ∀ c s,
    Js.forEach_with l body c s
    = (Value (foldl (λ c x, upd x c) c l),
       after env s [] (flat_map al l) (flat_map lin l) []).
Proof.
  intros Hbody. induction l as [|x l IH]; intros c s; simpl.
  - apply monitor_ret_after.
  - erewrite bind_value by apply Hbody. by rewrite IH, monitor_after_after.
Qed.

Lemma monitor_mapM_after env {A B} (l : list A) (body : A → M B)
    (al : A → list Notice) (lin : A → list string) (res : A → B) :
  (∀ x s, body x s = (Value (res x), after env s [] (al x) (lin x) [])) →
  ∀ s, mapM body l s
       = (Value (map res l), after env s [] (flat_map al l) (flat_map lin l) []).
Proof.
  intros Hbody. induction l as [|x l IH]; intros s; simpl.
  - apply monitor_ret_after.
  - erewrite bind_value by apply Hbody.
    erewrite bind_value by apply IH.
    by rewrite (monitor_ret_after env), !monitor_after_after, !app_nil_r.
Qed.

Lemma monitor_cleared_after env s v a l c :
  cleared (after env s v a l c) = after env (cleared s) [] a l c.
Proof. done. Qed.

Lemma monitor_connected_after env s v a l c :
  connected (after env s v a l c) = after env (connected s) v a l c.
Proof. done. Qed.

Lemma monitor_guarded_forEach {A} (rows : list A) (body : A → M unit) s :
  (if (0 <? length rows)%nat then Js.forEach rows body else Js.ret tt) s
  = Js.forEach rows body s.
Proof. by destruct rows. Qed.

Lemma monitor_leak_loop env (rows : list (gmap string JsValue)) s :
  (if (0 <? length rows)%nat
   then Js.forEach rows (λ row, push_violation (leakage_message row))
   else Js.ret tt) s
  = (Value tt, after env s (map leakage_message rows) [] [] []).
Proof.
  rewrite monitor_guarded_forEach.
  erewrite (monitor_forEach_after env)
    by (intros; apply monitor_push_violation_after).
  by rewrite flat_map_singleton, flat_map_nil.
Qed.

Lemma monitor_orphan_loop env (rows : list OrphanRow) s :
  Js.forEach rows
    (λ row, if 0 <? orphan_count row then push_violation (orphan_message row)
            else Js.ret tt) s
  = (Value tt,
     after env s (map orphan_message (List.filter (λ row, 0 <? orphan_count row) rows))
       [] [] []).
Proof.
  erewrite (monitor_forEach_after env) with
    (vio := λ row, if 0 <? orphan_count row then [orphan_message row] else [])
    (lin := λ _, []); cycle 1.
  { intros x s'. destruct (0 <? orphan_count x);
      [apply monitor_push_violation_after | apply monitor_ret_after]. }
  by rewrite flat_map_filter, flat_map_nil.
Qed.

(** The isolation check reads nothing of the environment but its
    clock: its lines are the same in every environment. *)
Lemma monitor_checkTenantIsolation_after w :
  ∃ lines, ∀ env s, db s = true →
    checkTenantIsolation w env s
    = (Value (isolation_violations w),
       after env (cleared s) (isolation_violations w) (isolation_notices w) lines
         (isolation_calls w)).
Proof.
  unfold checkTenantIsolation, isolation_violations, isolation_notices, isolation_calls,
    isolation_violations, orphan_violations.
  destruct (statement_error w LeakageCheck) as [e|] eqn:Hq.
  - eexists. intros env s Hdb. do 2 mstep env. rewrite monitor_cleared_after.
    erewrite bind_value; cycle 1.
    { erewrite try_catch_error; cycle 1.
      { mstep env. reflexivity. }
      mstep env. apply monitor_push_violation_after. }
    unfold Js.gets. rewrite !monitor_after_after. simpl. reflexivity.
  - destruct (statement_error w OrphanCheckAll) as [e|] eqn:Hq'.
    + eexists. intros env s Hdb. do 2 mstep env. rewrite monitor_cleared_after.
      erewrite bind_value; cycle 1.
      { erewrite try_catch_error; cycle 1.
        { mstep env. erewrite bind_value by apply (monitor_leak_loop env). mstep env.
          reflexivity. }
        mstep env. apply monitor_push_violation_after. }
      unfold Js.gets. rewrite !monitor_after_after. simpl. reflexivity.
    + match goal with
      | |- context [match ?l with [] => [] | _ :: _ => _ end] =>
          destruct l as [|v vs] eqn:Hvs
      end.
      * eexists. intros env s Hdb. do 2 mstep env. rewrite monitor_cleared_after.
        erewrite bind_value; cycle 1.
        { erewrite try_catch_value; cycle 1.
          { mstep env. erewrite bind_value by apply (monitor_leak_loop env). mstep env.
            erewrite bind_value by apply (monitor_orphan_loop env).
            rewrite !monitor_after_after, gets_value.
            cbn [violations after cleared app]. rewrite Hvs. cbn [length Nat.eqb].
            apply monitor_log_after. }
          reflexivity. }
        unfold Js.gets. rewrite !monitor_after_after. cbn [violations after cleared app].
        rewrite ?app_nil_r, ?Hvs. simpl. reflexivity.
      * eexists. intros env s Hdb. do 2 mstep env. rewrite monitor_cleared_after.
        erewrite bind_value; cycle 1.
        { erewrite try_catch_value; cycle 1.
          { mstep env. erewrite bind_value by apply (monitor_leak_loop env). mstep env.
            erewrite bind_value by apply (monitor_orphan_loop env).
            rewrite !monitor_after_after, gets_value.
            cbn [violations after cleared app]. rewrite Hvs. cbn [length Nat.eqb].
            mstep env.
            erewrite bind_value; cycle 1.
            { apply (monitor_forEach_after env) with
                (vio := λ _, []) (lin := λ v, ["  - " +:+ v]).
              intros x s'. apply monitor_log_after. }
            apply monitor_alert_after. }
          reflexivity. }
        unfold Js.gets. rewrite !monitor_after_after. cbn [violations after cleared app].
        rewrite ?app_nil_r, ?flat_map_nil, ?app_nil_r, ?Hvs. simpl.
        rewrite ?app_nil_r. reflexivity.
Qed.

Lemma monitor_checkTenantPerformance_after w :
  ∃ lines, ∀ env s, db s = true →
    checkTenantPerformance w env s
    = (Value tt, after env s [] (performance_notices w) lines [DbQuery PerfCheck]).
Proof.
  unfold checkTenantPerformance, performance_notices.
  destruct (statement_error w PerfCheck) as [e|] eqn:Hq.
  - eexists. intros env s Hdb. mstep env.
    erewrite try_catch_error; cycle 1.
    { mstep env. reflexivity. }
    rewrite (monitor_log_after env), !monitor_after_after. simpl. reflexivity.
  - destruct (perf_query (current_date w) (database w)) as [rows|e] eqn:Hrows.
    + eexists. intros env s Hdb. mstep env.
      erewrite try_catch_value; cycle 1.
      { mstep env.
        erewrite bind_value; cycle 1.
        { apply (monitor_forEach_with_after env) with
            (al := λ tenant, if hasExceeded tenant then [limits_notice tenant] else [])
            (lin := λ tenant,
               [ name tenant
                 +:+ (if hasExceeded tenant then " - CRITICAL: "
                      else if hasWarning tenant then " - WARNING: " else " - OK: ")
                 +:+ usage_of tenant ])
            (upd := λ tenant n,
               if hasExceeded tenant then
                 {| healthyTenants := healthyTenants n;
                    warningTenants := warningTenants n;
                    criticalTenants := criticalTenants n + 1 |}
               else if hasWarning tenant then
                 {| healthyTenants := healthyTenants n;
                    warningTenants := warningTenants n + 1;
                    criticalTenants := criticalTenants n |}
               else
                 {| healthyTenants := healthyTenants n + 1;
                    warningTenants := warningTenants n;
                    criticalTenants := criticalTenants n |}).
          intros tenant n s'.
          destruct (hasExceeded tenant); [|destruct (hasWarning tenant)];
            repeat mstep env;
            rewrite (monitor_ret_after env), ?monitor_after_after; simpl; reflexivity. }
        apply monitor_log_after. }
      rewrite !monitor_after_after, flat_map_filter. simpl. rewrite ?app_nil_r. reflexivity.
    + eexists. intros env s Hdb. mstep env.
      erewrite try_catch_error; cycle 1.
      { mstep env. reflexivity. }
      rewrite (monitor_log_after env), !monitor_after_after. simpl. reflexivity.
Qed.

Lemma monitor_checkService_after env env' serviceName s :
  same_answers env env' →
  checkService env' serviceName s
  = (Value (service_result env serviceName),
     after env' s [] (service_notice env serviceName) [service_line env serviceName] []).
Proof.
  intros (Hp & He & Ht).
  unfold checkService, service_notice, service_line, service_result.
  rewrite Hp, He, Ht.
  destruct (probe env serviceName) as [statusCode|error|e].
  - destruct (statusCode =? 200);
      destruct (elapsed env serviceName >? responseTime_threshold env);
      cbn [andb negb]; repeat mstep env';
      rewrite (monitor_ret_after env'), ?monitor_after_after; simpl; reflexivity.
  - repeat mstep env'.
    rewrite (monitor_ret_after env'), ?monitor_after_after; simpl; reflexivity.
  - repeat mstep env'.
    rewrite (monitor_ret_after env'), ?monitor_after_after; simpl; reflexivity.
Qed.

Lemma monitor_insert_settled_perm env x l : insert_settled env x l ≡ₚ x :: l.
Proof.
  induction l as [|y l IH]; simpl; [done|].
  destruct (settled_at env x <=? settled_at env y); [done|].
  rewrite IH. apply perm_swap.
Qed.

(** Every request settles, once. *)
Lemma monitor_completion_perm env : completion env ≡ₚ services.
Proof.
  unfold completion. induction services as [|x l IH]; simpl; [done|].
  by rewrite monitor_insert_settled_perm, IH.
Qed.

Lemma monitor_find_result env n (l : list string) :
  n ∈ l →
  List.find (λ r, String.eqb (serviceName r) n) (map (service_result env) l)
  = Some (service_result env n).
Proof.
  induction l as [|x l IH]; [by intros ?%elem_of_nil|]. simpl.
  destruct (String.eqb_spec x n) as [->|Hx]; [done|].
  intros [?|?]%elem_of_cons; [congruence | by apply IH].
Qed.

(** [Promise.all] puts the results back in the order of the
    configuration. *)
Lemma monitor_in_order_of env (l : list string) :
  l ≡ₚ services →
  in_order_of services (map (service_result env) l) = map (service_result env) services.
Proof.
  intros Hl. unfold in_order_of.
  assert (Hall : ∀ n, n ∈ services → n ∈ l) by (intros n; by rewrite Hl).
  clear Hl. revert Hall. generalize services. intros names.
  induction names as [|n names IH]; intros Hall; [done|]. simpl.
  rewrite monitor_find_result by (apply Hall; by left). simpl.
  f_equal. apply IH. intros m Hm. apply Hall. by right.
Qed.

Lemma monitor_checkServiceHealth_after env env' s :
  same_answers env env' →
  checkServiceHealth env' s
  = (Value (map (service_result env) services),
     after env' s [] (flat_map (service_notice env) (completion env'))
       ("Service Health Check" :: map (service_line env) (completion env')) []).
Proof.
  intros Hsame. unfold checkServiceHealth. mstep env'.
  erewrite bind_value; cycle 1.
  { apply (monitor_mapM_after env') with
      (al := service_notice env) (lin := λ n, [service_line env n])
      (res := service_result env).
    intros x s'. by apply monitor_checkService_after. }
  rewrite (monitor_ret_after env'), !monitor_after_after, flat_map_singleton.
  rewrite monitor_in_order_of by apply monitor_completion_perm.
  simpl. by rewrite ?app_nil_r.
Qed.

Lemma monitor_getTenants_after w :
  ∃ lines rows, ∀ env s, db s = true →
    getTenants w s = (Value rows, after env s [] [] lines [DbQuery ActiveTenants]).
Proof.
  unfold getTenants.
  destruct (statement_error w ActiveTenants) as [e|] eqn:Hq.
  - eexists _, _. intros env s Hdb.
    erewrite try_catch_error by mprim env.
    mstep env. rewrite (monitor_ret_after env), !monitor_after_after. simpl. reflexivity.
  - eexists _, _. intros env s Hdb.
    erewrite try_catch_value by mprim env. reflexivity.
Qed.

Lemma monitor_alert_lines (t : AlertType) (l : list Alert) :
  flat_map (λ alert, ["   " +:+ service alert +:+ ": " +:+ message alert])
    (List.filter (λ a, bool_decide (type a = t)) l)
  = flat_map (λ x, ["   " +:+ notice_service x +:+ ": " +:+ notice_message x])
      (List.filter (λ x, bool_decide (notice_type x = t)) (map notice_of l)).
Proof.
  induction l as [|a l IH]; [done|]. simpl.
  destruct (bool_decide (type a = t)); simpl; by rewrite IH.
Qed.

(** The report reads of the alerts what they say, not their times. *)
Lemma monitor_generateReport_after w (all : list Notice) :
  ∃ lines, ∀ env s, db s = true → map notice_of (alerts s) = all →
    generateReport w s
    = (Value (bool_decide (count_notices CRITICAL all = 0%nat)),
       after env s [] [] lines [DbQuery ActiveTenants]).
Proof.
  destruct (monitor_getTenants_after w) as (l1 & rows & Hrows).
  unfold generateReport.
  destruct (count_notices CRITICAL all) as [|n] eqn:Hcritical;
    [destruct (count_notices WARNING all) as [|m] eqn:Hwarning|].
  - eexists. intros env s Hdb Hs. mstep env.
    erewrite bind_value by (by apply Hrows). mstep env.
    rewrite gets_value. cbn [alerts after stamped imap]. rewrite !app_nil_r.
    rewrite !monitor_count_type_notices, Hs, Hcritical, Hwarning.
    repeat mstep env. cbn [Nat.ltb Nat.leb]. mstep env.
    rewrite (monitor_ret_after env), !monitor_after_after. simpl. reflexivity.
  - eexists. intros env s Hdb Hs. mstep env.
    erewrite bind_value by (by apply Hrows). mstep env.
    rewrite gets_value. cbn [alerts after stamped imap]. rewrite !app_nil_r.
    rewrite !monitor_count_type_notices, Hs, Hcritical, Hwarning.
    repeat mstep env. cbn [Nat.ltb Nat.leb]. mstep env.
    erewrite bind_value; cycle 1.
    { apply (monitor_forEach_after env) with
        (vio := λ _, [])
        (lin := λ alert, ["   " +:+ service alert +:+ ": " +:+ message alert]).
      intros x s'. apply monitor_log_after. }
    rewrite (monitor_ret_after env), !monitor_after_after, flat_map_nil.
    rewrite monitor_alert_lines, Hs. simpl. rewrite ?app_nil_r. reflexivity.
  - eexists. intros env s Hdb Hs. mstep env.
    erewrite bind_value by (by apply Hrows). mstep env.
    rewrite gets_value. cbn [alerts after stamped imap]. rewrite !app_nil_r.
    rewrite !monitor_count_type_notices, Hs, Hcritical.
    repeat mstep env. cbn [Nat.ltb Nat.leb]. mstep env.
    erewrite bind_value; cycle 1.
    { apply (monitor_forEach_after env) with
        (vio := λ _, [])
        (lin := λ alert, ["   " +:+ service alert +:+ ": " +:+ message alert]).
      intros x s'. apply monitor_log_after. }
    rewrite (monitor_ret_after env), !monitor_after_after, flat_map_nil.
    rewrite monitor_alert_lines, Hs. simpl. rewrite ?app_nil_r. reflexivity.
Qed.

Lemma monitor_connect_ok env w s :
  connect_error w = None →
  connect w s
  = (Value tt,
     after env (connected s) [] [] ["Connected to PostgreSQL database"] [DbConnect]).
Proof.
  intros Hc. unfold connect, Js.try_catch, Js.bind, set_db, call, Js.modify.
  rewrite Hc. unfold log, Js.modify, after, connected. simpl.
  by rewrite !app_nil_r, Nat.add_0_r.
Qed.

Lemma monitor_connect_failed env w e s :
  connect_error w = Some e →
  connect w s
  = (Error e,
     after env (connected s) [] [] ["Database connection failed: " +:+ e] [DbConnect]).
Proof.
  intros Hc. unfold connect, Js.try_catch, Js.bind, set_db, call, Js.modify.
  rewrite Hc. unfold Js.throw, log, Js.modify, after, connected. simpl.
  by rewrite !app_nil_r, Nat.add_0_r.
Qed.

Lemma monitor_disconnect_after w :
  ∃ lines, ∀ env s, db s = true →
    disconnect w s
    = (match end_error w with Some e => Error e | None => Value tt end,
       after env s [] [] lines [DbEnd]).
Proof.
  unfold disconnect. destruct (end_error w) as [e|].
  - eexists. intros env s Hdb. rewrite gets_value, Hdb.
    erewrite bind_value by apply (monitor_call_after env). reflexivity.
  - eexists. intros env s Hdb. rewrite gets_value, Hdb.
    erewrite bind_value by apply (monitor_call_after env).
    rewrite (monitor_log_after env), monitor_after_after.
    reflexivity.
Qed.

(** The banner of a run: its title and the date. *)
Lemma monitor_banner {A} env (k : unit → M A) s :
  Js.bind (log "TENANT HEALTH MONITORING")
    (λ _, Js.bind (Js.bind (new_Date env) (λ date, log date)) k) s
  = k tt (started env s).
Proof.
  unfold Js.bind, log, new_Date, Js.gets, Js.modify, Js.ret, started. simpl.
  by rewrite <- app_assoc.
Qed.

(** A connected run, in every environment in which the services answer
    as in [env] and their requests settle in the same order. *)
Lemma monitor_run_connected w env (all : list Notice) :
  connect_error w = None →
  ∃ lines, ∀ env' s,
    same_answers env env' → completion env' = completion env →
    map notice_of (alerts s) = all →
    runFullHealthCheck w env' s
    = (outcome w (all ++ run_notices w env),
       after env' (cleared (connected (started env' s))) (isolation_violations w)
         (run_notices w env) lines (run_calls w)).
Proof.
  intros Hc.
  destruct (monitor_checkTenantIsolation_after w) as (l1 & H1).
  destruct (monitor_checkTenantPerformance_after w) as (l2 & H2).
  destruct (monitor_generateReport_after w (all ++ run_notices w env)) as (l4 & H4).
  destruct (monitor_disconnect_after w) as (l5 & H5).
  eexists. intros env' s Hsame Horder Hs. unfold runFullHealthCheck.
  rewrite monitor_banner.
  erewrite bind_value by (by apply (monitor_connect_ok env')).
  unfold Js.try_finally.
  erewrite bind_value by (by apply H1).
  erewrite bind_value by (by apply H2).
  erewrite bind_value by (by apply (monitor_checkServiceHealth_after env env')).
  rewrite Horder.
  erewrite bind_value; cycle 1.
  { apply (H4 env'); [done|]. cbn [alerts after cleared connected started].
    rewrite !map_app, !monitor_notice_of_stamped, Hs, ?app_nil_r. unfold run_notices.
    unfold service_notices. by rewrite <- !app_assoc. }
  rewrite (monitor_ret_after env'), !monitor_after_after, monitor_cleared_after,
    !monitor_after_after, (H5 env') by done.
  unfold outcome. rewrite monitor_after_after.
  destruct (end_error w); simpl; rewrite ?app_nil_r; unfold run_notices, run_calls,
    service_notices; rewrite <- ?app_assoc; reflexivity.
Qed.

Lemma monitor_run_refused w env e s :
  connect_error w = Some e →
  runFullHealthCheck w env s
  = (Error e,
     after env (connected (started env s)) [] []
       ["Database connection failed: " +:+ e] [DbConnect]).
Proof.
  intros Hc. unfold runFullHealthCheck. rewrite monitor_banner.
  by erewrite bind_error by (by apply (monitor_connect_failed env)).
Qed.

(** A run on a new object. *)
Lemma monitor_run_new w env :
  connect_error w = None →
  ∃ lines,
    runFullHealthCheck w env constructor
    = (outcome w (run_notices w env),
       {| db := true; alerts := stamped env 1 (run_notices w env);
          violations := isolation_violations w;
          console := "TENANT HEALTH MONITORING" :: now env 0 :: lines;
          calls := run_calls w;
          dates := S (length (run_notices w env)) |}).
Proof.
  intros Hc. destruct (monitor_run_connected w env [] Hc) as (lines & Hrun).
  exists lines. by rewrite (Hrun env constructor).
Qed.

Lemma monitor_sql_eq_false (a : option Z) (i : Z) :
  a ≠ Some i → Rel.is_true (Rel.sql_eq a (Some i)) = false.
Proof.
  intros H. destruct a as [j|]; [|done]. simpl.
  destruct (Z.eqb_spec j i); [by subst | done].
Qed.

(** A child row that matches no tenant is counted. *)
Lemma monitor_orphans_positive {A} (on : A → Tenant → bool) (child : list A) data x :
  x ∈ child → (∀ t, t ∈ tenants data → on x t = false) →
  0 < orphans on child data.
Proof.
  intros Hx Hno. unfold orphans.
  assert (Hrow : Rel.left_join_row on x (tenants data) = [(x, None)]).
  { unfold Rel.left_join_row.
    replace (List.filter (on x) (tenants data)) with (@nil Tenant); [done|].
    symmetry. induction (tenants data) as [|t ts IH]; [done|]. simpl.
    rewrite Hno by left. apply IH. intros t' ?. apply Hno. by right. }
  assert (Hin : In (x, None)
                  (List.filter (λ r : A * option Tenant, bool_decide (t_id <$> r.2 = None))
                     (Rel.left_join on child (tenants data)))).
  { apply filter_In. split; [|done]. unfold Rel.left_join. apply in_flat_map.
    exists x. split; [by apply list_elem_of_In|]. rewrite Hrow. by left. }
  destruct (List.filter _ _); [done|]. simpl. lia.
Qed.

Lemma monitor_user_orphans_reported data tu :
  tu ∈ tenant_users data → orphaned_user data tu →
  0 < orphans user_owner (tenant_users data) data
  ∧ orphan_message {| table_name := "tenant_users";
                      orphan_count := orphans user_owner (tenant_users data) data |}
    ∈ orphan_violations data.
Proof.
  intros Hin Ho.
  assert (Hpos : 0 < orphans user_owner (tenant_users data) data).
  { eapply monitor_orphans_positive; [done|]. intros t Ht.
    by apply monitor_sql_eq_false, Ho. }
  split; [done|]. unfold orphan_violations, orphan_query. simpl.
  apply Z.ltb_lt in Hpos. rewrite Hpos. by left.
Qed.

Lemma monitor_usage_orphans_reported data tus :
  tus ∈ tenant_usage_stats data → orphaned_usage data tus →
  0 < orphans usage_owner (tenant_usage_stats data) data
  ∧ orphan_message {| table_name := "tenant_usage_stats";
                      orphan_count := orphans usage_owner (tenant_usage_stats data) data |}
    ∈ orphan_violations data.
Proof.
  intros Hin Ho.
  assert (Hpos : 0 < orphans usage_owner (tenant_usage_stats data) data).
  { eapply monitor_orphans_positive; [done|]. intros t Ht.
    by apply monitor_sql_eq_false, Ho. }
  split; [done|]. unfold orphan_violations, orphan_query. simpl.
  apply Z.ltb_lt in Hpos. rewrite Hpos.
  destruct (0 <? orphans user_owner (tenant_users data) data); simpl.
  - right. by left.
  - by left.
Qed.

Lemma monitor_count_notices_app t (l1 l2 : list Notice) :
  count_notices t (l1 ++ l2) = (count_notices t l1 + count_notices t l2)%nat.
Proof. unfold count_notices. by rewrite List.filter_app, length_app. Qed.

Lemma monitor_count_notices_perm t (l1 l2 : list Notice) :
  l1 ≡ₚ l2 → count_notices t l1 = count_notices t l2.
Proof.
  unfold count_notices. induction 1 as [|x l1 l2 _ IH|x y l|l1 l2 l3 _ IH1 _ IH2]; simpl.
  - done.
  - destruct (bool_decide (notice_type x = t)); simpl; by rewrite IH.
  - by destruct (bool_decide (notice_type x = t)), (bool_decide (notice_type y = t)).
  - by rewrite IH1.
Qed.

Lemma monitor_service_notice_same env env' serviceName :
  same_answers env env' → service_notice env' serviceName = service_notice env serviceName.
Proof. intros (Hp & He & Ht). unfold service_notice. by rewrite Hp, He, Ht. Qed.

Lemma monitor_flat_map_perm {A B} (f : A → list B) (l1 l2 : list A) :
  l1 ≡ₚ l2 → flat_map f l1 ≡ₚ flat_map f l2.
Proof.
  induction 1 as [|x l1 l2 _ IH|x y l|l1 l2 l3 _ IH1 _ IH2]; simpl.
  - done.
  - by rewrite IH.
  - rewrite !app_assoc. f_equiv. apply Permutation_app_comm.
  - by rewrite IH1.
Qed.

(** The alerts of the services are the same, up to their order, in
    every environment in which the services answer alike. *)
Lemma monitor_service_notices_perm env env' :
  same_answers env env' → service_notices env' ≡ₚ service_notices env.
Proof.
  intros Hsame. unfold service_notices.
  rewrite (monitor_flat_map_perm _ _ _ (monitor_completion_perm env')).
  rewrite (monitor_flat_map_perm _ _ _ (monitor_completion_perm env)).
  induction services as [|n l IH]; simpl; [done|].
  by rewrite IH, (monitor_service_notice_same env env').
Qed.

Lemma monitor_run_notices_perm w env env' :
  same_answers env env' → run_notices w env' ≡ₚ run_notices w env.
Proof.
  intros Hsame. unfold run_notices. by rewrite (monitor_service_notices_perm env env').
Qed.

Lemma monitor_count_type_app t (l1 l2 : list Alert) :
  count_type t (l1 ++ l2) = (count_type t l1 + count_type t l2)%nat.
Proof. unfold count_type. by rewrite List.filter_app, length_app. Qed.
Lemma monitor_left_join_row_in {A B} (on : A → B → bool) (a : A) (r : list B) row :
  In row (Rel.left_join_row on a r) →
  row.1 = a ∧ (row.2 = None ∨ ∃ b, row.2 = Some b ∧ on a b = true).
Proof.
  unfold Rel.left_join_row. destruct (List.filter (on a) r) as [|b0 l] eqn:E.
  - intros [<-|[]]. auto.
  - intros (b & <- & Hb)%in_map_iff. split; [done|]. right. exists b. split; [done|].
    rewrite <- E in Hb. by apply filter_In in Hb as [_ ?].
Qed.

Lemma monitor_left_join_in {A B} (on : A → B → bool) (l : list A) (r : list B) row :
  In row (Rel.left_join on l r) →
  In row.1 l ∧ (row.2 = None ∨ ∃ b, row.2 = Some b ∧ on row.1 b = true).
Proof.
  unfold Rel.left_join. intros (a & Ha & Hrow)%in_flat_map.
  apply monitor_left_join_row_in in Hrow as [-> ?]. done.
Qed.

Lemma monitor_count_none {A B} (e : A → option B) (rows : list A) :
  (∀ r, In r rows → e r = None) → Rel.count e rows = 0.
Proof.
  intros Hall. unfold Rel.count.
  replace (List.filter _ rows) with (@nil A); [done|].
  symmetry. induction rows as [|r rows IH]; [done|]. simpl.
  rewrite (Hall r) by (by left). rewrite bool_decide_false by (by intros [? ?]).
  apply IH. intros ? ?. apply Hall. by right.
Qed.

Lemma monitor_sql_ne_same (a : option Z) (i : Z) :
  a = None ∨ a = Some i → Rel.case_when_1 (Rel.sql_ne a (Some i)) = None.
Proof.
  intros [->| ->]; [done|].
  unfold Rel.case_when_1, Rel.sql_ne, Rel.sql_eq. simpl. by rewrite Z.eqb_refl.
Qed.

(** Every row of the join carries the tenant's own id, or NULL, in both
    [tenant_id] columns. *)
Lemma monitor_leakage_join_rows data t r :
  In r (leakage_join data t) →
  r.1.1 = t
  ∧ (r.1.2 ≫= tu_tenant_id = None ∨ r.1.2 ≫= tu_tenant_id = Some (t_id t))
  ∧ (r.2 ≫= tus_tenant_id = None ∨ r.2 ≫= tus_tenant_id = Some (t_id t)).
Proof.
  unfold leakage_join. intros [Hl Hr]%monitor_left_join_in.
  apply monitor_left_join_row_in in Hl as [Ht Hu].
  split; [done|]. split.
  - destruct Hu as [->|(tu & -> & Htu)]; [by left|]. right. simpl.
    unfold same_tenant, Rel.is_true, Rel.sql_eq in Htu.
    destruct (tu_tenant_id tu) as [i|]; [|done].
    destruct (Z.eqb_spec i (t_id t)); [by subst | done].
  - destruct Hr as [->|(tus & -> & Htus)]; [by left|]. right. simpl.
    unfold same_tenant_usage, Rel.is_true, Rel.sql_eq in Htus. rewrite Ht in Htus.
    destruct (tus_tenant_id tus) as [i|]; [|done].
    destruct (Z.eqb_spec i (t_id t)); [by subst | done].
Qed.

Lemma monitor_mismatched_users_zero data t : mismatched_users data t = 0.
Proof.
  unfold mismatched_users. apply monitor_count_none.
  intros r (Ht & Hu & _)%monitor_leakage_join_rows. rewrite Ht.
  by apply monitor_sql_ne_same.
Qed.

Lemma monitor_mismatched_usage_zero data t : mismatched_usage data t = 0.
Proof.
  unfold mismatched_usage. apply monitor_count_none.
  intros r (Ht & _ & Hu)%monitor_leakage_join_rows. rewrite Ht.
  by apply monitor_sql_ne_same.
Qed.

(** The join conditions of the leakage check rule out what its [CASE]s
    count: the statement never returns a row. *)
Lemma monitor_leakage_query_empty data : leakage_query data = [].
Proof.
  unfold leakage_query.
  induction (List.filter active (tenants data)) as [|t ts IH]; [done|].
  simpl. by rewrite monitor_mismatched_users_zero, monitor_mismatched_usage_zero.
Qed.

End MonitorFacts.

(** ** The classifiers, claim by claim *)

Lemma capacity_classifier_policy_witness :
  0 < 10
  ∧ Monitor.user_status_case 10 10 = EXCEEDED
  ∧ Monitor.user_status_case 9 10 = HIGH
  ∧ Monitor.api_status_case 8 10 = OK
  ∧ Production.capacity_case 11 (Some "10") 10 = EXCEEDED.
Proof.
  assert (H10 : 0 < 10) by reflexivity.
  split; [exact H10|].
  destruct (capacity_classifier_policy 10 10 H10) as (He & _).
  destruct (capacity_classifier_policy 9 10 H10) as (_ & Hh & _).
  destruct (capacity_classifier_policy 8 10 H10) as (_ & _ & _ & _ & _ & Ho & _).
  destruct (capacity_classifier_policy 11 10 H10) as (_ & _ & _ & _ & _ & _ & _ & _ & Hp).
  destruct (Hp (Some "10") eq_refl) as (Hpe & _).
  refine (conj (He _) (conj (Hh _ _) (conj (Ho _) (Hpe _)))).
  - discriminate.
  - reflexivity.
  - reflexivity.
  - discriminate.
  - reflexivity.
Defined.

(** At exactly its limit a tenant is HIGH for the production check,
    and at 85 of 100 it is OK. *)
Lemma production_at_limit_is_high :
  Production.capacity_query Sample.at_limit
  = Value [ {| Production.id := 1; Production.name := "acme"; Production.plan := "pro";
               Production.current_users := 10; Production.max_users := 10;
               Production.capacity_status := HIGH |} ]
  ∧ 10 >= 10
  ∧ Production.capacity_case 10 (Some "10") 10 ≠ EXCEEDED
  ∧ (inject_Z 100 * (8 # 10) < inject_Z 85)%Q ∧ 85 < 100
  ∧ Production.capacity_case 85 (Some "100") 100 ≠ HIGH.
Proof. repeat split; try done; vm_compute; done. Qed.





(** ** Readiness of the production check *)

Lemma production_ready_issues (w : RowSource) :
  fst (Production.runProductionHealthCheck w Production.constructor) = Value true
  ↔ connect_error w = None ∧ end_error w = None ∧ Production.run_issues w = [].
Proof.
  destruct (connect_error w) as [e|] eqn:Hc.
  - rewrite (ProductionFacts.production_run_refused w e) by done. simpl.
    split; [done | by intros [? _]].
  - destruct (ProductionFacts.production_run_new w Hc) as (lines & ->). simpl.
    unfold Production.outcome.
    destruct (end_error w) as [e|].
    + split; [done | by intros (_ & ? & _)].
    + split.
      * intros [= H]. by apply bool_decide_eq_true in H.
      * by intros (_ & _ & ->).
Qed.


(** C3, as the code has it. The production run returns true exactly
    when the connection and the disconnection succeed, every statement
    answers, the isolation statement returns no row, no row of the
    capacity statement is EXCEEDED, and there is an active tenant. A
    HIGH row is no condition. *)
Theorem production_ready_iff (w : RowSource) :
  fst (Production.runProductionHealthCheck w Production.constructor) = Value true
  ↔ connect_error w = None
    ∧ end_error w = None
    ∧ statement_error w IsolationCheck = None
    ∧ statement_error w CapacityCheck = None
    ∧ statement_error w TenantCount = None
    ∧ statement_error w OrphanCheck = None
    ∧ Production.isolation_query (database w) = []
    ∧ (∃ rows, Production.capacity_query (database w) = Value rows
               ∧ Forall (λ tenant, Production.capacity_status tenant ≠ EXCEEDED) rows)
    ∧ 0 < Production.tenant_count_query (database w).
Proof.
  rewrite production_ready_issues, ProductionFacts.production_run_issues_nil.
  rewrite ProductionFacts.production_isolation_issues_nil.
  rewrite ProductionFacts.production_capacity_issues_nil.
  rewrite ProductionFacts.production_database_issues_nil.
  split.
  - intros (Hconnect & Hend & (Hq1 & Hrows) & (Hq2 & Hcapacity) & Hq3 & Hq4 & Hcount).
    by repeat split.
  - intros (Hconnect & Hend & Hq1 & Hq2 & Hq3 & Hq4 & Hrows & Hcapacity & Hcount).
    by repeat split.
Qed.

Lemma production_ready_iff_witness :
  fst (Production.runProductionHealthCheck (Sample.reachable Sample.at_limit)
         Production.constructor) = Value true.
Proof.
  apply (production_ready_iff (Sample.reachable Sample.at_limit)).
  repeat split; try reflexivity.
  exists [ {| Production.id := 1; Production.name := "acme"; Production.plan := "pro";
              Production.current_users := 10; Production.max_users := 10;
              Production.capacity_status := HIGH |} ].
  split; [reflexivity|]. repeat constructor. discriminate.
Defined.

(** No violation of either kind, and still not ready: there is no
    active tenant. *)
Lemma not_ready_without_violation :
  connect_error (Sample.reachable Sample.empty) = None
  ∧ Production.isolation_query (database (Sample.reachable Sample.empty)) = []
  ∧ Production.capacity_query (database (Sample.reachable Sample.empty)) = Value []
  ∧ fst (Production.runProductionHealthCheck (Sample.reachable Sample.empty)
           Production.constructor) = Value false.
Proof. repeat split. Qed.

Lemma no_active_tenant (data : Database) :
  (∀ t, t ∈ tenants data → active t = false) →
  Production.tenant_count_query data = 0.
Proof.
  intros H. unfold Production.tenant_count_query.
  replace (List.filter active (tenants data)) with (@nil Tenant); [done|].
  symmetry. induction (tenants data) as [|t ts IH]; [done|]. simpl.
  rewrite (H t) by left. apply IH. intros t' ?. apply H. by right.
Qed.

(** C10. With no active tenant (and a connection and a count statement
    that answer) the production run records 'No active tenants in
    database', does not return true, returns false when the
    disconnection succeeds, and the process exits 1, whatever the other
    checks find. *)
Theorem no_active_tenant_blocks (w : RowSource)
    (Hconnect : connect_error w = None)
    (Hcount : statement_error w TenantCount = None)
    (Hnone : ∀ t, t ∈ tenants (database w) → active t = false) :
  "No active tenants in database" ∈ Production.issues (snd (Production.main w))
  ∧ fst (Production.runProductionHealthCheck w Production.constructor) ≠ Value true
  ∧ (end_error w = None →
     fst (Production.runProductionHealthCheck w Production.constructor) = Value false)
  ∧ fst (Production.main w) = 1.
Proof.
  apply no_active_tenant in Hnone.
  assert (Hdb : Production.database_issues w = ["No active tenants in database"]).
  { unfold Production.database_issues. by rewrite Hcount, Hnone. }
  assert (Hissues : Production.run_issues w ≠ []).
  { unfold Production.run_issues. rewrite Hdb. intros H.
    apply app_eq_nil in H as [_ H]. by apply app_eq_nil in H as [_ H]. }
  unfold Production.main, Production.exit_of.
  destruct (ProductionFacts.production_run_new w Hconnect) as (lines & ->). simpl.
  unfold Production.outcome.
  assert (Hin : "No active tenants in database" ∈ Production.run_issues w).
  { unfold Production.run_issues. rewrite Hdb, !elem_of_app. right. right. by left. }
  destruct (end_error w) as [e|]; simpl.
  - done.
  - rewrite bool_decide_eq_false_2 by done. done.
Qed.

Lemma no_active_tenant_blocks_witness :
  connect_error (Sample.reachable Sample.empty) = None
  ∧ statement_error (Sample.reachable Sample.empty) TenantCount = None
  ∧ fst (Production.main (Sample.reachable Sample.empty)) = 1.
Proof.
  split; [reflexivity|]. split; [reflexivity|].
  apply (no_active_tenant_blocks (Sample.reachable Sample.empty)); try reflexivity.
  intros t Ht. simpl in Ht. by apply elem_of_nil in Ht.
Defined.

(** ** Orphaned rows *)

Lemma production_orphans_counted (data : Database) (tu : TenantUser) :
  tu ∈ tenant_users data → Production.orphaned data tu →
  0 < Production.orphan_query data.
Proof.
  intros Hin Ho.
  apply (MonitorFacts.monitor_orphans_positive
           Production.owner (tenant_users data) data tu Hin).
  intros t Ht. by apply MonitorFacts.monitor_sql_eq_false, Ho.
Qed.

Lemma owner_matches (tid : option Z) (t : Tenant) :
  Rel.is_true (Rel.sql_eq tid (Some (t_id t))) = true ↔ tid = Some (t_id t).
Proof.
  destruct tid as [i|]; simpl; [|done].
  destruct (Z.eqb_spec i (t_id t)); split; (congruence || done).
Qed.

Lemma filter_owner_nil (data : Database) (tid : option Z) :
  List.filter (λ t, Rel.is_true (Rel.sql_eq tid (Some (t_id t)))) (tenants data) = []
  ↔ references_no_tenant data tid = true.
Proof.
  unfold references_no_tenant. destruct tid as [i|].
  - rewrite bool_decide_eq_true.
    induction (tenants data) as [|t ts IH]; simpl.
    + split; [by intros _ ?%elem_of_nil | done].
    + rewrite not_elem_of_cons.
      destruct (Z.eqb_spec i (t_id t)) as [->|Hne]; simpl.
      * split; [done | by intros [? _]].
      * rewrite IH. split; [done | by intros [_ ?]].
  - split; [done|]. intros _. by induction (tenants data).
Qed.

Lemma orphans_exact {A} (on : A → Tenant → bool) (key : A → option Z)
    (child : list A) (data : Database) :
  (∀ x t, on x t = Rel.is_true (Rel.sql_eq (key x) (Some (t_id t)))) →
  Monitor.orphans on child data
  = Z.of_nat (length (List.filter (λ x, references_no_tenant data (key x)) child)).
Proof.
  intros Hon. unfold Monitor.orphans, Rel.left_join. f_equal.
  induction child as [|x child IH]; [done|].
  cbn [flat_map]. rewrite List.filter_app, length_app, IH. cbn [List.filter].
  unfold Rel.left_join_row.
  replace (List.filter (on x) (tenants data))
    with (List.filter (λ t, Rel.is_true (Rel.sql_eq (key x) (Some (t_id t))))
            (tenants data))
    by (apply List.filter_ext; intros t; by rewrite Hon).
  pose proof (filter_owner_nil data (key x)) as Hnil.
  destruct (List.filter _ (tenants data)) as [|t ts].
  - rewrite (proj1 Hnil eq_refl). done.
  - destruct (references_no_tenant data (key x)); [discriminate (proj2 Hnil eq_refl)|].
    set (l := t :: ts). clearbody l.
    replace (List.filter _ (map (λ b, (x, Some b)) l))
      with (@nil (A * option Tenant)); [done|].
    clear. induction l as [|y l IH]; [done|]. simpl. done.
Qed.

(** C4, as the code has it. In the monitor, when the connection and the
    two statements of the isolation check answer, a [tenant_users] row
    that references no tenant makes the number of such rows positive
    and puts the message of that number, for the table
    [tenant_users], among the returned violations; a
    [tenant_usage_stats] row does the same for its own table.  In both
    cases the check raises one CRITICAL alert of the database that
    lists the violations, stamped with the second date of the run, and
    the run does not return true: the process exits 1.  In the
    production check an orphaned [tenant_users] row is counted and,
    with an active tenant, shown on one console line; the check
    returns true and records no issue. *)
Theorem orphan_handling (w : RowSource) (env : Monitor.Environment) :
  (connect_error w = None →
   statement_error w LeakageCheck = None →
   statement_error w OrphanCheckAll = None →
   let run := Monitor.runFullHealthCheck w env Monitor.constructor in
   let alerted :=
     (∃ alert, alert ∈ Monitor.alerts (snd run)
               ∧ Monitor.type alert = Monitor.CRITICAL
               ∧ Monitor.service alert = "Database"
               ∧ Monitor.message alert
                 = "Tenant isolation violations: "
                   +:+ Monitor.join ", " (Monitor.violations (snd run))
               ∧ Monitor.timestamp alert = Monitor.now env 1)
     ∧ fst run ≠ Value true
     ∧ fst (Monitor.main w env) = 1 in
   (∀ tu, tu ∈ tenant_users (database w) →
          Monitor.orphaned_user (database w) tu →
          let n := Z.of_nat (length (List.filter
                                       (λ tu, references_no_tenant (database w)
                                                (tu_tenant_id tu))
                                       (tenant_users (database w)))) in
          0 < n
          ∧ {| Monitor.table_name := "tenant_users"; Monitor.orphan_count := n |}
            ∈ Monitor.orphan_query (database w)
          ∧ pretty n +:+ " orphaned records in tenant_users table"
            ∈ Monitor.violations (snd run)
          ∧ alerted)
   ∧ (∀ tus, tus ∈ tenant_usage_stats (database w) →
             Monitor.orphaned_usage (database w) tus →
             let n := Z.of_nat (length (List.filter
                                          (λ tus, references_no_tenant (database w)
                                                    (tus_tenant_id tus))
                                          (tenant_usage_stats (database w)))) in
             0 < n
             ∧ {| Monitor.table_name := "tenant_usage_stats"; Monitor.orphan_count := n |}
               ∈ Monitor.orphan_query (database w)
             ∧ pretty n +:+ " orphaned records in tenant_usage_stats table"
               ∈ Monitor.violations (snd run)
             ∧ alerted))
  ∧ (∀ tu, tu ∈ tenant_users (database w) →
           Production.orphaned (database w) tu →
           0 < Production.orphan_query (database w)
           ∧ ∀ s, Production.db s = true →
                  statement_error w TenantCount = None →
                  statement_error w OrphanCheck = None →
                  0 < Production.tenant_count_query (database w) →
                  Production.checkDatabaseHealth w s
                  = (Value true,
                     Production.after s []
                       [ "Database Health Check";
                         "Database healthy - "
                           +:+ pretty (Production.tenant_count_query (database w))
                           +:+ " active tenants";
                         "Found " +:+ pretty (Production.orphan_query (database w))
                           +:+ " orphaned tenant_users records" ]
                       [DbQuery TenantCount; DbQuery OrphanCheck])).
Proof.
  split.
  - intros Hconnect Hleakage Horphans run alerted.
    assert (Hreported : ∀ v, v ∈ Monitor.orphan_violations (database w) → alerted).
    { intros v Hv.
      assert (Hvio : v ∈ Monitor.isolation_violations w).
      { unfold Monitor.isolation_violations. rewrite Hleakage, Horphans.
        apply elem_of_app. by right. }
      assert (Hnotice :
                Monitor.isolation_notices w
                = [ {| Monitor.notice_type := Monitor.CRITICAL;
                       Monitor.notice_service := "Database";
                       Monitor.notice_message :=
                         "Tenant isolation violations: "
                         +:+ Monitor.join ", " (Monitor.isolation_violations w) |} ]).
      { unfold Monitor.isolation_notices. rewrite Hleakage, Horphans.
        destruct (Monitor.isolation_violations w); [by apply elem_of_nil in Hvio | done]. }
      assert (Hcritical :
                Monitor.count_notices Monitor.CRITICAL (Monitor.run_notices w env) ≠ 0%nat).
      { unfold Monitor.run_notices.
        rewrite Hnotice, MonitorFacts.monitor_count_notices_app.
        unfold Monitor.count_notices at 1. simpl. lia. }
      unfold alerted, run, Monitor.main, Monitor.exit_of.
      destruct (MonitorFacts.monitor_run_new w env Hconnect) as (lines & ->).
      cbn [fst snd Monitor.alerts Monitor.violations].
      split.
      { eexists. split.
        - unfold Monitor.run_notices. rewrite Hnotice. by left.
        - done. }
      unfold Monitor.outcome.
      split; (destruct (end_error w); [done|]; by rewrite bool_decide_eq_false_2). }
    assert (Hvio : ∀ v, v ∈ Monitor.orphan_violations (database w) →
                        v ∈ Monitor.violations (snd run)).
    { intros v Hv. unfold run.
      destruct (MonitorFacts.monitor_run_new w env Hconnect) as (lines & ->).
      cbn [snd Monitor.violations]. unfold Monitor.isolation_violations.
      rewrite Hleakage, Horphans. apply elem_of_app. by right. }
    split.
    + intros tu Hin Ho n.
      destruct (MonitorFacts.monitor_user_orphans_reported _ _ Hin Ho) as (Hpos & Hmsg).
      rewrite (orphans_exact Monitor.user_owner tu_tenant_id) in Hpos, Hmsg by done.
      split; [done|]. split.
      { unfold Monitor.orphan_query.
        rewrite (orphans_exact Monitor.user_owner tu_tenant_id) by done. by left. }
      split; [by apply Hvio | by apply (Hreported _ Hmsg)].
    + intros tus Hin Ho n.
      destruct (MonitorFacts.monitor_usage_orphans_reported _ _ Hin Ho) as (Hpos & Hmsg).
      rewrite (orphans_exact Monitor.usage_owner tus_tenant_id) in Hpos, Hmsg by done.
      split; [done|]. split.
      { unfold Monitor.orphan_query.
        rewrite (orphans_exact Monitor.usage_owner tus_tenant_id) by done.
        right. by left. }
      split; [by apply Hvio | by apply (Hreported _ Hmsg)].
  - intros tu Hin Ho.
    pose proof (production_orphans_counted _ _ Hin Ho) as Hpos.
    split; [done|]. intros s Hdb Hq Hq' Hcount.
    by apply ProductionFacts.production_checkDatabaseHealth_orphans.
Qed.

Lemma orphan_handling_witness :
  pretty 1 +:+ " orphaned records in tenant_users table"
  ∈ Monitor.violations
      (snd (Monitor.runFullHealthCheck (Sample.reachable Sample.with_orphan)
              Sample.healthy_services Monitor.constructor))
  ∧ fst (Monitor.main (Sample.reachable Sample.with_orphan) Sample.healthy_services) = 1
  ∧ 0 < Production.orphan_query (database (Sample.reachable Sample.with_orphan)).
Proof.
  assert (Hin : Sample.user 2 99
                ∈ tenant_users (database (Sample.reachable Sample.with_orphan))).
  { right. by left. }
  assert (Ho : Monitor.orphaned_user (database (Sample.reachable Sample.with_orphan))
                 (Sample.user 2 99)).
  { intros t [->|[]%elem_of_nil]%elem_of_cons. done. }
  destruct (orphan_handling (Sample.reachable Sample.with_orphan) Sample.healthy_services)
    as [Hmonitor Hproduction].
  destruct (Hmonitor eq_refl eq_refl eq_refl) as [Husers _].
  destruct (Husers (Sample.user 2 99) Hin Ho) as (_ & _ & Hmsg & _ & _ & Hexit).
  split; [exact Hmsg|]. split; [exact Hexit|].
  apply (Hproduction (Sample.user 2 99) Hin Ho).
Defined.

(** The production check is ready although a [tenant_users] row
    references tenant 99, which does not exist. *)
Lemma production_ready_despite_orphan :
  Sample.user 2 99 ∈ tenant_users Sample.with_orphan
  ∧ Production.orphaned Sample.with_orphan (Sample.user 2 99)
  ∧ Production.orphan_query Sample.with_orphan = 1
  ∧ fst (Production.runProductionHealthCheck (Sample.reachable Sample.with_orphan)
           Production.constructor) = Value true
  ∧ Production.issues
      (snd (Production.runProductionHealthCheck (Sample.reachable Sample.with_orphan)
              Production.constructor)) = []
  ∧ fst (Production.main (Sample.reachable Sample.with_orphan)) = 0.
Proof.
  split; [right; by left|]. split.
  { intros t [->|[]%elem_of_nil]%elem_of_cons. done. }
  repeat split.
Qed.

(** ** Failures and exit codes *)

(** C6. In the production check a refused connection ends the run
    before any statement is sent: the run fails with the connection's
    error, records nothing, and the process exits 1. Once connected,
    the three checks send their statements in order whatever fails,
    the issues of the run are those of the three checks one after the
    other, a failing statement adds exactly the failure issue of its
    own check, and what a check records depends on no other check's
    statement. *)
Theorem query_and_connection_failures (w : RowSource) :
  let run := Production.runProductionHealthCheck w Production.constructor in
  (∀ e, connect_error w = Some e →
        fst run = Error e
        ∧ Production.calls (snd run) = [DbConnect]
        ∧ Production.issues (snd run) = []
        ∧ fst (Production.main w) = 1)
  ∧ (connect_error w = None →
     Production.calls (snd run)
     = ([DbConnect; DbQuery IsolationCheck; DbQuery CapacityCheck]
        ++ Production.database_calls w ++ [DbEnd])%list
     ∧ DbQuery TenantCount ∈ Production.database_calls w
     ∧ Production.issues (snd run)
       = (Production.isolation_issues w ++ Production.capacity_issues w
          ++ Production.database_issues w)%list
     ∧ (∀ e, statement_error w IsolationCheck = Some e →
             Production.isolation_issues w = ["Isolation check failure: " +:+ e])
     ∧ (∀ e, statement_error w CapacityCheck = Some e →
             Production.capacity_issues w = ["Capacity check failure: " +:+ e])
     ∧ (∀ e, statement_error w TenantCount = Some e →
             Production.database_issues w = ["Database health failure: " +:+ e]))
  ∧ (∀ w', database w' = database w →
           (statement_error w' IsolationCheck = statement_error w IsolationCheck →
            Production.isolation_issues w' = Production.isolation_issues w)
           ∧ (statement_error w' CapacityCheck = statement_error w CapacityCheck →
              Production.capacity_issues w' = Production.capacity_issues w)
           ∧ (statement_error w' TenantCount = statement_error w TenantCount →
              statement_error w' OrphanCheck = statement_error w OrphanCheck →
              Production.database_issues w' = Production.database_issues w)).
Proof.
  simpl. split; [|split].
  - intros e Hc. unfold Production.main, Production.exit_of.
    by rewrite (ProductionFacts.production_run_refused w e).
  - intros Hc. destruct (ProductionFacts.production_run_new w Hc) as (lines & ->). simpl.
    split; [done|]. split.
    { unfold Production.database_calls.
      destruct (statement_error w TenantCount); [by left|].
      destruct (0 <? _); by left. }
    split; [done|]. split; [|split].
    + intros e He. unfold Production.isolation_issues. by rewrite He.
    + intros e He. unfold Production.capacity_issues. by rewrite He.
    + intros e He. unfold Production.database_issues. by rewrite He.
  - intros w' Hdata. split; [|split].
    + intros He. unfold Production.isolation_issues. by rewrite He, Hdata.
    + intros He. unfold Production.capacity_issues. by rewrite He, Hdata.
    + intros He He'. unfold Production.database_issues. by rewrite He, He', Hdata.
Qed.

Lemma query_and_connection_failures_witness :
  connect_error Sample.unreachable = Some "connect ECONNREFUSED"
  ∧ Production.calls
      (snd (Production.runProductionHealthCheck Sample.unreachable Production.constructor))
    = [DbConnect]
  ∧ connect_error (Sample.leakage_fails Sample.empty) = None
  ∧ DbQuery TenantCount ∈ Production.database_calls (Sample.leakage_fails Sample.empty).
Proof.
  destruct (query_and_connection_failures Sample.unreachable) as (Hrefused & _).
  destruct (Hrefused _ eq_refl) as (_ & Hcalls & _).
  destruct (query_and_connection_failures (Sample.leakage_fails Sample.empty))
    as (_ & Hconnected & _).
  destruct (Hconnected eq_refl) as (_ & Hsent & _).
  exact (conj eq_refl (conj Hcalls (conj eq_refl Hsent))).
Defined.

Lemma exit_code_zero (r : result bool) : Js.exit_code r = 0 ↔ r = Value true.
Proof. destruct r as [[]|]; simpl; split; (done || lia). Qed.

Lemma exit_code_one (r : result bool) : Js.exit_code r = 1 ↔ r ≠ Value true.
Proof. destruct r as [[]|]; simpl; split; (done || lia). Qed.

Lemma production_main_exit w :
  fst (Production.main w)
  = Js.exit_code (fst (Production.runProductionHealthCheck w Production.constructor)).
Proof.
  unfold Production.main, Production.exit_of.
  by destruct (Production.runProductionHealthCheck w Production.constructor) as [[] ?].
Qed.





(** ** Two runs *)

Lemma production_run_reads_issues (w : RowSource) (clock clock' : nat → string)
    (s s' : Production.State) :
  Production.issues s = Production.issues s' →
  let run := Production.runProductionHealthCheck (at_dates w clock) s in
  let run' := Production.runProductionHealthCheck (at_dates w clock') s' in
  fst run = fst run'
  ∧ Production.issues (snd run) = Production.issues (snd run')
  ∧ ∃ lines,
      Production.console (snd run)
      = (Production.console s
         ++ "PRODUCTION TENANT HEALTH VALIDATOR" :: clock (Production.dates s) :: lines)%list
      ∧ Production.console (snd run')
        = (Production.console s'
           ++ "PRODUCTION TENANT HEALTH VALIDATOR" :: clock' (Production.dates s')
              :: lines)%list.
Proof.
  intros Hs run run'. subst run run'. destruct (connect_error w) as [e|] eqn:Hc.
  - rewrite (ProductionFacts.production_run_refused (at_dates w clock) e s),
      (ProductionFacts.production_run_refused (at_dates w clock') e s') by done.
    simpl. rewrite Hs. split; [done|]. split; [done|].
    eexists. split; by rewrite <- app_assoc.
  - destruct (ProductionFacts.production_run_clocks w (Production.issues s) Hc)
      as (lines & Hrun).
    rewrite (Hrun clock s), (Hrun clock' s') by done. simpl. rewrite Hs.
    split; [done|]. split; [done|]. exists lines. split; by rewrite <- app_assoc.
Qed.

Lemma production_run_appends (w : RowSource) (s : Production.State) :
  connect_error w = None →
  Production.issues (snd (Production.runProductionHealthCheck w s))
  = (Production.issues s ++ Production.run_issues w)%list.
Proof.
  intros Hc.
  destruct (ProductionFacts.production_run_connected w (Production.issues s) Hc)
    as (lines & Hrun).
  by rewrite Hrun.
Qed.

Lemma production_second_run (w : RowSource) (clock clock' : nat → string) :
  fst (Production.runProductionHealthCheck (at_dates w clock')
         (snd (Production.runProductionHealthCheck (at_dates w clock)
                 Production.constructor)))
  = fst (Production.runProductionHealthCheck (at_dates w clock) Production.constructor).
Proof.
  destruct (connect_error w) as [e|] eqn:Hc.
  - by rewrite (ProductionFacts.production_run_refused (at_dates w clock) e),
      (ProductionFacts.production_run_refused (at_dates w clock') e).
  - destruct (ProductionFacts.production_run_clocks w [] Hc) as (l1 & H1).
    rewrite (H1 clock Production.constructor) by done. simpl.
    destruct (ProductionFacts.production_run_clocks w (Production.run_issues w) Hc)
      as (l2 & H2).
    rewrite H2 by done. simpl.
    unfold Production.outcome. destruct (end_error w); [done|]. f_equal.
    destruct (Production.run_issues w); done.
Qed.

Lemma monitor_run_reads_alerts (w : RowSource) (env env' : Monitor.Environment)
    (s s' : Monitor.State) :
  Monitor.same_answers env env' →
  map Monitor.notice_of (Monitor.alerts s) = map Monitor.notice_of (Monitor.alerts s') →
  let run := Monitor.runFullHealthCheck w env s in
  let run' := Monitor.runFullHealthCheck w env' s' in
  fst run = fst run'
  ∧ map Monitor.notice_of (Monitor.alerts (snd run))
    ≡ₚ map Monitor.notice_of (Monitor.alerts (snd run'))
  ∧ (Monitor.completion env' = Monitor.completion env →
     map Monitor.notice_of (Monitor.alerts (snd run))
     = map Monitor.notice_of (Monitor.alerts (snd run'))
     ∧ ∃ lines,
         Monitor.console (snd run)
         = (Monitor.console s
            ++ "TENANT HEALTH MONITORING" :: Monitor.now env (Monitor.dates s)
               :: lines)%list
         ∧ Monitor.console (snd run')
           = (Monitor.console s'
              ++ "TENANT HEALTH MONITORING" :: Monitor.now env' (Monitor.dates s')
                 :: lines)%list).
Proof.
  intros Hsame Hs run run'. subst run run'. destruct (connect_error w) as [e|] eqn:Hc.
  - rewrite (MonitorFacts.monitor_run_refused w env e),
      (MonitorFacts.monitor_run_refused w env' e) by done.
    cbn [fst snd Monitor.alerts Monitor.console Monitor.after Monitor.connected
         Monitor.started Monitor.stamped imap].
    rewrite !app_nil_r, Hs.
    split; [done|]. split; [done|]. intros _. split; [done|].
    eexists. split; by rewrite <- app_assoc.
  - destruct (MonitorFacts.monitor_run_connected w env
                (map Monitor.notice_of (Monitor.alerts s)) Hc) as (lines & Hrun).
    destruct (MonitorFacts.monitor_run_connected w env'
                (map Monitor.notice_of (Monitor.alerts s')) Hc) as (lines' & Hrun').
    rewrite (Hrun env s) by done.
    split; [|split].
    + rewrite (Hrun' env' s') by done. cbn [fst]. rewrite <- Hs.
      unfold Monitor.outcome. destruct (end_error w); [done|].
      rewrite !MonitorFacts.monitor_count_notices_app.
      by rewrite (MonitorFacts.monitor_count_notices_perm _ _ _
                    (MonitorFacts.monitor_run_notices_perm w env env' Hsame)).
    + rewrite (Hrun' env' s') by done.
      cbn [snd Monitor.alerts Monitor.after Monitor.cleared Monitor.connected
           Monitor.started].
      rewrite !map_app, !MonitorFacts.monitor_notice_of_stamped, <- Hs.
      f_equiv. symmetry. by apply MonitorFacts.monitor_run_notices_perm.
    + intros Horder. rewrite (Hrun env' s') by done.
      cbn [snd Monitor.alerts Monitor.console Monitor.after Monitor.cleared
           Monitor.connected Monitor.started].
      rewrite !map_app, !MonitorFacts.monitor_notice_of_stamped, Hs.
      split; [done|]. exists lines. split; by rewrite <- app_assoc.
Qed.

Lemma monitor_run_appends (w : RowSource) (env : Monitor.Environment) (s : Monitor.State) :
  connect_error w = None →
  Monitor.alerts (snd (Monitor.runFullHealthCheck w env s))
  = (Monitor.alerts s
     ++ Monitor.stamped env (S (Monitor.dates s)) (Monitor.run_notices w env))%list
  ∧ Monitor.violations (snd (Monitor.runFullHealthCheck w env s))
    = Monitor.isolation_violations w.
Proof.
  intros Hc.
  destruct (MonitorFacts.monitor_run_connected w env
              (map Monitor.notice_of (Monitor.alerts s)) Hc) as (lines & Hrun).
  by rewrite (Hrun env s).
Qed.

Lemma monitor_second_run (w : RowSource) (env env' : Monitor.Environment) :
  Monitor.same_answers env env' →
  fst (Monitor.runFullHealthCheck w env'
         (snd (Monitor.runFullHealthCheck w env Monitor.constructor)))
  = fst (Monitor.runFullHealthCheck w env Monitor.constructor).
Proof.
  intros Hsame. destruct (connect_error w) as [e|] eqn:Hc.
  - by rewrite (MonitorFacts.monitor_run_refused w env e),
      (MonitorFacts.monitor_run_refused w env' e).
  - destruct (MonitorFacts.monitor_run_new w env Hc) as (l1 & ->). cbn [fst snd].
    destruct (MonitorFacts.monitor_run_connected w env' (Monitor.run_notices w env) Hc)
      as (l2 & H2).
    rewrite (H2 env') by (done || apply MonitorFacts.monitor_notice_of_stamped).
    cbn [fst].
    unfold Monitor.outcome. destruct (end_error w); [done|]. f_equal.
    rewrite MonitorFacts.monitor_count_notices_app.
    rewrite (MonitorFacts.monitor_count_notices_perm _ _ _
               (MonitorFacts.monitor_run_notices_perm w env env' Hsame)).
    destruct (Monitor.count_notices Monitor.CRITICAL (Monitor.run_notices w env)); done.
Qed.

(** C9, as the code has it. Take two runs on an unchanged row source,
    under two clocks and, for the monitor, in two environments in
    which the services answer alike.  The production check reads
    nothing of its object but the issues recorded so far: on two
    objects that agree on them the runs give the same result and the
    same issues afterwards, and print the same lines but for the date
    of the banner.  The monitor reads nothing but what the alerts
    recorded so far say: the runs give the same result and the same
    alerts up to their timestamps and their order, and, when the
    requests to the services settle in the same order, the same alerts
    in the same order up to their timestamps and the same lines but
    for the date.  The record is kept: a connected run appends to it,
    the monitor stamping each new alert with the next reading of its
    clock, so that a second run on the same object returns the same
    boolean as the first but on a longer record. *)
Theorem runs_on_an_unchanged_row_source (w : RowSource)
    (clock clock' : nat → string) (env env' : Monitor.Environment) :
  (∀ s s', Production.issues s = Production.issues s' →
     let run := Production.runProductionHealthCheck (at_dates w clock) s in
     let run' := Production.runProductionHealthCheck (at_dates w clock') s' in
     fst run = fst run'
     ∧ Production.issues (snd run) = Production.issues (snd run')
     ∧ ∃ lines,
         Production.console (snd run)
         = (Production.console s
            ++ "PRODUCTION TENANT HEALTH VALIDATOR" :: clock (Production.dates s)
               :: lines)%list
         ∧ Production.console (snd run')
           = (Production.console s'
              ++ "PRODUCTION TENANT HEALTH VALIDATOR" :: clock' (Production.dates s')
                 :: lines)%list)
  ∧ (connect_error w = None →
     ∀ s, Production.issues (snd (Production.runProductionHealthCheck w s))
          = (Production.issues s ++ Production.run_issues w)%list)
  ∧ fst (Production.runProductionHealthCheck (at_dates w clock')
           (snd (Production.runProductionHealthCheck (at_dates w clock)
                   Production.constructor)))
    = fst (Production.runProductionHealthCheck (at_dates w clock) Production.constructor)
  ∧ (Monitor.same_answers env env' →
     (∀ s s',
        map Monitor.notice_of (Monitor.alerts s)
        = map Monitor.notice_of (Monitor.alerts s') →
        let run := Monitor.runFullHealthCheck w env s in
        let run' := Monitor.runFullHealthCheck w env' s' in
        fst run = fst run'
        ∧ map Monitor.notice_of (Monitor.alerts (snd run))
          ≡ₚ map Monitor.notice_of (Monitor.alerts (snd run'))
        ∧ (Monitor.completion env' = Monitor.completion env →
           map Monitor.notice_of (Monitor.alerts (snd run))
           = map Monitor.notice_of (Monitor.alerts (snd run'))
           ∧ ∃ lines,
               Monitor.console (snd run)
               = (Monitor.console s
                  ++ "TENANT HEALTH MONITORING" :: Monitor.now env (Monitor.dates s)
                     :: lines)%list
               ∧ Monitor.console (snd run')
                 = (Monitor.console s'
                    ++ "TENANT HEALTH MONITORING"
                       :: Monitor.now env' (Monitor.dates s') :: lines)%list))
     ∧ fst (Monitor.runFullHealthCheck w env'
              (snd (Monitor.runFullHealthCheck w env Monitor.constructor)))
       = fst (Monitor.runFullHealthCheck w env Monitor.constructor))
  ∧ (connect_error w = None →
     ∀ s, Monitor.alerts (snd (Monitor.runFullHealthCheck w env s))
          = (Monitor.alerts s
             ++ Monitor.stamped env (S (Monitor.dates s))
                  (Monitor.run_notices w env))%list
          ∧ Monitor.violations (snd (Monitor.runFullHealthCheck w env s))
            = Monitor.isolation_violations w).
Proof.
  split; [intros s s'; apply production_run_reads_issues|].
  split; [intros Hc s; by apply production_run_appends|].
  split; [apply production_second_run|].
  split.
  - intros Hsame.
    split; [intros s s'; by apply monitor_run_reads_alerts|].
    by apply monitor_second_run.
  - intros Hc s. by apply monitor_run_appends.
Qed.

Lemma runs_on_an_unchanged_row_source_witness :
  fst (Monitor.runFullHealthCheck (Sample.reachable Sample.over_limit)
         Sample.healthy_services Monitor.constructor)
  = fst (Monitor.runFullHealthCheck (Sample.reachable Sample.over_limit)
           Sample.payments_first Monitor.constructor)
  ∧ Production.issues
      (snd (Production.runProductionHealthCheck (Sample.reachable Sample.over_limit)
              Production.constructor))
    = ([] ++ Production.run_issues (Sample.reachable Sample.over_limit))%list.
Proof.
  destruct (runs_on_an_unchanged_row_source (Sample.reachable Sample.over_limit)
              (date_at (Sample.reachable Sample.over_limit))
              (date_at (Sample.reachable Sample.over_limit))
              Sample.healthy_services Sample.payments_first)
    as (_ & Happend & _ & Hmonitor & _).
  destruct Hmonitor as [Hruns _]; [done|].
  destruct (Hruns Monitor.constructor Monitor.constructor eq_refl) as (Hresult & _).
  exact (conj Hresult (Happend eq_refl Production.constructor)).
Defined.

(** A second run on the same object lists the findings of the first
    run again. *)
Lemma second_run_repeats_issues :
  let w := Sample.reachable Sample.over_limit in
  let first := Production.runProductionHealthCheck w Production.constructor in
  let second := Production.runProductionHealthCheck w (snd first) in
  Production.issues (snd first) = ["Tenant capacity exceeded: acme"]
  ∧ Production.issues (snd second)
    = ["Tenant capacity exceeded: acme"; "Tenant capacity exceeded: acme"]
  ∧ Production.issues (snd second) ≠ Production.issues (snd first)
  ∧ "1 critical tenant issues detected:" ∈ Production.console (snd first)
  ∧ "2 critical tenant issues detected:" ∈ Production.console (snd second)
  ∧ "2 critical tenant issues detected:" ∉ Production.console (snd first).
Proof.
  intros w first second.
  repeat split; try (vm_compute; done);
    unfold first, second, w; refine (bool_decide_unpack _ _); vm_compute; exact I.
Qed.

(** ** The leakage message and the percentage *)

(** C8. A row of the leakage statement has the four columns of its
    CTE; [mismatched_subscriptions] is none of them, so the message
    interpolates [undefined] for it, and the message is the same
    whatever [mismatched_usage] holds. *)
Theorem leakage_message_reads_a_missing_column
    (tenant_id : Z) (tenant_name : string) (mismatched_users mismatched_usage : Z) :
  let row := Monitor.leakage_row tenant_id tenant_name mismatched_users mismatched_usage in
  dom row
  = ({["tenant_id"; "tenant_name"; "mismatched_users"; "mismatched_usage"]} : gset string)
  ∧ row !! "mismatched_subscriptions" = None
  ∧ row !! "mismatched_usage" = Some (JsString (pretty mismatched_usage))
  ∧ Monitor.leakage_message row
    = "Tenant " +:+ tenant_name +:+ ": " +:+ pretty mismatched_users
      +:+ " user violations, undefined subscription violations"
  ∧ ∀ other,
      Monitor.leakage_message
        (Monitor.leakage_row tenant_id tenant_name mismatched_users other)
      = Monitor.leakage_message row.
Proof.
  assert (Hmsg : ∀ usage,
            Monitor.leakage_message
              (Monitor.leakage_row tenant_id tenant_name mismatched_users usage)
            = "Tenant " +:+ tenant_name +:+ ": " +:+ pretty mismatched_users
              +:+ " user violations, undefined subscription violations").
  { intros usage. unfold Monitor.leakage_message, Monitor.leakage_row.
    rewrite lookup_insert_ne, lookup_insert_eq by done.
    rewrite (lookup_insert_ne _ "tenant_id" "mismatched_users") by done.
    rewrite (lookup_insert_ne _ "tenant_name" "mismatched_users") by done.
    rewrite lookup_insert_eq.
    rewrite !lookup_insert_ne, lookup_empty by done. done. }
  intros row. unfold row. split; [|split; [|split; [|split]]].
  - unfold Monitor.leakage_row. rewrite !dom_insert_L, dom_empty_L. set_solver.
  - unfold Monitor.leakage_row. by rewrite !lookup_insert_ne, lookup_empty.
  - unfold Monitor.leakage_row. rewrite !lookup_insert_ne by done.
    by rewrite lookup_insert_eq.
  - apply Hmsg.
  - intros other. by rewrite !Hmsg.
Qed.

(** ** Binary64 arithmetic of the percentage *)

Module Float8Facts.
Import Sql.

(** The number of binary digits. *)
Lemma digits2_pos_bounds (p : positive) :
  2 ^ (Z.pos (digits2_pos p) - 1) <= Z.pos p < 2 ^ Z.pos (digits2_pos p).
Proof.
  induction p as [p IH|p IH|]; simpl digits2_pos.
  - rewrite Pos2Z.inj_succ. replace (Z.succ (Z.pos (digits2_pos p)) - 1)
      with (Z.pos (digits2_pos p)) by lia.
    rewrite Z.pow_succ_r by lia.
    replace (Z.pos (digits2_pos p)) with (Z.pos (digits2_pos p) - 1 + 1) at 1 by lia.
    rewrite Z.pow_add_r by lia. lia.
  - rewrite Pos2Z.inj_succ. replace (Z.succ (Z.pos (digits2_pos p)) - 1)
      with (Z.pos (digits2_pos p)) by lia.
    rewrite Z.pow_succ_r by lia.
    replace (Z.pos (digits2_pos p)) with (Z.pos (digits2_pos p) - 1 + 1) at 1 by lia.
    rewrite Z.pow_add_r by lia. lia.
  - simpl. lia.
Qed.

Lemma digits2_pos_unique (p : positive) (d : Z) :
  2 ^ (d - 1) <= Z.pos p < 2 ^ d → Z.pos (digits2_pos p) = d.
Proof.
  intros [Hlo Hhi]. pose proof (digits2_pos_bounds p) as [Hlo' Hhi'].
  assert (0 < d).
  { destruct (Z.ltb_spec 0 d); [done|]. rewrite Z.pow_neg_r in Hlo by lia.
    destruct (Z.eqb_spec d 0); [subst; simpl in Hhi; lia|].
    rewrite Z.pow_neg_r in Hhi by lia. lia. }
  destruct (Z.lt_trichotomy (Z.pos (digits2_pos p)) d) as [Hlt|[Heq|Hgt]]; [|done|].
  - assert (2 ^ Z.pos (digits2_pos p) <= 2 ^ (d - 1)) by (apply Z.pow_le_mono_r; lia).
    lia.
  - assert (2 ^ d <= 2 ^ (Z.pos (digits2_pos p) - 1)) by (apply Z.pow_le_mono_r; lia).
    lia.
Qed.

(** Shifting right keeps the quotient. *)
Lemma shr_1_m (mrs : shr_record) :
  0 <= shr_m mrs → shr_m (shr_1 mrs) = shr_m mrs / 2.
Proof.
  destruct mrs as [m r s]. cbn [shr_m shr_1]. intros Hm.
  destruct m as [|[p|p|]|p]; cbn [shr_m]; try done; try lia.
  - apply Z.div_unique with 1; lia.
  - apply Z.div_unique with 0; lia.
Qed.

Lemma shr_1_nonneg (mrs : shr_record) : 0 <= shr_m mrs → 0 <= shr_m (shr_1 mrs).
Proof. intros H. rewrite shr_1_m by done. apply Z.div_pos; lia. Qed.

Lemma pow2_xO (n : positive) : 2 ^ Z.pos n~0 = 2 ^ Z.pos n * 2 ^ Z.pos n.
Proof.
  replace (Z.pos n~0) with (Z.pos n + Z.pos n) by lia.
  apply Z.pow_add_r; lia.
Qed.

Lemma pow2_xI (n : positive) : 2 ^ Z.pos n~1 = 2 * (2 ^ Z.pos n * 2 ^ Z.pos n).
Proof.
  replace (Z.pos n~1) with (1 + (Z.pos n + Z.pos n)) by lia.
  rewrite Z.pow_add_r by lia. f_equal. apply Z.pow_add_r; lia.
Qed.

Lemma iter_pos_shr_1_m (n : positive) (mrs : shr_record) :
  0 <= shr_m mrs →
  0 <= shr_m (SpecFloat.iter_pos shr_1 n mrs)
  ∧ shr_m (SpecFloat.iter_pos shr_1 n mrs) = shr_m mrs / 2 ^ Z.pos n.
Proof.
  revert mrs. induction n as [n IH|n IH|]; intros mrs Hm; simpl SpecFloat.iter_pos.
  - pose proof (shr_1_nonneg mrs Hm) as H1.
    destruct (IH (shr_1 mrs) H1) as [H2 E2].
    destruct (IH (SpecFloat.iter_pos shr_1 n (shr_1 mrs)) H2) as [H3 E3].
    split; [done|]. rewrite E3, E2, shr_1_m by done.
    assert (0 < 2 ^ Z.pos n) by (apply Z.pow_pos_nonneg; lia).
    rewrite !Z.div_div by lia. by rewrite pow2_xI.
  - destruct (IH mrs Hm) as [H2 E2].
    destruct (IH (SpecFloat.iter_pos shr_1 n mrs) H2) as [H3 E3].
    split; [done|]. rewrite E3, E2.
    assert (0 < 2 ^ Z.pos n) by (apply Z.pow_pos_nonneg; lia).
    rewrite !Z.div_div by lia. by rewrite pow2_xO.
  - split; [by apply shr_1_nonneg|]. rewrite shr_1_m by done. done.
Qed.

Lemma round_nearest_even_cases (m : Z) (l : location) :
  round_nearest_even m l = m ∨ round_nearest_even m l = m + 1.
Proof. destruct l as [|[]]; simpl; try destruct (Z.even m); auto. Qed.

Lemma round_nearest_even_exact (m : Z) : round_nearest_even m loc_Exact = m.
Proof. done. Qed.

Lemma Zdigits2_unique (m d : Z) :
  0 < m → 2 ^ (d - 1) <= m < 2 ^ d → Zdigits2 m = d.
Proof.
  intros Hm Hd. destruct m as [|p|p]; try lia. simpl. by apply digits2_pos_unique.
Qed.

Lemma Zdigits2_bounds (m : Z) :
  0 < m → 2 ^ (Zdigits2 m - 1) <= m < 2 ^ Zdigits2 m.
Proof. intros Hm. destruct m as [|p|p]; try lia. apply digits2_pos_bounds. Qed.

Lemma shr_fexp_m (m e : Z) (l : location) :
  0 < m → 53 <= Zdigits2 m → -1074 <= Zdigits2 m + e - 53 →
  shr_m (fst (shr_fexp prec emax m e l)) = m / 2 ^ (Zdigits2 m - 53)
  ∧ snd (shr_fexp prec emax m e l) = e + (Zdigits2 m - 53)
  ∧ (Zdigits2 m = 53 → fst (shr_fexp prec emax m e l) = shr_record_of_loc m l).
Proof.
  intros Hm Hd He. unfold shr_fexp, fexp, emin, prec, emax.
  replace (Z.max (Zdigits2 m + e - 53) (3 - 1024 - 53) - e) with (Zdigits2 m - 53) by lia.
  assert (Hrec : shr_m (shr_record_of_loc m l) = m) by (by destruct l as [|[]]).
  destruct (Zdigits2 m - 53) as [|n|n] eqn:Hn; try lia.
  - simpl. rewrite Hrec, Z.div_1_r. split; [done|]. split; [lia|done].
  - cbn [shr fst snd].
    destruct (iter_pos_shr_1_m n (shr_record_of_loc m l)) as [_ ->]; [lia|].
    rewrite Hrec. split; [done|]. split; [done|]. lia.
Qed.

(** What rounding to 53 bits returns: the quotient by the dropped
    power of two or its successor. *)
Lemma binary_round_aux_spec (sx : bool) (mx ex : Z) (lx : location) :
  0 < mx → 53 <= Zdigits2 mx →
  -1074 <= Zdigits2 mx + ex - 53 → Zdigits2 mx + ex - 53 < 971 →
  let n := Zdigits2 mx - 53 in
  let q := mx / 2 ^ n in
  ∃ M E,
    binary_round_aux prec emax sx mx ex lx = S754_finite sx M E
    ∧ 2 ^ 52 <= Z.pos M < 2 ^ 53
    ∧ ((E = ex + n ∧ (Z.pos M = q ∨ Z.pos M = q + 1))
       ∨ (E = ex + n + 1 ∧ Z.pos M = 2 ^ 52 ∧ q + 1 = 2 ^ 53))
    ∧ (lx = loc_Exact → n = 0 → Z.pos M = mx ∧ E = ex).
Proof.
  intros Hm Hd Hlo Hhi n q.
  pose proof (Zdigits2_bounds mx Hm) as Hb.
  assert (Hq : 2 ^ 52 <= q < 2 ^ 53).
  { unfold q, n. assert (0 < 2 ^ (Zdigits2 mx - 53)) by (apply Z.pow_pos_nonneg; lia).
    replace (Zdigits2 mx - 1) with (52 + (Zdigits2 mx - 53)) in Hb by lia.
    replace (Zdigits2 mx) with (53 + (Zdigits2 mx - 53)) in Hb at 2 by lia.
    rewrite !Z.pow_add_r in Hb by lia. split.
    - apply Z.div_le_lower_bound; lia.
    - apply Z.div_lt_upper_bound; lia. }
  unfold binary_round_aux.
  destruct (shr_fexp_m mx ex lx Hm Hd Hlo) as (Hm1 & He1 & Hr1).
  destruct (shr_fexp prec emax mx ex lx) as [mrs' e'] eqn:Hshr. cbn [fst snd] in *.
  fold n in Hm1, He1. fold q in Hm1.
  destruct (round_nearest_even_cases (shr_m mrs') (loc_of_shr_record mrs')) as [Hr|Hr];
    rewrite Hr, Hm1.
  - assert (Hdq : Zdigits2 q = 53) by (apply Zdigits2_unique; lia).
    destruct (shr_fexp_m q e' loc_Exact) as (Hm2 & He2 & Hr2); [lia|lia|lia|].
    destruct (shr_fexp prec emax q e' loc_Exact) as [mrs'' e''] eqn:Hshr2.
    cbn [fst snd] in *. rewrite Hdq in *. rewrite Hr2 by done. cbn [shr_record_of_loc shr_m].
    destruct q as [|M|M] eqn:HM; try lia.
    replace (e'' <=? emax - prec) with true
      by (symmetry; apply Z.leb_le; unfold emax, prec; lia).
    exists M, e''. split; [done|]. split; [done|]. split; [left; split; [lia|by left]|].
    intros -> Hn. rewrite Hn in *. unfold q in HM. rewrite Hn, Z.div_1_r in HM.
    split; lia.
  - destruct (Z.eq_dec (q + 1) (2 ^ 53)) as [Hc|Hc].
    + rewrite Hc.
      assert (Hdq : Zdigits2 (2 ^ 53) = 54) by done.
      destruct (shr_fexp_m (2 ^ 53) e' loc_Exact) as (Hm2 & He2 & _);
        [done | rewrite Hdq; lia | rewrite Hdq; lia |].
      destruct (shr_fexp prec emax (2 ^ 53) e' loc_Exact) as [mrs'' e''] eqn:Hshr2.
      cbn [fst snd] in *. rewrite Hdq in *. rewrite Hm2.
      change (2 ^ 53 / 2 ^ (54 - 53)) with (Z.pos (2 ^ 52)%positive).
      replace (e'' <=? emax - prec) with true
      by (symmetry; apply Z.leb_le; unfold emax, prec; lia).
      eexists _, e''. split; [done|]. split; [done|]. split.
      * right. split; [lia|]. done.
      * intros -> Hn. exfalso.
        assert (Hexact : shr_m mrs' = mx ∧ loc_of_shr_record mrs' = loc_Exact).
        { rewrite Hr1 by lia. done. }
        destruct Hexact as [Hx Hl]. rewrite Hl in Hr. simpl in Hr. lia.
    + assert (Hdq : Zdigits2 (q + 1) = 53) by (apply Zdigits2_unique; lia).
      destruct (shr_fexp_m (q + 1) e' loc_Exact) as (Hm2 & He2 & Hr2); [lia|lia|lia|].
      destruct (shr_fexp prec emax (q + 1) e' loc_Exact) as [mrs'' e''] eqn:Hshr2.
      cbn [fst snd] in *. rewrite Hdq in *. rewrite Hr2 by done.
      cbn [shr_record_of_loc shr_m].
      destruct (q + 1) as [|M|M] eqn:HM; try lia.
      replace (e'' <=? emax - prec) with true
      by (symmetry; apply Z.leb_le; unfold emax, prec; lia).
      exists M, e''. split; [done|]. split; [lia|]. split; [left; split; [lia|right; lia]|].
      intros -> Hn. exfalso.
      assert (Hexact : shr_m mrs' = mx ∧ loc_of_shr_record mrs' = loc_Exact).
      { rewrite Hr1 by lia. done. }
      destruct Hexact as [Hx Hl]. rewrite Hl in Hr. simpl in Hr. lia.
Qed.

Lemma iter_xO (p d : positive) : Z.pos (Pos.iter xO p d) = Z.pos p * 2 ^ Z.pos d.
Proof.
  revert p. induction d as [|d IH] using Pos.peano_ind; intros p.
  - simpl. lia.
  - rewrite Pos.iter_succ, Pos2Z.inj_xO, IH, Pos2Z.inj_succ, Z.pow_succ_r by lia. lia.
Qed.

(** A positive integer below 2^53 is represented exactly, with a
    mantissa of 53 bits. *)
Lemma float8_of_Z_exact (n : Z) :
  0 < n < 2 ^ 53 →
  ∃ M s,
    float8_of_Z n = S754_finite false M (- s)
    ∧ 2 ^ 52 <= Z.pos M < 2 ^ 53
    ∧ 0 <= s <= 52
    ∧ Z.pos M = n * 2 ^ s.
Proof.
  intros [Hn Hhi]. destruct n as [|p|p]; try lia.
  unfold float8_of_Z, binary_normalize, binary_round.
  pose proof (digits2_pos_bounds p) as Hb.
  set (d := Z.pos (digits2_pos p)) in *.
  assert (Hd : 1 <= d <= 53).
  { split; [unfold d; lia|].
    destruct (Z.le_gt_cases d 53); [done|].
    assert (2 ^ 53 <= 2 ^ (d - 1)) by (apply Z.pow_le_mono_r; lia). lia. }
  assert (Hfexp : fexp prec emax (d + 0) = d - 53)
    by (unfold fexp, emin, prec, emax; lia).
  rewrite Hfexp. unfold shl_align. rewrite Z.sub_0_r.
  destruct (d - 53) as [|k|k] eqn:Hk; try lia.
  - (* 53 bits already *)
    assert (Hd53 : d = 53) by lia.
    destruct (binary_round_aux_spec false (Z.pos p) 0 loc_Exact) as (M & E & -> & HM & _ & Hex);
      try (simpl Zdigits2; fold d; lia).
    destruct Hex as [HMp HE]; [done | simpl Zdigits2; fold d; lia |].
    exists M, 0. rewrite HE. split; [done|]. split; [done|]. split; [lia|].
    rewrite Z.pow_0_r. lia.
  - pose proof (iter_xO p k) as Hiter.
    set (mz := Pos.iter xO p k) in *.
    assert (Hk' : Z.pos k = 53 - d) by lia.
    assert (Hmz : 2 ^ 52 <= Z.pos mz < 2 ^ 53).
    { rewrite Hiter, Hk'.
      assert (H52 : 2 ^ (d - 1) * 2 ^ (53 - d) = 2 ^ 52)
        by (rewrite <- Z.pow_add_r by lia; f_equal; lia).
      assert (H53 : 2 ^ d * 2 ^ (53 - d) = 2 ^ 53)
        by (rewrite <- Z.pow_add_r by lia; f_equal; lia).
      assert (0 < 2 ^ (53 - d)) by (apply Z.pow_pos_nonneg; lia). nia. }
    assert (Hdz : Zdigits2 (Z.pos mz) = 53) by (apply Zdigits2_unique; lia).
    rewrite <- Hk.
    destruct (binary_round_aux_spec false (Z.pos mz) (d - 53) loc_Exact)
      as (M & E & -> & HM & _ & Hex); try lia.
    destruct Hex as [HMp HE]; [done | lia |].
    exists M, (53 - d). rewrite HE. split; [f_equal; lia|]. split; [done|]. split; [lia|].
    rewrite HMp, Hiter, Hk'. done.
Qed.

(** The same in one interval: the result is an end of the interval of
    width 2^n that holds the rounded integer. *)
Lemma binary_round_aux_value (sx : bool) (mx ex : Z) (lx : location) :
  0 < mx → 53 <= Zdigits2 mx →
  -1074 <= Zdigits2 mx + ex - 53 → Zdigits2 mx + ex - 53 < 971 →
  let n := Zdigits2 mx - 53 in
  ∃ M a lo,
    binary_round_aux prec emax sx mx ex lx = S754_finite sx M (ex + a)
    ∧ 2 ^ 52 <= Z.pos M < 2 ^ 53
    ∧ n <= a <= n + 1
    ∧ lo <= mx < lo + 2 ^ n
    ∧ (Z.pos M * 2 ^ a = lo ∨ Z.pos M * 2 ^ a = lo + 2 ^ n).
Proof.
  intros Hm Hd Hlo Hhi n.
  destruct (binary_round_aux_spec sx mx ex lx Hm Hd Hlo Hhi)
    as (M & E & Hres & HM & Hcases & _).
  fold n in Hcases.
  assert (Hn : 0 <= n) by (unfold n; lia).
  assert (Hpow : 0 < 2 ^ n) by (apply Z.pow_pos_nonneg; lia).
  pose proof (Z.div_mod mx (2 ^ n) ltac:(lia)) as Hdm.
  pose proof (Z.mod_pos_bound mx (2 ^ n) Hpow) as Hr.
  set (q := mx / 2 ^ n) in *.
  exists M, (E - ex), (q * 2 ^ n).
  replace (ex + (E - ex)) with E by lia.
  split; [done|]. split; [done|].
  destruct Hcases as [(HE & HMq)|(HE & HM52 & Hq)].
  - replace (E - ex) with n by lia. split; [lia|]. split; [lia|].
    destruct HMq as [->| ->]; [by left | right; lia].
  - replace (E - ex) with (n + 1) by lia. split; [lia|]. split; [lia|].
    right. rewrite HM52, Z.pow_add_r by lia.
    replace (q * 2 ^ n + 2 ^ n) with ((q + 1) * 2 ^ n) by lia. rewrite Hq.
    change (2 ^ 53) with (2 ^ 52 * 2 ^ 1). lia.
Qed.

(** Division of two normal numbers: the quotient is within two units
    of the last place of the exact quotient. *)
Lemma SFdiv_normal (mx my : positive) (sx sy : Z) :
  2 ^ 52 <= Z.pos mx < 2 ^ 53 → 2 ^ 52 <= Z.pos my < 2 ^ 53 →
  0 <= sx <= 52 → 0 <= sy <= 52 →
  ∃ M a,
    SFdiv prec emax (S754_finite false mx (- sx)) (S754_finite false my (- sy))
    = S754_finite false M (sy - sx - 53 + a)
    ∧ 2 ^ 52 <= Z.pos M < 2 ^ 53
    ∧ 0 <= a <= 2
    ∧ Z.abs (Z.pos M * 2 ^ a * Z.pos my - Z.pos mx * 2 ^ 53) <= 2 * Z.pos my.
Proof.
  intros Hmx Hmy Hsx Hsy. unfold SFdiv, SFdiv_core_binary. cbn [xorb].
  assert (Hdx : Zdigits2 (Z.pos mx) = 53) by (apply Zdigits2_unique; lia).
  assert (Hdy : Zdigits2 (Z.pos my) = 53) by (apply Zdigits2_unique; lia).
  rewrite Hdx, Hdy.
  assert (He : Z.min (fexp prec emax (53 + - sx - (53 + - sy))) (- sx - - sy)
               = sy - sx - 53) by (unfold fexp, emin, prec, emax; lia).
  rewrite He.
  replace (- sx - - sy - (sy - sx - 53)) with 53 by lia.
  cbn match. rewrite Z.shiftl_mul_pow2 by lia.
  pose proof (Z_div_mod (Z.pos mx * 2 ^ 53) (Z.pos my) ltac:(lia)) as Hdiv.
  destruct (Z.div_eucl (Z.pos mx * 2 ^ 53) (Z.pos my)) as [q r].
  destruct Hdiv as [Hq Hr].
  assert (Hqb : 2 ^ 52 <= q < 2 ^ 54).
  { change (2 ^ 54) with (2 * 2 ^ 53). change (2 ^ 53) with (2 * 2 ^ 52) in *. nia. }
  assert (Hdq : 53 <= Zdigits2 q <= 54).
  { pose proof (Zdigits2_bounds q ltac:(lia)) as Hb.
    split.
    - destruct (Z.le_gt_cases 53 (Zdigits2 q)); [done|].
      assert (2 ^ Zdigits2 q <= 2 ^ 52) by (apply Z.pow_le_mono_r; lia). lia.
    - destruct (Z.le_gt_cases (Zdigits2 q) 54); [done|].
      assert (2 ^ 54 <= 2 ^ (Zdigits2 q - 1)) by (apply Z.pow_le_mono_r; lia). lia. }
  destruct (binary_round_aux_value false q (sy - sx - 53) (new_location (Z.pos my) r))
    as (M & a & lo & -> & HM & Ha & Hlo & HMa); try lia.
  exists M, a. split; [done|]. split; [done|]. split; [lia|].
  assert (Hp : 1 <= 2 ^ (Zdigits2 q - 53) <= 2).
  { destruct (Z.eq_dec (Zdigits2 q) 53) as [->| ?]; [simpl; lia|].
    replace (Zdigits2 q) with 54 by lia. simpl. lia. }
  destruct HMa as [->| ->]; nia.
Qed.

Lemma float8_of_Z_100 :
  float8_of_Z 100 = S754_finite false (100 * 2 ^ 46)%positive (- 46).
Proof. reflexivity. Qed.

(** Multiplication of a normal number by 100: within 2^53 of the
    product, in units of the last place of the two factors. *)
Lemma SFmul_100 (mq : positive) (eq : Z) :
  2 ^ 52 <= Z.pos mq < 2 ^ 53 → -200 <= eq <= 200 →
  ∃ M b,
    SFmul prec emax (S754_finite false mq eq) (float8_of_Z 100)
    = S754_finite false M (eq - 46 + b)
    ∧ 2 ^ 52 <= Z.pos M < 2 ^ 53
    ∧ 52 <= b <= 54
    ∧ Z.abs (Z.pos M * 2 ^ b - Z.pos mq * (100 * 2 ^ 46)) <= 2 ^ 53.
Proof.
  intros Hmq Heq. rewrite float8_of_Z_100. unfold SFmul. cbn [xorb].
  set (P := Z.pos (mq * (100 * 2 ^ 46))).
  assert (HP : P = Z.pos mq * (100 * 2 ^ 46)) by (unfold P; lia).
  assert (HPb : 2 ^ 104 <= P < 2 ^ 106).
  { rewrite HP. change (2 ^ 104) with (2 ^ 52 * (64 * 2 ^ 46)).
    change (2 ^ 106) with (2 ^ 53 * (128 * 2 ^ 46)). nia. }
  assert (Hd : 105 <= Zdigits2 P <= 106).
  { pose proof (Zdigits2_bounds P ltac:(lia)) as Hb.
    split.
    - destruct (Z.le_gt_cases 105 (Zdigits2 P)); [done|].
      assert (2 ^ Zdigits2 P <= 2 ^ 104) by (apply Z.pow_le_mono_r; lia). lia.
    - destruct (Z.le_gt_cases (Zdigits2 P) 106); [done|].
      assert (2 ^ 106 <= 2 ^ (Zdigits2 P - 1)) by (apply Z.pow_le_mono_r; lia). lia. }
  replace (eq + - 46) with (eq - 46) by lia.
  destruct (binary_round_aux_value false P (eq - 46) loc_Exact)
    as (M & b & lo & -> & HM & Hb & Hlo & HMb); try lia.
  exists M, b. split; [done|]. split; [done|]. split; [lia|].
  assert (Hp : 0 < 2 ^ (Zdigits2 P - 53) <= 2 ^ 53).
  { split; [apply Z.pow_pos_nonneg; lia | apply Z.pow_le_mono_r; lia]. }
  rewrite <- HP. destruct HMb as [->| ->]; lia.
Qed.

(** The cast to integer takes a nearest integer. *)
Lemma rint_magnitude_below (m : positive) (s : Z) :
  0 < s →
  0 <= rint_magnitude m (- s)
  ∧ Z.abs (2 * (rint_magnitude m (- s) * 2 ^ s - Z.pos m)) <= 2 ^ s.
Proof.
  intros Hs. unfold rint_magnitude.
  destruct (Z.leb_spec 0 (- s)); [lia|].
  replace (- - s) with s by lia.
  assert (Hpow : 0 < 2 ^ s) by (apply Z.pow_pos_nonneg; lia).
  pose proof (Z.div_mod (Z.pos m) (2 ^ s) ltac:(lia)) as Hdm.
  pose proof (Z.mod_pos_bound (Z.pos m) (2 ^ s) Hpow) as Hr.
  assert (0 <= Z.pos m / 2 ^ s) by (apply Z.div_pos; lia).
  set (q := Z.pos m / 2 ^ s) in *. set (r := Z.pos m mod 2 ^ s) in *.
  destruct (Z.compare_spec (2 * r) (2 ^ s)); [destruct (Z.even q)| |]; split; nia.
Qed.

(** Two bounded errors, one scaled by [u], the other by [v]. *)
Lemma abs_combine (x y u v bx by' : Z) :
  Z.abs x <= bx → Z.abs y <= by' → 0 <= u → 0 <= v →
  Z.abs (x * u + v * y) <= bx * u + v * by'.
Proof.
  intros Hx Hy Hu Hv.
  etrans; [apply Z.abs_triangle|].
  rewrite !Z.abs_mul, (Z.abs_eq u), (Z.abs_eq v) by done.
  apply Z.add_le_mono.
  - by apply Z.mul_le_mono_nonneg_r.
  - by apply Z.mul_le_mono_nonneg_l.
Qed.

Lemma abs_cancel (w z r : Z) : 0 < w → Z.abs (w * z) <= w * r → Z.abs z <= r.
Proof.
  intros Hw H. rewrite Z.abs_mul, (Z.abs_eq w) in H by lia.
  by apply Z.mul_le_mono_pos_l in H.
Qed.

(** The error of the quotient and of the product, together. *)
Lemma product_error (M1 M2 Mc Ml A B : Z) :
  0 < Ml → 0 < A →
  Z.abs (M1 * A * Ml - Mc * 2 ^ 53) <= 2 * Ml →
  Z.abs (M2 * B - M1 * (100 * 2 ^ 46)) <= 2 ^ 53 →
  Z.abs (M2 * B * A * Ml - 100 * Mc * 2 ^ 99)
  <= (200 * 2 ^ 46 + 2 ^ 53 * A) * Ml.
Proof.
  intros HMl HA E1 E2.
  pose proof (abs_combine _ _ (A * Ml) (100 * 2 ^ 46) _ _ E2 E1
                ltac:(apply Z.mul_nonneg_nonneg; lia) ltac:(lia)) as H.
  replace ((M2 * B - M1 * (100 * 2 ^ 46)) * (A * Ml)
           + 100 * 2 ^ 46 * (M1 * A * Ml - Mc * 2 ^ 53))
    with (M2 * B * A * Ml - 100 * Mc * 2 ^ 99) in H by lia.
  replace (2 ^ 53 * (A * Ml) + 100 * 2 ^ 46 * (2 * Ml))
    with ((200 * 2 ^ 46 + 2 ^ 53 * A) * Ml) in H by lia.
  exact H.
Qed.

(** The error bound against the last place of the product. *)
Lemma error_in_ulps (A B : Z) :
  1 <= A → 2 ^ 52 <= B → 200 * 2 ^ 46 + 2 ^ 53 * A <= 6 * (A * B).
Proof.
  intros HA HB.
  assert (A * 2 ^ 52 <= A * B) by (apply Z.mul_le_mono_nonneg_l; lia).
  lia.
Qed.

(** From units of the last place to the quotient itself: [D] is the
    weight of the fraction bits of the product, [G] the weight of its
    last place when there are none. *)
Lemma scaled_error (M2 c l Sc Sl A B D G W E : Z) :
  0 < Sl → 1 <= A → 0 < B → 0 <= l → 0 <= G →
  Sl * A * B * D = Sc * W * G →
  Z.abs (M2 * B * A * (l * Sl) - 100 * (c * Sc) * W) <= E * (l * Sl) →
  E <= 6 * (A * B) →
  Z.abs (M2 * G * l - 100 * c * D) <= 6 * l * G.
Proof.
  intros HSl HA HB Hl HG Hscale Herr HE.
  assert (HAB : 0 < A * B) by (apply Z.mul_pos_pos; lia).
  assert (Hw : 0 < Sl * (A * B)) by (by apply Z.mul_pos_pos).
  apply (abs_cancel (Sl * (A * B))); [done|].
  replace (Sl * (A * B) * (M2 * G * l - 100 * c * D))
    with (M2 * B * A * (l * Sl) * G - 100 * c * (Sl * A * B * D)) by ring.
  rewrite Hscale.
  replace (M2 * B * A * (l * Sl) * G - 100 * c * (Sc * W * G))
    with (G * (M2 * B * A * (l * Sl) - 100 * (c * Sc) * W)) by ring.
  rewrite Z.abs_mul, (Z.abs_eq G) by done.
  replace (Sl * (A * B) * (6 * l * G)) with (G * (6 * (A * B) * (l * Sl))) by ring.
  apply Z.mul_le_mono_nonneg_l; [done|].
  etrans; [exact Herr|].
  apply Z.mul_le_mono_nonneg_r; [|done].
  apply Z.mul_nonneg_nonneg; lia.
Qed.

(** With fraction bits of weight [D]: the product is within 6 units of
    100 * count / limit, its nearest integer within half a unit of the
    product, and [D] is large against the limit. *)
Lemma nearest_core (c l M2 D p : Z) :
  0 < c < 2 ^ 40 → 0 < l → 2 ^ 52 <= M2 → 0 < D →
  Z.abs (M2 * l - 100 * c * D) <= 6 * l →
  Z.abs (2 * (p * D - M2)) <= D →
  2 * Z.abs (100 * c - p * l) <= l.
Proof.
  intros Hc Hl HM2 HD Hy%Z.abs_le Hp%Z.abs_le.
  assert (Hm : 2 ^ 52 * l <= M2 * l) by (apply Z.mul_le_mono_nonneg_r; lia).
  assert (Hcd : c * D <= (2 ^ 40 - 1) * D) by (apply Z.mul_le_mono_nonneg_r; lia).
  assert (HDl : 24 * l < D) by lia.
  assert (H1 : 2 * (p * D - M2) * l <= D * l) by (apply Z.mul_le_mono_nonneg_r; lia).
  assert (H2 : - D * l <= 2 * (p * D - M2) * l) by (apply Z.mul_le_mono_nonneg_r; lia).
  destruct (Z.abs_spec (100 * c - p * l)) as [[_ ->]|[_ ->]].
  - destruct (Z.le_gt_cases (2 * (100 * c - p * l)) l) as [|Hgt]; [done|].
    assert ((l + 1) * D <= 2 * (100 * c - p * l) * D)
      by (apply Z.mul_le_mono_nonneg_r; lia).
    lia.
  - destruct (Z.le_gt_cases (2 * - (100 * c - p * l)) l) as [|Hgt]; [done|].
    assert ((l + 1) * D <= 2 * - (100 * c - p * l) * D)
      by (apply Z.mul_le_mono_nonneg_r; lia).
    lia.
Qed.

(** Without fraction bits the product would be at least 2^52. *)
Lemma no_fraction_core (c l M2 G : Z) :
  0 < c < 2 ^ 40 → 0 < l → 2 ^ 52 <= M2 → 1 <= G →
  Z.abs (M2 * G * l - 100 * c * 1) <= 6 * l * G → False.
Proof.
  intros Hc Hl HM2 HG Hy%Z.abs_le.
  assert (HGl : 1 * 1 <= G * l) by (apply Z.mul_le_mono_nonneg; lia).
  assert (Hm : 2 ^ 52 * (G * l) <= M2 * (G * l)) by (apply Z.mul_le_mono_nonneg_r; lia).
  lia.
Qed.

(** A nearest integer below 2^31 when the exact quotient is. *)
Lemma nearest_in_int4 (c l p : Z) :
  0 < l → 0 <= p → 100 * c <= l * 2147483647 →
  2 * Z.abs (100 * c - p * l) <= l → in_int4 p = true.
Proof.
  intros Hl Hp Hfit Hn. unfold in_int4. apply andb_true_iff.
  split; apply Z.leb_le; [lia|].
  destruct (Z.le_gt_cases p 2147483647) as [|Hgt]; [done|].
  assert (2147483648 * l <= p * l) by (apply Z.mul_le_mono_nonneg_r; lia).
  lia.
Qed.

(** [count / limit * 100] cast to integer is an integer nearest to the
    exact value, for counts below 2^40 and limits below 2^53, when the
    exact value is within the range of [integer]. *)
Lemma percent_of_nearest (count limit : Z) :
  0 < count < 2 ^ 40 → 0 < limit < 2 ^ 53 →
  100 * count <= limit * 2147483647 →
  ∃ p, percent_of count limit = Value p
       ∧ 0 <= p
       ∧ 2 * Z.abs (100 * count - p * limit) <= limit.
Proof.
  intros Hc Hl Hfit. unfold percent_of.
  destruct (float8_of_Z_exact count) as (Mc & sc & -> & HMc & Hsc & Ec); [lia|].
  destruct (float8_of_Z_exact limit) as (Ml & sl & -> & HMl & Hsl & El); [lia|].
  destruct (SFdiv_normal Mc Ml sc sl HMc HMl Hsc Hsl)
    as (M1 & a & Hdiv & HM1 & Ha & E1).
  unfold float8_div. cbn [float8_is_zero]. rewrite Hdiv.
  cbn [float8_is_finite float8_is_zero andb rbind].
  destruct (SFmul_100 M1 (sl - sc - 53 + a) HM1 ltac:(lia))
    as (M2 & b & Hmul & HM2 & Hb & E2).
  unfold float8_mul. rewrite Hmul.
  cbn [float8_is_finite float8_is_zero andb rbind].
  unfold float8_to_int4.
  assert (HA : 1 <= 2 ^ a) by (apply (Z.pow_le_mono_r 2 0 a); lia).
  assert (HB : 2 ^ 52 <= 2 ^ b) by (apply Z.pow_le_mono_r; lia).
  assert (HSc : 0 < 2 ^ sc) by (apply Z.pow_pos_nonneg; lia).
  assert (HSl : 0 < 2 ^ sl) by (apply Z.pow_pos_nonneg; lia).
  pose proof (product_error (Z.pos M1) (Z.pos M2) (Z.pos Mc) (Z.pos Ml)
                (2 ^ a) (2 ^ b) ltac:(lia) ltac:(lia) E1 E2) as Herr.
  rewrite Ec, El in Herr.
  pose proof (error_in_ulps (2 ^ a) (2 ^ b) HA HB) as HE.
  remember (sl - sc - 53 + a - 46 + b) as e eqn:He.
  destruct (Z.lt_ge_cases e 0) as [Hneg|Hpos].
  - set (s := - e). assert (Hs : 0 < s) by (unfold s; lia).
    replace e with (- s) by (unfold s; lia).
    destruct (rint_magnitude_below M2 s Hs) as [Hp0 Hp].
    assert (HD : 0 < 2 ^ s) by (apply Z.pow_pos_nonneg; lia).
    assert (Hscale : 2 ^ sl * 2 ^ a * 2 ^ b * 2 ^ s = 2 ^ sc * 2 ^ 99 * 1).
    { rewrite Z.mul_1_r, <- !Z.pow_add_r by lia. f_equal. unfold s. lia. }
    pose proof (scaled_error (Z.pos M2) count limit (2 ^ sc) (2 ^ sl) (2 ^ a)
                  (2 ^ b) (2 ^ s) 1 (2 ^ 99) _ HSl HA ltac:(lia) ltac:(lia)
                  ltac:(lia) Hscale Herr HE) as Hy.
    rewrite !Z.mul_1_r in Hy.
    pose proof (nearest_core count limit (Z.pos M2) (2 ^ s) _ Hc ltac:(lia) ltac:(lia) HD Hy Hp) as Hn.
    rewrite (nearest_in_int4 count limit) by (done || lia).
    eexists. by repeat split.
  - exfalso.
    assert (HG : 1 <= 2 ^ e) by (apply (Z.pow_le_mono_r 2 0 e); lia).
    assert (Hscale : 2 ^ sl * 2 ^ a * 2 ^ b * 1 = 2 ^ sc * 2 ^ 99 * 2 ^ e).
    { rewrite Z.mul_1_r, <- !Z.pow_add_r by lia. f_equal. lia. }
    pose proof (scaled_error (Z.pos M2) count limit (2 ^ sc) (2 ^ sl) (2 ^ a)
                  (2 ^ b) 1 (2 ^ e) (2 ^ 99) _ HSl HA ltac:(lia) ltac:(lia)
                  ltac:(lia) Hscale Herr HE) as Hy.
    exact (no_fraction_core count limit (Z.pos M2) (2 ^ e) Hc ltac:(lia) ltac:(lia) HG Hy).
Qed.

(** A count of zero gives zero. *)
Lemma percent_of_zero (limit : Z) :
  0 < limit < 2 ^ 53 → percent_of 0 limit = Value 0.
Proof.
  intros Hl. unfold percent_of.
  destruct (float8_of_Z_exact limit) as (Ml & sl & -> & _); [lia|].
  reflexivity.
Qed.

End Float8Facts.

Lemma percent_of_zero_limit (count : Z) : Sql.percent_of count 0 = Error "division by zero".
Proof. reflexivity. Qed.

Lemma display_finite (limit : Z) : limit ≠ -1 → Monitor.display limit = pretty limit.
Proof. unfold Monitor.display. by destruct (Z.eqb_spec limit (-1)). Qed.

Lemma or_zero_id (n : Z) : Monitor.or_zero n = n.
Proof. unfold Monitor.or_zero. by destruct (Z.eqb_spec n 0). Qed.

(** C7, as the code has it. With a limit of -1 the statement reports
    the percentage 0, which [|| 0] keeps, and the limit is shown as the
    infinity sign. With another limit the limit itself is shown and the
    percentage is the binary64 value of count / limit * 100 cast to
    integer; a limit of 0 makes the statement fail; for counts below
    2^40 and limits from 1 to below 2^53, with 100 * count / limit
    within the range of [integer], the percentage is an integer nearest
    to 100 * count / limit. *)
Theorem utilization_percent (count : Z) :
  Monitor.user_utilization_case count (-1) = Value 0
  ∧ Monitor.api_utilization_case count (-1) = Value 0
  ∧ Monitor.or_zero 0 = 0
  ∧ Monitor.display (-1) = infinity_sign
  ∧ (∀ limit, limit ≠ -1 →
       Monitor.display limit = pretty limit
       ∧ Monitor.user_utilization_case count limit = Sql.percent_of count limit
       ∧ Monitor.api_utilization_case count limit = Sql.percent_of count limit)
  ∧ Sql.percent_of count 0 = Error "division by zero"
  ∧ (∀ limit, 0 <= count < 2 ^ 40 → 1 <= limit < 2 ^ 53 →
       100 * count <= limit * 2147483647 →
       ∃ p, Monitor.user_utilization_case count limit = Value p
            ∧ Monitor.api_utilization_case count limit = Value p
            ∧ Percent.nearest count limit p).
Proof.
  do 4 (split; [reflexivity|]). split; [|split; [reflexivity|]].
  - intros limit Hl. split; [by apply display_finite|].
    unfold Monitor.user_utilization_case, Monitor.api_utilization_case.
    by destruct (Z.eqb_spec limit (-1)).
  - intros limit Hc Hl Hfit.
    unfold Monitor.user_utilization_case, Monitor.api_utilization_case.
    destruct (Z.eqb_spec limit (-1)); [lia|].
    destruct (Z.eq_dec count 0) as [->|Hpos].
    + exists 0. rewrite Float8Facts.percent_of_zero by lia.
      unfold Percent.nearest. repeat split. simpl. lia.
    + destruct (Float8Facts.percent_of_nearest count limit) as (p & Hp & _ & Hn);
        [lia | lia | done |].
      exists p. by rewrite Hp.
Qed.

Lemma utilization_percent_witness :
  0 <= 3 < 2 ^ 40 ∧ 1 <= 8 < 2 ^ 53 ∧ 100 * 3 <= 8 * 2147483647
  ∧ ∃ p, Monitor.user_utilization_case 3 8 = Value p
         ∧ Monitor.api_utilization_case 3 8 = Value p
         ∧ Percent.nearest 3 8 p.
Proof.
  assert (Hc : 0 <= 3 < 2 ^ 40) by (split; [discriminate | reflexivity]).
  assert (Hl : 1 <= 8 < 2 ^ 53) by (split; [discriminate | reflexivity]).
  assert (Hfit : 100 * 3 <= 8 * 2147483647) by discriminate.
  destruct (utilization_percent 3) as (_ & _ & _ & _ & _ & _ & H).
  exact (conj Hc (conj Hl (conj Hfit (H 8 Hc Hl Hfit)))).
Defined.

(** Without a limit the percentage is the number 0, and the console
    line shows it. *)
Lemma unlimited_reports_zero_percent :
  Monitor.user_utilization_case 500 (-1) = Value 0
  ∧ ∃ row, Monitor.perf_row Sample.unlimited_metrics = Value row
           ∧ Monitor.user_status row = UNLIMITED
           ∧ Monitor.user_utilization row = 0
           ∧ Monitor.usage_of row
             = "Users: 500/" +:+ infinity_sign +:+ " (0%), API: 0/"
               +:+ infinity_sign +:+ " (0%)".
Proof. split; [done|]. eexists. split; [reflexivity|]. repeat split. Qed.

(** Half-way cases go where binary64 arithmetic puts them: 57.5 is
    reported as 57, 1.5 as 2. *)
Lemma percent_ties :
  Sql.percent_of 115 200 = Value 57 ∧ Sql.percent_of 3 200 = Value 2
  ∧ Sql.percent_of 1 200 = Value 0.
Proof. repeat split. Qed.

(** * Further properties *)

(** ** Checks that cannot fire *)

(** X1. For every database the isolation statement of the production
    script selects no row: its join keeps only [tenant_users] rows of
    the tenant itself, and those are what its [CASE] leaves out.  So
    whenever the statement itself answers, [checkTenantIsolation]
    returns true and records no issue. *)
Theorem production_isolation_check_never_fires (w : RowSource) (s : Production.State) :
  Production.db s = true →
  statement_error w IsolationCheck = None →
  Production.isolation_query (database w) = []
  ∧ Production.checkTenantIsolation w s
    = (Value true,
       Production.after s []
         [ "Critical Tenant Isolation Check";
           "Tenant isolation verified - No data leakage detected" ]
         [DbQuery IsolationCheck]).
Proof.
  intros Hdb Hq.
  pose proof (ProductionFacts.production_isolation_query_empty (database w)) as Hrows.
  split; [done|].
  unfold Production.checkTenantIsolation. rewrite Hrows.
  unfold Production.db_query, Production.log, Production.call, Js.try_catch, Js.bind,
    Js.gets, Js.modify, Js.ret. simpl. rewrite Hdb, Hq. simpl.
  unfold Production.after. simpl. by rewrite Hdb, app_nil_r, <- !app_assoc.
Qed.

Lemma production_isolation_check_never_fires_witness :
  Production.checkTenantIsolation (Sample.reachable Sample.with_orphan)
    (Production.connected Production.constructor)
  = (Value true,
     Production.after (Production.connected Production.constructor) []
       [ "Critical Tenant Isolation Check";
         "Tenant isolation verified - No data leakage detected" ]
       [DbQuery IsolationCheck]).
Proof.
  exact (proj2 (production_isolation_check_never_fires
                  (Sample.reachable Sample.with_orphan)
                  (Production.connected Production.constructor) eq_refl eq_refl)).
Defined.

(** X2. For every database the leakage statement of the monitor selects
    no row either, so the 'user violations' message is never produced:
    when both statements of [checkTenantIsolation] answer, the array it
    returns holds the orphan messages and nothing else. *)
Theorem monitor_isolation_reports_only_orphans
    (w : RowSource) (env : Monitor.Environment) (s : Monitor.State) :
  Monitor.db s = true →
  statement_error w LeakageCheck = None →
  statement_error w OrphanCheckAll = None →
  Monitor.leakage_query (database w) = []
  ∧ fst (Monitor.checkTenantIsolation w env s)
    = Value (Monitor.orphan_violations (database w)).
Proof.
  intros Hdb Hl Ho.
  pose proof (MonitorFacts.monitor_leakage_query_empty (database w)) as Hrows.
  split; [done|].
  destruct (MonitorFacts.monitor_checkTenantIsolation_after w) as (lines & H).
  rewrite H by done. simpl. unfold Monitor.isolation_violations. by rewrite Hl, Ho, Hrows.
Qed.

Lemma monitor_isolation_reports_only_orphans_witness :
  fst (Monitor.checkTenantIsolation (Sample.reachable Sample.with_orphan)
         Sample.healthy_services (Monitor.connected Monitor.constructor))
  = Value ["1 orphaned records in tenant_users table"].
Proof.
  exact (proj2 (monitor_isolation_reports_only_orphans
                  (Sample.reachable Sample.with_orphan) Sample.healthy_services
                  (Monitor.connected Monitor.constructor) eq_refl eq_refl eq_refl)).
Defined.

(** ** The verdict of the monitor *)

Lemma count_notices_nil_iff (t : Monitor.AlertType) (l : list Monitor.Notice) :
  Monitor.count_notices t l = 0%nat ↔ Forall (λ a, Monitor.notice_type a ≠ t) l.
Proof.
  unfold Monitor.count_notices. induction l as [|a l IH]; simpl.
  - split; [constructor | done].
  - destruct (bool_decide_reflect (Monitor.notice_type a = t)) as [Ha|Ha]; simpl.
    + split; [done | by intros [? _]%Forall_cons].
    + rewrite IH. split; [by constructor | by intros [_ ?]%Forall_cons].
Qed.

Lemma count_critical_all (l : list Monitor.Notice) :
  Forall (λ a, Monitor.notice_type a = Monitor.CRITICAL) l →
  Monitor.count_notices Monitor.CRITICAL l = 0%nat ↔ l = [].
Proof.
  intros Hall. rewrite count_notices_nil_iff. split; [|by intros ->].
  destruct Hall as [|a l Ha _]; [done|]. by intros [? _]%Forall_cons.
Qed.

Lemma isolation_notices_critical w :
  Forall (λ a, Monitor.notice_type a = Monitor.CRITICAL) (Monitor.isolation_notices w).
Proof.
  unfold Monitor.isolation_notices.
  destruct (statement_error w LeakageCheck), (statement_error w OrphanCheckAll);
    try constructor.
  destruct (Monitor.isolation_violations w); repeat constructor.
Qed.

Lemma isolation_notices_nil w :
  Monitor.isolation_notices w = []
  ↔ (statement_error w LeakageCheck = None → statement_error w OrphanCheckAll = None →
     Monitor.orphan_violations (database w) = []).
Proof.
  unfold Monitor.isolation_notices, Monitor.isolation_violations.
  rewrite MonitorFacts.monitor_leakage_query_empty.
  destruct (statement_error w LeakageCheck), (statement_error w OrphanCheckAll);
    simpl; try (split; [done | done]).
  destruct (Monitor.orphan_violations (database w)); split; try done.
  - intros H. by specialize (H eq_refl eq_refl).
Qed.

Lemma performance_notices_critical w :
  Forall (λ a, Monitor.notice_type a = Monitor.CRITICAL) (Monitor.performance_notices w).
Proof.
  unfold Monitor.performance_notices.
  destruct (statement_error w PerfCheck); [constructor|].
  destruct (Monitor.perf_query _ _); [|constructor].
  apply Forall_map, Forall_forall. done.
Qed.

Lemma filter_nil_iff {A} (p : A → bool) (l : list A) :
  List.filter p l = [] ↔ Forall (λ x, p x = false) l.
Proof.
  induction l as [|x l IH]; simpl.
  - split; [constructor | done].
  - destruct (p x) eqn:Hx.
    + split; [done | intros [? _]%Forall_cons; congruence].
    + rewrite IH. split; [by constructor | by intros [_ ?]%Forall_cons].
Qed.

Lemma performance_notices_nil w :
  Monitor.performance_notices w = []
  ↔ (statement_error w PerfCheck = None →
     ∀ rows, Monitor.perf_query (current_date w) (database w) = Value rows →
             Forall (λ t, Monitor.hasExceeded t = false) rows).
Proof.
  unfold Monitor.performance_notices.
  destruct (statement_error w PerfCheck); [split; done|].
  destruct (Monitor.perf_query _ _) as [rows|e]; [|split; done].
  split.
  - intros H%map_eq_nil _ rows' [= <-]. by apply filter_nil_iff.
  - intros H. specialize (H eq_refl rows eq_refl). apply filter_nil_iff in H.
    by rewrite H.
Qed.

Lemma service_notice_quiet env n :
  Monitor.count_notices Monitor.CRITICAL (Monitor.service_notice env n) = 0%nat
  ↔ quiet (Monitor.probe env n).
Proof.
  unfold Monitor.service_notice, quiet.
  destruct (Monitor.probe env n) as [c|e|e]; simpl; [|done|done].
  destruct (Z.eqb_spec c 200) as [->|Hc].
  - by destruct (_ >? _).
  - simpl. split; [done | lia].
Qed.

(** The number of alerts of a type does not depend on the order in
    which the requests settle. *)
Lemma service_notices_count env t :
  Monitor.count_notices t (Monitor.service_notices env)
  = Monitor.count_notices t (flat_map (Monitor.service_notice env) Monitor.services).
Proof.
  apply MonitorFacts.monitor_count_notices_perm, MonitorFacts.monitor_flat_map_perm,
    MonitorFacts.monitor_completion_perm.
Qed.

Lemma service_notices_quiet env :
  Monitor.count_notices Monitor.CRITICAL (Monitor.service_notices env) = 0%nat
  ↔ ∀ n, n ∈ Monitor.services → quiet (Monitor.probe env n).
Proof.
  rewrite service_notices_count.
  induction Monitor.services as [|n l IH]; simpl.
  - split; [by intros _ ? ?%elem_of_nil | done].
  - rewrite MonitorFacts.monitor_count_notices_app. split.
    + intros H n' [->|Hn']%elem_of_cons.
      * apply service_notice_quiet. lia.
      * apply IH; [lia | done].
    + intros H.
      assert (Monitor.count_notices Monitor.CRITICAL (Monitor.service_notice env n)
              = 0%nat)
        as -> by (apply service_notice_quiet, H; left).
      apply IH. intros n' ?. apply H. by right.
Qed.

(** X3. The monitor returns true exactly when the connection and the
    disconnection succeed, no orphaned row is counted, no tenant has a
    dimension EXCEEDED, and every service answers 200.  A statement
    that fails raises no alert, a slow service only a WARNING, and a
    probe that rejects is only logged: none of them changes the
    verdict. *)
Theorem monitor_healthy_iff (w : RowSource) (env : Monitor.Environment) :
  fst (Monitor.runFullHealthCheck w env Monitor.constructor) = Value true
  ↔ connect_error w = None
    ∧ end_error w = None
    ∧ (statement_error w LeakageCheck = None →
       statement_error w OrphanCheckAll = None →
       Monitor.orphan_violations (database w) = [])
    ∧ (statement_error w PerfCheck = None →
       ∀ rows, Monitor.perf_query (current_date w) (database w) = Value rows →
               Forall (λ t, Monitor.hasExceeded t = false) rows)
    ∧ (∀ n, n ∈ Monitor.services → quiet (Monitor.probe env n)).
Proof.
  destruct (connect_error w) as [e|] eqn:Hc.
  - rewrite (MonitorFacts.monitor_run_refused w env e) by done. simpl.
    split; [done | by intros [? _]].
  - destruct (MonitorFacts.monitor_run_new w env Hc) as (lines & ->). simpl.
    unfold Monitor.outcome. destruct (end_error w) as [e|].
    { split; [done | by intros (_ & ? & _)]. }
    rewrite <- isolation_notices_nil, <- performance_notices_nil,
      <- service_notices_quiet.
    rewrite <- (count_critical_all _ (isolation_notices_critical w)).
    rewrite <- (count_critical_all _ (performance_notices_critical w)).
    unfold Monitor.run_notices. rewrite !MonitorFacts.monitor_count_notices_app.
    split.
    + intros [= H%bool_decide_eq_true]. repeat split; lia.
    + intros (_ & _ & H1 & H2 & H3). f_equal. apply bool_decide_eq_true. lia.
Qed.

(** ** The service probes *)

Lemma service_notice_counts env n :
  Monitor.count_notices Monitor.WARNING (Monitor.service_notice env n)
  = (if slow env n then 1 else 0)%nat
  ∧ Monitor.count_notices Monitor.CRITICAL (Monitor.service_notice env n)
    = (if failed env n then 1 else 0)%nat.
Proof.
  unfold Monitor.service_notice, slow, failed, answered_200.
  destruct (Monitor.probe env n) as [c|e|e]; [|done|done].
  destruct (c =? 200), (_ >? _); done.
Qed.

Lemma flat_map_counts env t (p : string → bool) (l : list string) :
  (∀ n, Monitor.count_notices t (Monitor.service_notice env n)
        = (if p n then 1 else 0)%nat) →
  Monitor.count_notices t (flat_map (Monitor.service_notice env) l)
  = length (List.filter p l).
Proof.
  intros Hp. induction l as [|n l IH]; [done|]. simpl.
  rewrite MonitorFacts.monitor_count_notices_app, Hp, IH. by destruct (p n).
Qed.

(** X4. [checkServiceHealth] returns one result for each configured
    service, in the order of the configuration, healthy exactly when
    the service answered 200; no probe prevents another.  It adds one
    WARNING for each service that answered 200 above the threshold and
    one CRITICAL alert for each that answered another status or could
    not be reached; a probe that rejects adds none.  None of this
    depends on the order in which the requests settle. *)
Theorem service_health_results (env : Monitor.Environment) (s : Monitor.State) :
  fst (Monitor.checkServiceHealth env s)
  = Value (map (λ n, {| Monitor.serviceName := n;
                        Monitor.healthy := answered_200 (Monitor.probe env n) |})
               Monitor.services)
  ∧ Monitor.count_type Monitor.WARNING
      (Monitor.alerts (snd (Monitor.checkServiceHealth env s)))
    = (Monitor.count_type Monitor.WARNING (Monitor.alerts s)
       + length (List.filter (slow env) Monitor.services))%nat
  ∧ Monitor.count_type Monitor.CRITICAL
      (Monitor.alerts (snd (Monitor.checkServiceHealth env s)))
    = (Monitor.count_type Monitor.CRITICAL (Monitor.alerts s)
       + length (List.filter (failed env) Monitor.services))%nat.
Proof.
  rewrite (MonitorFacts.monitor_checkServiceHealth_after env env s) by done.
  cbn [fst snd Monitor.alerts Monitor.after].
  split; [done|].
  rewrite !MonitorFacts.monitor_count_type_app, !MonitorFacts.monitor_count_type_stamped.
  fold (Monitor.service_notices env). rewrite !service_notices_count.
  split; f_equal; apply flat_map_counts; intros n; apply service_notice_counts.
Qed.

(** ** What the joins count *)

Lemma count_app {A B} (e : A → option B) (l1 l2 : list A) :
  Rel.count e (l1 ++ l2) = Rel.count e l1 + Rel.count e l2.
Proof. unfold Rel.count. rewrite List.filter_app, length_app. lia. Qed.

Lemma sum_api_calls_app l1 l2 :
  Monitor.sum_api_calls (l1 ++ l2) = Monitor.sum_api_calls l1 + Monitor.sum_api_calls l2.
Proof.
  unfold Monitor.sum_api_calls. rewrite omap_app.
  induction (omap _ l1) as [|x xs IH]; simpl; lia.
Qed.

Lemma recent_usage_row today (t : Tenant) (u : option TenantUser) data :
  List.filter (Monitor.recent_usage today (t, u)) (tenant_usage_stats data)
  = recent_stats today data t.
Proof. reflexivity. Qed.

(** The rows the second join makes of one row of the first. *)
Lemma usage_rows_count today data (t : Tenant) (u : option TenantUser) :
  Rel.count (λ r : Tenant * option TenantUser * option TenantUsageStat, tu_id <$> r.1.2)
    (Rel.left_join_row (Monitor.recent_usage today) (t, u) (tenant_usage_stats data))
  = match u with
    | Some _ => Z.max 1 (Z.of_nat (length (recent_stats today data t)))
    | None => 0
    end.
Proof.
  unfold Rel.left_join_row. rewrite recent_usage_row.
  destruct (recent_stats today data t) as [|x S]; [by destruct u|].
  set (l := x :: S). assert (Hl : (1 <= length l)%nat) by (simpl; lia).
  clearbody l. unfold Rel.count.
  destruct u as [u|].
  - replace (List.filter _ _) with (map (λ b, (t, Some u, Some b)) l).
    + rewrite length_map. lia.
    + clear Hl. induction l as [|y l IH]; [done|]. simpl.
      by f_equal.
  - replace (List.filter _ _) with (@nil (Tenant * option TenantUser * option TenantUsageStat)).
    + done.
    + clear Hl. induction l as [|y l IH]; [done|]. simpl.
      done.
Qed.

Lemma usage_rows_sum today data (t : Tenant) (u : option TenantUser) :
  Monitor.sum_api_calls
    (Rel.left_join_row (Monitor.recent_usage today) (t, u) (tenant_usage_stats data))
  = total_api_calls (recent_stats today data t).
Proof.
  unfold Rel.left_join_row. rewrite recent_usage_row. unfold total_api_calls.
  destruct (recent_stats today data t) as [|x S]; [done|].
  set (l := x :: S). clearbody l. unfold Monitor.sum_api_calls.
  induction l as [|y l IH]; [done|]. simpl. f_equal. exact IH.
Qed.

Lemma metrics_join_users today data (t : Tenant) (us : list TenantUser) :
  let joined :=
    Rel.left_join (Monitor.recent_usage today) (map (λ u, (t, Some u)) us)
      (tenant_usage_stats data) in
  Rel.count (λ r, tu_id <$> r.1.2) joined
  = Z.of_nat (length us) * Z.max 1 (Z.of_nat (length (recent_stats today data t)))
  ∧ Monitor.sum_api_calls joined
    = Z.of_nat (length us) * total_api_calls (recent_stats today data t).
Proof.
  unfold Rel.left_join. induction us as [|u us [IH1 IH2]]; [done|].
  cbn [map flat_map length]. rewrite count_app, sum_api_calls_app, IH1, IH2.
  rewrite usage_rows_count, usage_rows_sum. split; lia.
Qed.

Lemma metrics_join_counts today data (t : Tenant) :
  Rel.count (λ r, tu_id <$> r.1.2) (Monitor.metrics_join today data t)
  = Z.of_nat (length (active_users data t))
    * Z.max 1 (Z.of_nat (length (recent_stats today data t)))
  ∧ Monitor.sum_api_calls (Monitor.metrics_join today data t)
    = Z.max 1 (Z.of_nat (length (active_users data t)))
      * total_api_calls (recent_stats today data t).
Proof.
  unfold Monitor.metrics_join, Rel.left_join_row. fold (active_users data t).
  destruct (active_users data t) as [|u us] eqn:Hus.
  - unfold Rel.left_join. cbn [flat_map]. rewrite app_nil_r.
    rewrite usage_rows_count, usage_rows_sum. simpl length. split; lia.
  - destruct (metrics_join_users today data t (u :: us)) as [H1 H2].
    rewrite H1, H2. split; [done|]. f_equal. simpl length. lia.
Qed.

Lemma performance_counts_are_multiplied_aux
    (today : Z) (data : Database) (t : Tenant) (m : Monitor.MetricsRow) :
  Monitor.tenant_metrics_row today data t = Value m →
  Monitor.m_user_count m
  = Z.of_nat (length (active_users data t))
    * Z.max 1 (Z.of_nat (length (recent_stats today data t)))
  ∧ Monitor.m_api_calls_count m
    = Z.max 1 (Z.of_nat (length (active_users data t)))
      * total_api_calls (recent_stats today data t).
Proof.
  unfold Monitor.tenant_metrics_row. intros H.
  destruct (Sql.int4in (Sql.coalesce (t_limits_users t) "999999")) as [mu|]; [|done].
  destruct (Sql.int4in (Sql.coalesce (t_limits_apiCalls t) "999999")) as [ma|]; [|done].
  injection H as <-. apply metrics_join_counts.
Qed.

(** X5. The performance check joins both child tables to the tenant in
    one statement, so each active user row is repeated once for every
    usage row of the last 30 days and conversely: [user_count] is the
    number of active users times the number of recent usage rows (times
    one when there is none), and [api_calls_count] is the sum of the
    recent API calls times the number of active users (times one when
    there is none). *)
Theorem performance_counts_are_multiplied
    (today : Z) (data : Database) (t : Tenant) (m : Monitor.MetricsRow) :
  Monitor.tenant_metrics_row today data t = Value m →
  Monitor.m_user_count m
  = Z.of_nat (length (active_users data t))
    * Z.max 1 (Z.of_nat (length (recent_stats today data t)))
  ∧ Monitor.m_api_calls_count m
    = Z.max 1 (Z.of_nat (length (active_users data t)))
      * total_api_calls (recent_stats today data t).
Proof. apply performance_counts_are_multiplied_aux. Qed.

Lemma performance_counts_are_multiplied_witness :
  Monitor.tenant_metrics_row 20000 Cases.busy Cases.acme = Value Cases.busy_metrics
  ∧ Monitor.m_user_count Cases.busy_metrics = 2 * 3
  ∧ Monitor.m_api_calls_count Cases.busy_metrics = 2 * 300.
Proof.
  split; [reflexivity|].
  exact (performance_counts_are_multiplied 20000 Cases.busy Cases.acme
           Cases.busy_metrics eq_refl).
Defined.

Lemma production_join_count (data : Database) (t : Tenant) :
  Rel.count (λ r : Tenant * option TenantUser, tu_id <$> r.2)
    (Rel.left_join_row Production.active_member t (tenant_users data))
  = Z.of_nat (length (List.filter (Production.active_member t) (tenant_users data))).
Proof.
  unfold Rel.left_join_row.
  destruct (List.filter (Production.active_member t) (tenant_users data)) as [|u us];
    [done|].
  set (l := u :: us). clearbody l. unfold Rel.count. f_equal.
  induction l as [|y l IH]; [done|]. simpl. by f_equal.
Qed.

(** X6. The capacity check of the production script joins only
    [tenant_users], so its [current_users] is exactly the number of
    active user rows of the tenant; the [user_count] of the monitor,
    for the same tenant and data, is that number times the number of
    recent usage rows (times one when there is none). *)
Theorem production_counts_active_users
    (today : Z) (data : Database) (t : Tenant)
    (row : Production.CapacityRow) (m : Monitor.MetricsRow) :
  Production.tenant_capacity_row data t = Value row →
  Monitor.tenant_metrics_row today data t = Value m →
  Production.current_users row
  = Z.of_nat (length (List.filter (Production.active_member t) (tenant_users data)))
  ∧ Monitor.m_user_count m
    = Production.current_users row
      * Z.max 1 (Z.of_nat (length (recent_stats today data t))).
Proof.
  intros Hrow Hm.
  assert (Hcur : Production.current_users row
                 = Z.of_nat (length (List.filter (Production.active_member t)
                                       (tenant_users data)))).
  { unfold Production.tenant_capacity_row in Hrow.
    destruct (Sql.int4in _) as [mx|]; [|done]. injection Hrow as <-.
    apply production_join_count. }
  split; [done|].
  destruct (performance_counts_are_multiplied_aux today data t m Hm) as [-> _].
  by rewrite Hcur.
Qed.

Lemma production_counts_active_users_witness :
  Production.tenant_capacity_row Cases.busy Cases.acme = Value Cases.busy_capacity
  ∧ Monitor.tenant_metrics_row 20000 Cases.busy Cases.acme = Value Cases.busy_metrics
  ∧ Production.current_users Cases.busy_capacity = 2
  ∧ Monitor.m_user_count Cases.busy_metrics = 2 * 3.
Proof.
  split; [reflexivity|]. split; [reflexivity|].
  exact (production_counts_active_users 20000 Cases.busy Cases.acme
           Cases.busy_capacity Cases.busy_metrics eq_refl eq_refl).
Defined.

(** ** What the orphan statements count *)

(** X7. The orphan counts are exact: each statement counts the rows of
    its child table whose [tenant_id] is NULL or the id of no tenant,
    active or not, and no other row.  The monitor counts them in both
    child tables, the production script in [tenant_users] only. *)
Theorem orphan_counts_are_exact (data : Database) :
  Monitor.orphan_query data
  = [ {| Monitor.table_name := "tenant_users";
         Monitor.orphan_count :=
           Z.of_nat (length (List.filter
                               (λ tu, references_no_tenant data (tu_tenant_id tu))
                               (tenant_users data))) |};
      {| Monitor.table_name := "tenant_usage_stats";
         Monitor.orphan_count :=
           Z.of_nat (length (List.filter
                               (λ tus, references_no_tenant data (tus_tenant_id tus))
                               (tenant_usage_stats data))) |} ]
  ∧ Production.orphan_query data
    = Z.of_nat (length (List.filter
                          (λ tu, references_no_tenant data (tu_tenant_id tu))
                          (tenant_users data))).
Proof.
  split.
  - unfold Monitor.orphan_query.
    by rewrite (orphans_exact Monitor.user_owner tu_tenant_id),
      (orphans_exact Monitor.usage_owner tus_tenant_id).
  - apply (orphans_exact Production.owner tu_tenant_id). done.
Qed.

Section ProductionLoop.
Import Production JsFacts ProductionFacts.

Lemma forEach_with_exact {A C} (l : list A) (body : A → C → M C)
    (upd : A → C → C) (iss : A → list string) (lin : A → string) :
  (∀ x c s, body x c s = (Value (upd x c), after s (iss x) [lin x] [])) →
  ∀ c s, Js.forEach_with l body c s
         = (Value (foldl (λ c x, upd x c) c l),
            after s (flat_map iss l) (map lin l) []).
Proof.
  intros Hbody. induction l as [|x l IH]; intros c s; simpl.
  - by rewrite production_ret_after.
  - erewrite bind_value by apply Hbody. by rewrite IH, production_after_after.
Qed.

Lemma tally_counts (rows : list CapacityRow) (n : Counters) :
  foldl (λ c x, tally x c) n rows
  = {| exceededCount := exceededCount n + capacity_rows_with EXCEEDED rows;
       warningCount := warningCount n + capacity_rows_with HIGH rows;
       healthyCount := healthyCount n + capacity_rows_with OK rows
                       + capacity_rows_with UNLIMITED rows |}.
Proof.
  revert n. induction rows as [|r rows IH]; intros n.
  - destruct n. unfold capacity_rows_with. simpl. f_equal; lia.
  - cbn [foldl]. rewrite IH. unfold tally, capacity_rows_with. cbn [List.filter].
    destruct (capacity_status r); simpl; f_equal; lia.
Qed.

Lemma capacity_rows_total (rows : list CapacityRow) :
  capacity_rows_with EXCEEDED rows + capacity_rows_with HIGH rows
  + capacity_rows_with OK rows + capacity_rows_with UNLIMITED rows
  = Z.of_nat (length rows).
Proof.
  unfold capacity_rows_with. induction rows as [|r rows IH]; [done|].
  cbn [List.filter length]. destruct (capacity_status r); simpl; lia.
Qed.

Lemma checkTenantLimits_exact (w : RowSource) (s : State) (rows : list CapacityRow) :
  db s = true →
  statement_error w CapacityCheck = None →
  capacity_query (database w) = Value rows →
  checkTenantLimits w s
  = (Value (capacity_rows_with EXCEEDED rows =? 0),
     after s
       (map (λ tenant, "Tenant capacity exceeded: " +:+ name tenant)
            (List.filter exceeded rows))
       ("Tenant Capacity Check"
        :: map capacity_line rows
        ++ [ "Capacity Summary: "
             +:+ pretty (capacity_rows_with OK rows + capacity_rows_with UNLIMITED rows)
             +:+ " healthy, " +:+ pretty (capacity_rows_with HIGH rows)
             +:+ " warnings, " +:+ pretty (capacity_rows_with EXCEEDED rows)
             +:+ " exceeded" ])
       [DbQuery CapacityCheck]).
Proof.
  intros Hdb Hq Hrows. unfold checkTenantLimits. step.
  erewrite try_catch_value; cycle 1.
  { step.
    erewrite bind_value; cycle 1.
    { apply (forEach_with_exact rows _ tally
               (λ tenant, if exceeded tenant
                          then ["Tenant capacity exceeded: " +:+ name tenant] else [])
               capacity_line).
      intros tenant n s'. unfold tally, exceeded, capacity_line.
      destruct (capacity_status tenant); simpl; repeat step;
        rewrite production_ret_after, ?production_after_after; simpl; reflexivity. }
    rewrite tally_counts. cbn [exceededCount warningCount healthyCount].
    step. apply production_ret_after. }
  rewrite !production_after_after, flat_map_filter. simpl. rewrite ?app_nil_r.
  reflexivity.
Qed.
End ProductionLoop.

(** X8. When its statement answers, [checkTenantLimits] prints one line
    for each row and a summary whose three counts are the numbers of
    rows that are OK or UNLIMITED, HIGH and EXCEEDED, which add up to
    the number of rows; it records one issue for each EXCEEDED row, in
    the order of the rows, and returns true exactly when no row is
    EXCEEDED.  HIGH rows only count as warnings. *)
Theorem capacity_check_summary
    (w : RowSource) (s : Production.State) (rows : list Production.CapacityRow) :
  Production.db s = true →
  statement_error w CapacityCheck = None →
  Production.capacity_query (database w) = Value rows →
  Production.checkTenantLimits w s
  = (Value (capacity_rows_with EXCEEDED rows =? 0),
     Production.after s
       (map (λ tenant, "Tenant capacity exceeded: " +:+ Production.name tenant)
            (List.filter Production.exceeded rows))
       ("Tenant Capacity Check"
        :: map capacity_line rows
        ++ [ "Capacity Summary: "
             +:+ pretty (capacity_rows_with OK rows + capacity_rows_with UNLIMITED rows)
             +:+ " healthy, " +:+ pretty (capacity_rows_with HIGH rows)
             +:+ " warnings, " +:+ pretty (capacity_rows_with EXCEEDED rows)
             +:+ " exceeded" ])
       [DbQuery CapacityCheck])
  ∧ capacity_rows_with EXCEEDED rows + capacity_rows_with HIGH rows
    + (capacity_rows_with OK rows + capacity_rows_with UNLIMITED rows)
    = Z.of_nat (length rows).
Proof.
  intros Hdb Hq Hrows. split; [by apply checkTenantLimits_exact|].
  pose proof (capacity_rows_total rows). lia.
Qed.

Section MonitorLoop.
Import Monitor JsFacts MonitorFacts.

Lemma perf_tally_counts (rows : list PerfRow) (n : Counters) :
  foldl (λ c x, perf_tally x c) n rows
  = {| healthyTenants := healthyTenants n + perf_rows_in Healthy rows;
       warningTenants := warningTenants n + perf_rows_in Warning rows;
       criticalTenants := criticalTenants n + perf_rows_in Critical rows |}.
Proof.
  revert n. induction rows as [|r rows IH]; intros n.
  - destruct n. unfold perf_rows_in. simpl. f_equal; lia.
  - cbn [foldl]. rewrite IH. unfold perf_tally, perf_rows_in. cbn [List.filter].
    destruct (bucket r); simpl; f_equal; lia.
Qed.

Lemma perf_rows_total (rows : list PerfRow) :
  perf_rows_in Healthy rows + perf_rows_in Warning rows + perf_rows_in Critical rows
  = Z.of_nat (length rows).
Proof.
  unfold perf_rows_in. induction rows as [|r rows IH]; [done|].
  cbn [List.filter length]. destruct (bucket r); simpl; lia.
Qed.

Lemma checkTenantPerformance_exact (w : RowSource) (env : Environment) (s : State)
    (rows : list PerfRow) :
  db s = true →
  statement_error w PerfCheck = None →
  perf_query (current_date w) (database w) = Value rows →
  checkTenantPerformance w env s
  = (Value tt,
     after env s [] (map limits_notice (List.filter hasExceeded rows))
       ("Tenant Performance Health"
        :: map perf_line rows
        ++ [ "Tenant Performance Summary: " +:+ pretty (perf_rows_in Healthy rows)
             +:+ " healthy, " +:+ pretty (perf_rows_in Warning rows)
             +:+ " warnings, " +:+ pretty (perf_rows_in Critical rows)
             +:+ " critical" ])
       [DbQuery PerfCheck]).
Proof.
  intros Hdb Hq Hrows. unfold checkTenantPerformance. mstep env.
  erewrite try_catch_value; cycle 1.
  { mstep env.
    erewrite bind_value; cycle 1.
    { apply (monitor_forEach_with_after env) with
        (al := λ tenant, if hasExceeded tenant then [limits_notice tenant] else [])
        (lin := λ tenant, [perf_line tenant])
        (upd := perf_tally).
      intros tenant n s'. unfold perf_tally, perf_line, bucket, limits_notice.
      destruct (hasExceeded tenant); [|destruct (hasWarning tenant)];
        repeat mstep env; rewrite (monitor_ret_after env), ?monitor_after_after; simpl;
        reflexivity. }
    rewrite perf_tally_counts. cbn [healthyTenants warningTenants criticalTenants].
    apply monitor_log_after. }
  rewrite !monitor_after_after, flat_map_filter, flat_map_singleton. simpl.
  rewrite ?app_nil_r. reflexivity.
Qed.
End MonitorLoop.

(** X9. When its statement answers, [checkTenantPerformance] puts every
    row in exactly one bucket, critical if a dimension is EXCEEDED,
    else warning if one is HIGH, else healthy (UNLIMITED counts as
    healthy); it prints one line for each row and the three counts,
    which add up to the number of rows, and raises one CRITICAL alert
    'Tenant Limits' for each critical row, each with its own reading
    of the clock, and none for a warning. *)
Theorem performance_check_summary
    (w : RowSource) (env : Monitor.Environment) (s : Monitor.State)
    (rows : list Monitor.PerfRow) :
  Monitor.db s = true →
  statement_error w PerfCheck = None →
  Monitor.perf_query (current_date w) (database w) = Value rows →
  Monitor.checkTenantPerformance w env s
  = (Value tt,
     Monitor.after env s []
       (map Monitor.limits_notice (List.filter Monitor.hasExceeded rows))
       ("Tenant Performance Health"
        :: map perf_line rows
        ++ [ "Tenant Performance Summary: " +:+ pretty (perf_rows_in Healthy rows)
             +:+ " healthy, " +:+ pretty (perf_rows_in Warning rows)
             +:+ " warnings, " +:+ pretty (perf_rows_in Critical rows)
             +:+ " critical" ])
       [DbQuery PerfCheck])
  ∧ perf_rows_in Healthy rows + perf_rows_in Warning rows + perf_rows_in Critical rows
    = Z.of_nat (length rows)
  ∧ Z.of_nat (length (List.filter Monitor.hasExceeded rows))
    = perf_rows_in Critical rows.
Proof.
  intros Hdb Hq Hrows. split; [by apply checkTenantPerformance_exact|].
  split; [apply perf_rows_total|].
  unfold perf_rows_in, bucket. f_equal. f_equal. apply List.filter_ext. intros r.
  destruct (Monitor.hasExceeded r); [done|]. by destruct (Monitor.hasWarning r).
Qed.

Lemma capacity_check_summary_witness :
  fst (Production.checkTenantLimits (Sample.reachable Sample.over_limit)
         (Production.connected Production.constructor))
  = Value false.
Proof.
  exact (f_equal fst
           (proj1 (capacity_check_summary (Sample.reachable Sample.over_limit)
                     (Production.connected Production.constructor) _
                     eq_refl eq_refl eq_refl))).
Defined.

Lemma performance_check_summary_witness :
  Monitor.console
    (snd (Monitor.checkTenantPerformance (Sample.reachable Cases.busy)
            Sample.healthy_services (Monitor.connected Monitor.constructor)))
  = [ "Tenant Performance Health";
      "acme - OK: Users: 6/10 (60%), API: 600/1000 (60%)";
      "Tenant Performance Summary: 1 healthy, 0 warnings, 0 critical" ].
Proof.
  exact (f_equal (λ r, Monitor.console (snd r))
           (proj1 (performance_check_summary (Sample.reachable Cases.busy)
                     Sample.healthy_services (Monitor.connected Monitor.constructor) _
                     eq_refl eq_refl eq_refl))).
Defined.

(** ** Limits that are not integers *)

Lemma rmap_error {A B} (f : A → result B) (l : list A) (a : A) (e : string) :
  In a l → f a = Error e → ∃ e', rmap f l = Error e'.
Proof.
  intros Hin Hf. induction l as [|x l IH]; [done|]. simpl.
  destruct (f x) as [b|e1] eqn:Hx; [|by eexists].
  destruct Hin as [->|Hin]; [congruence|].
  destruct (IH Hin) as (e' & ->). by eexists.
Qed.

Lemma blanks_are_literal (s : string) :
  String.length (Sql.skip_blanks s) = 0%nat → Sql.never_integer s = false.
Proof.
  induction s as [|a s IH]; [done|]. simpl.
  unfold Sql.literal_character.
  destruct (Sql.is_blank a); [by intros ?%IH | done].
Qed.

Lemma digits_are_literal (s : string) (seen : bool) (acc z : Z) :
  Sql.digits_value seen acc s = Some z → Sql.never_integer s = false.
Proof.
  revert seen acc. induction s as [|a s IH]; intros seen acc; [done|].
  cbn [Sql.digits_value].
  destruct (Sql.digit_of a) as [d|] eqn:Hd.
  - intros ?%IH. cbn [Sql.never_integer]. unfold Sql.literal_character.
    rewrite Hd, (bool_decide_eq_true_2 (Some d ≠ None)) by done.
    by rewrite orb_true_r.
  - destruct seen; [|done]. cbn [andb].
    destruct (Nat.eqb_spec (String.length (Sql.skip_blanks (String a s))) 0)
      as [Hb|]; [|done].
    intros _. by apply blanks_are_literal in Hb.
Qed.

Lemma never_integer_skip_blanks (s : string) :
  Sql.never_integer s = true → Sql.never_integer (Sql.skip_blanks s) = true.
Proof.
  induction s as [|a s IH]; [done|]. simpl. unfold Sql.literal_character.
  destruct (Sql.is_blank a) eqn:Ha; [done|].
  simpl. unfold Sql.literal_character. by rewrite Ha.
Qed.

(** A text with a character of no integer literal is refused. *)
Lemma never_integer_refused (s : string) :
  Sql.never_integer s = true → ∃ e, Sql.int4in s = Error e.
Proof.
  intros Hs%never_integer_skip_blanks. unfold Sql.int4in.
  assert (Hparsed :
    match Sql.skip_blanks s with
    | String "-"%char r => Z.opp <$> Sql.digits_value false 0 r
    | String "+"%char r => Sql.digits_value false 0 r
    | _ => Sql.digits_value false 0 (Sql.skip_blanks s)
    end = None).
  { destruct (Sql.skip_blanks s) as [|a r]; [done|].
    destruct (Ascii.eqb_spec a "-"%char) as [->|Hminus].
    - destruct (Sql.digits_value false 0 r) eqn:Hr; [|done].
      apply digits_are_literal in Hr. simpl in Hs. congruence.
    - destruct (Ascii.eqb_spec a "+"%char) as [->|Hplus].
      + destruct (Sql.digits_value false 0 r) eqn:Hr; [|done].
        apply digits_are_literal in Hr. simpl in Hs. congruence.
      + assert (Hd : Sql.digits_value false 0 (String a r) = None).
        { destruct (Sql.digits_value false 0 (String a r)) eqn:Hr; [|done].
          apply digits_are_literal in Hr. congruence. }
        destruct a as [[] [] [] [] [] [] [] []]; try exact Hd; congruence. }
  cbv zeta. rewrite Hparsed. by eexists.
Qed.

Lemma production_main_issues (w : RowSource) :
  connect_error w = None →
  Production.issues (snd (Production.main w)) = Production.run_issues w.
Proof.
  intros Hc. unfold Production.main, Production.exit_of.
  destruct (ProductionFacts.production_run_new w Hc) as (lines & ->).
  unfold Production.outcome. by destruct (end_error w).
Qed.

(** X10. The limit of every active tenant is cast to [int] inside the
    statement, so one active tenant whose [limits->>'users'] holds an
    ASCII character of no integer literal (a letter such as [t], a
    dot, a comma: what no version of the server reads as an integer)
    makes
    the whole capacity statement fail: the production run records the
    issue 'Capacity check failure: ...' with the error of the
    statement, and the process exits 1, whatever the other tenants
    are.  The performance statement of the monitor fails in the same
    way, but [checkTenantPerformance] only logs the failure and raises
    no alert. *)
Theorem unreadable_limit_blocks_production
    (w : RowSource) (env : Monitor.Environment) (t : Tenant) :
  t ∈ tenants (database w) →
  active t = true →
  Sql.never_integer (Sql.coalesce (t_limits_users t) "999999") = true →
  ∃ e e',
    Production.capacity_query (database w) = Error e
    ∧ (connect_error w = None → statement_error w CapacityCheck = None →
       "Capacity check failure: " +:+ e ∈ Production.issues (snd (Production.main w)))
    ∧ fst (Production.main w) = 1
    ∧ Monitor.perf_query (current_date w) (database w) = Error e'
    ∧ ∀ s, Monitor.db s = true → statement_error w PerfCheck = None →
        Monitor.checkTenantPerformance w env s
        = (Value tt,
           Monitor.after env s [] []
             [ "Tenant Performance Health";
               "Tenant performance check failed: " +:+ e' ]
             [DbQuery PerfCheck]).
Proof.
  intros Ht Hact (e0 & He)%never_integer_refused.
  assert (Hin : In t (List.filter active (tenants (database w)))).
  { apply filter_In. split; [by apply list_elem_of_In | done]. }
  assert (Hcap : ∃ e, Production.capacity_query (database w) = Error e).
  { unfold Production.capacity_query.
    destruct (rmap_error (Production.tenant_capacity_row (database w)) _ t e0 Hin)
      as (e & ->); [|by eexists].
    unfold Production.tenant_capacity_row. by rewrite He. }
  assert (Hperf : ∃ e', Monitor.perf_query (current_date w) (database w) = Error e').
  { unfold Monitor.perf_query.
    destruct (rmap_error (Monitor.tenant_metrics_row (current_date w) (database w))
                _ t e0 Hin) as (e' & ->); [|by eexists].
    unfold Monitor.tenant_metrics_row. by rewrite He. }
  destruct Hcap as (e & Hcap), Hperf as (e' & Hperf). exists e, e'.
  split; [done|]. split; [|split; [|split; [done|]]].
  - intros Hc Hq. rewrite production_main_issues by done.
    unfold Production.run_issues, Production.capacity_issues.
    rewrite Hq, Hcap, !elem_of_app. right. left. by left.
  - rewrite production_main_exit. apply exit_code_one. intros Hready.
    apply production_ready_issues in Hready as (_ & _ & Hnil).
    apply ProductionFacts.production_run_issues_nil in Hnil as (_ & Hc & _).
    apply ProductionFacts.production_capacity_issues_nil in Hc as (_ & rows & Hrows & _).
    congruence.
  - intros s Hdb Hq. unfold Monitor.checkTenantPerformance.
    erewrite JsFacts.bind_value by apply (MonitorFacts.monitor_log_after env).
    erewrite JsFacts.try_catch_error; cycle 1.
    { erewrite JsFacts.bind_error; [reflexivity|].
      by apply (MonitorFacts.monitor_db_query_failed env). }
    rewrite (MonitorFacts.monitor_log_after env), !MonitorFacts.monitor_after_after.
    reflexivity.
Qed.

Lemma unreadable_limit_blocks_production_witness :
  "Capacity check failure: invalid input syntax for type integer: "
  +:+ Sql.quoted "ten"
  ∈ Production.issues
      (snd (Production.main
              (Sample.reachable
                 {| tenants := [Sample.tenant 1 "acme" (Some "ten") None];
                    tenant_users := []; tenant_usage_stats := [] |})))
  ∧ fst (Production.main
           (Sample.reachable
              {| tenants := [Sample.tenant 1 "acme" (Some "ten") None];
                 tenant_users := []; tenant_usage_stats := [] |})) = 1.
Proof.
  destruct (unreadable_limit_blocks_production
              (Sample.reachable
                 {| tenants := [Sample.tenant 1 "acme" (Some "ten") None];
                    tenant_users := []; tenant_usage_stats := [] |})
              Sample.healthy_services
              (Sample.tenant 1 "acme" (Some "ten") None))
    as (e & e' & Hcap & Hissue & Hexit & _).
  - apply list_elem_of_In. left. reflexivity.
  - reflexivity.
  - reflexivity.
  - injection Hcap as <-. split; [by apply Hissue | exact Hexit].
Defined.

(** X11. The production check tests the text of the limit against '-1'
    and compares the count with its integer value.  A limit whose text
    is not '-1' but casts to -1 (a leading zero or a blank) is
    therefore EXCEEDED for every count, while the line shows the limit
    as the infinity sign; the monitor, which tests the integer, says
    UNLIMITED. *)
Theorem unlimited_is_tested_on_the_text (data : Database) (t : Tenant) (txt : string) :
  t_limits_users t = Some txt →
  txt ≠ "-1" →
  Sql.int4in txt = Value (-1) →
  ∃ row, Production.tenant_capacity_row data t = Value row
         ∧ Production.capacity_status row = EXCEEDED
         ∧ Production.max_display (Production.max_users row) = infinity_sign
         ∧ Monitor.user_status_case (Production.current_users row)
             (Production.max_users row) = UNLIMITED.
Proof.
  intros Hl Htxt Hcast. unfold Production.tenant_capacity_row.
  rewrite Hl. cbn [Sql.coalesce]. rewrite Hcast. cbn [rbind].
  eexists. split; [reflexivity|]. cbn [Production.capacity_status Production.max_users
                                       Production.current_users].
  split; [|done]. unfold Production.capacity_case.
  rewrite bool_decide_false by congruence.
  unfold Rel.count. by destruct (Z.gtb_spec (Z.of_nat (length
    (List.filter (λ r : Tenant * option TenantUser, bool_decide (is_Some (tu_id <$> r.2)))
       (Rel.left_join_row Production.active_member t (tenant_users data))))) (-1)); [|lia].
Qed.

Lemma unlimited_is_tested_on_the_text_witness :
  ∃ row, Production.tenant_capacity_row Sample.empty
           (Sample.tenant 1 "acme" (Some "-01") None) = Value row
         ∧ Production.capacity_status row = EXCEEDED
         ∧ Production.max_display (Production.max_users row) = infinity_sign
         ∧ Monitor.user_status_case (Production.current_users row)
             (Production.max_users row) = UNLIMITED.
Proof.
  refine (unlimited_is_tested_on_the_text Sample.empty
            (Sample.tenant 1 "acme" (Some "-01") None) "-01" eq_refl _ eq_refl).
  discriminate.
Defined.

(** ** The integration test suite *)

Module SuiteFacts.
Import Suite.

Lemma suite_keeps_ret {A} (a : A) : keeps_results (Process.ret a).
Proof. by intros s. Qed.

Lemma suite_keeps_throw {A} (e : string) : keeps_results (@Process.throw State A e).
Proof. by intros s. Qed.

Lemma suite_keeps_log (line : string) : keeps_results (log line).
Proof. by intros s. Qed.

Lemma suite_keeps_gets {A} (f : State → A) : keeps_results (Process.gets f).
Proof. by intros s. Qed.

Lemma suite_keeps_bind {A B} (m : M A) (k : A → M B) :
  keeps_results m → (∀ a, keeps_results (k a)) → keeps_results (Process.bind m k).
Proof.
  intros Hm Hk s. unfold Process.bind. destruct (Hm s) as [Hr Hx].
  destruct (m s) as [[a|e|c] s1]; simpl in *; [|done|by destruct (Hx c)].
  destruct (Hk a s1) as [Hr' Hx']. by rewrite Hr', Hr.
Qed.

Lemma suite_keeps_try_catch {A} (m : M A) (h : string → M A) :
  keeps_results m → (∀ e, keeps_results (h e)) → keeps_results (Process.try_catch m h).
Proof.
  intros Hm Hh s. unfold Process.try_catch. destruct (Hm s) as [Hr Hx].
  destruct (m s) as [[a|e|c] s1]; simpl in *; [done| |by destruct (Hx c)].
  destruct (Hh e s1) as [Hr' Hx']. by rewrite Hr', Hr.
Qed.

Lemma suite_keeps_forEach_with {A C} (l : list A) (body : A → C → M C) (c : C) :
  (∀ a c, keeps_results (body a c)) → keeps_results (Process.forEach_with l body c).
Proof.
  intros Hbody. revert c. induction l as [|a l IH]; intros c; simpl.
  - apply suite_keeps_ret.
  - apply suite_keeps_bind; [apply Hbody | intros c'; apply IH].
Qed.

Lemma suite_keeps_send env url : keeps_results (send env url).
Proof. by intros s. Qed.

Lemma suite_keeps_makeRequest env url : keeps_results (makeRequest env url).
Proof.
  unfold makeRequest. apply suite_keeps_bind; [apply suite_keeps_send|].
  intros [n [r|e]]; [apply suite_keeps_ret | apply suite_keeps_throw].
Qed.

Lemma suite_keeps_Date_now env : keeps_results (Date_now env).
Proof. by intros s. Qed.

Lemma suite_keeps_count_accepted {A} env (items : list A) url accepted :
  keeps_results (count_accepted env items url accepted).
Proof.
  unfold count_accepted. apply suite_keeps_forEach_with. intros a c.
  apply suite_keeps_try_catch; [|intros; apply suite_keeps_ret].
  apply suite_keeps_bind; [apply suite_keeps_makeRequest|].
  intros r. destruct (accepted a r); apply suite_keeps_ret.
Qed.

Lemma suite_keeps_send_all env urls : keeps_results (send_all env urls).
Proof.
  induction urls as [|u urls IH]; simpl; [apply suite_keeps_ret|].
  apply suite_keeps_bind; [apply suite_keeps_send|]. intros x.
  apply suite_keeps_bind; [apply IH|]. intros xs. apply suite_keeps_ret.
Qed.

Lemma suite_keeps_Promise_all env sent : keeps_results (Promise_all env sent).
Proof.
  unfold Promise_all. destruct (first_rejection env sent) as [[t e]|];
    [apply suite_keeps_throw | apply suite_keeps_ret].
Qed.

Lemma suite_records_throw (e : string) : records_once (Process.throw e).
Proof. by intros s. Qed.

Lemma suite_records_pass (name detail line : string) :
  name ≠ test_name →
  records_once (recordResult name true detail;;; log line;;; Process.ret true).
Proof. intros Hname s. simpl. by eexists. Qed.

Lemma suite_records_bind {A} (m : M A) (k : A → M bool) :
  keeps_results m → (∀ a, records_once (k a)) → records_once (Process.bind m k).
Proof.
  intros Hm Hk s. unfold Process.bind. destruct (Hm s) as [Hr Hx].
  destruct (m s) as [[a|e|c] s1]; simpl in *; [|done|by destruct (Hx c)].
  specialize (Hk a s1). destruct (k a s1) as [[b|e|c] s2]; [|congruence|done].
  destruct Hk as (r & Hr2 & ?). exists r. by rewrite Hr2, Hr.
Qed.

Lemma suite_records_rethrow (m : M bool) (f : string → string) :
  records_once m → records_once (Process.try_catch m (λ e, Process.throw (f e))).
Proof.
  intros Hm s. unfold Process.try_catch. specialize (Hm s).
  by destruct (m s) as [[b|e|c] s1].
Qed.

Ltac keeps :=
  first [ apply suite_keeps_makeRequest | apply suite_keeps_count_accepted
        | apply suite_keeps_send_all | apply suite_keeps_Promise_all
        | apply suite_keeps_forEach_with ].

Ltac records :=
  repeat lazymatch goal with
         | |- records_once (Process.throw _) => apply suite_records_throw
         | |- records_once (Process.bind (recordResult _ _ _) _) =>
             apply suite_records_pass; discriminate
         | |- records_once (Process.try_catch ?m _) => apply (suite_records_rethrow m)
         | |- records_once (Process.bind ?m ?k) =>
             apply (suite_records_bind m k); [keeps | intros ?]
         | |- records_once (if ?b then _ else _) => destruct b
         | |- records_once (let _ := _ in _) => cbv zeta
         end.

Lemma suite_tests_record_once env :
  Forall records_once
    [ testAPIGatewayHealth env; testCloudFrontDistribution env;
      testS3DirectAccess env; testLambdaFunctions env;
      testCoreHealthEndpoint env; testAPIGatewayRouting env; testErrorHandling env;
      testStaticAssets env; testIndexHTML env; testModuleFederationAssets env;
      testTenantRouting; testTenantIsolation;
      testResponseTimes env; testLoadHandling env ].
Proof.
  repeat constructor.
  - unfold testAPIGatewayHealth. records.
  - unfold testCloudFrontDistribution. records.
  - unfold testS3DirectAccess. records.
  - unfold testLambdaFunctions. records.
  - unfold testCoreHealthEndpoint. records.
  - unfold testAPIGatewayRouting. records.
  - unfold testErrorHandling. records.
  - unfold testStaticAssets. records.
  - unfold testIndexHTML. records.
  - unfold testModuleFederationAssets. records.
  - unfold testTenantRouting. records.
  - unfold testTenantIsolation. records.
  - unfold testResponseTimes. records.
    intros endpoint t. apply suite_keeps_try_catch; [|intros; apply suite_keeps_ret].
    apply suite_keeps_bind; [apply suite_keeps_Date_now|]. intros start.
    apply suite_keeps_bind; [apply suite_keeps_makeRequest|]. intros _.
    apply suite_keeps_bind; [apply suite_keeps_Date_now|]. intros stop.
    apply suite_keeps_bind; [|intros; apply suite_keeps_ret].
    destruct (_ <? _); [apply suite_keeps_log | apply suite_keeps_ret].
  - unfold testLoadHandling. records.
Qed.


Lemma process_bind_returned {S A B} (m : @Process.M S A) (k : A → Process.M B) s a s' :
  m s = (Returned a, s') → Process.bind m k s = k a s'.
Proof. unfold Process.bind. by intros ->. Qed.

Lemma suite_group_loop (tests : list (M bool)) :
  Forall records_once tests →
  ∀ s, ∃ s' new,
    Process.forEach tests
      (λ test,
         Process.try_catch (test;;; Process.ret tt)
           (λ e, recordResult test_name false e;;;
                 log ("❌ " +:+ test_name +:+ ": " +:+ e))) s
    = (Returned tt, s')
    ∧ results s' = (results s ++ new)%list
    ∧ length new = length tests
    ∧ Forall named_iff_passed new.
Proof.
  intros Htests. induction Htests as [|t tests Ht _ IH]; intros s.
  - exists s, []. by rewrite app_nil_r.
  - cbn [Process.forEach]. specialize (Ht s).
    destruct (t s) as [[b|e|c] s1] eqn:Hts; [| |done].
    + destruct Ht as (r & Hr & Hp & Hn).
      destruct (IH s1) as (s' & new & Hloop & Hres & Hlen & Hall).
      exists s', (r :: new). split.
      { erewrite process_bind_returned; [exact Hloop|].
        unfold Process.try_catch, Process.bind. by rewrite Hts. }
      split; [by rewrite Hres, Hr, <- app_assoc|].
      split; [simpl; lia|]. constructor; [by left | done].
    + pose (s2 := snd ((recordResult test_name false e;;;
                        log ("❌ " +:+ test_name +:+ ": " +:+ e)) s1)).
      destruct (IH s2) as (s' & new & Hloop & Hres & Hlen & Hall).
      exists s', ({| test := test_name; passed := false; details := e |} :: new).
      split.
      { erewrite process_bind_returned; [exact Hloop|].
        unfold Process.try_catch, Process.bind at 1. by rewrite Hts. }
      split; [rewrite Hres; unfold s2; cbn; by rewrite Ht, <- app_assoc|].
      split; [simpl; lia|]. constructor; [by right | done].
Qed.

Lemma suite_testGroup (name : string) (tests : list (M bool)) :
  Forall records_once tests →
  ∀ s, ∃ s' new,
    testGroup name tests s = (Returned tt, s')
    ∧ results s' = (results s ++ new)%list
    ∧ length new = length tests
    ∧ Forall named_iff_passed new.
Proof.
  intros Htests s. unfold testGroup.
  erewrite process_bind_returned by reflexivity.
  erewrite process_bind_returned by reflexivity.
  match goal with
  | |- context [Process.forEach _ _ ?s0] =>
      destruct (suite_group_loop tests Htests s0) as (s' & new & Hloop & Hres & H)
  end.
  exists s', new. split; [exact Hloop|]. split; [exact Hres | exact H].
Qed.

Lemma suite_log_logged (line : string) (s : State) :
  log line s = (Returned tt, logged s [line]).
Proof. reflexivity. Qed.

Lemma suite_logged_logged (s : State) (a b : list string) :
  logged (logged s a) b = logged s (a ++ b).
Proof. unfold logged. simpl. by rewrite app_assoc. Qed.

Lemma suite_forEach_log {A} (l : list A) (f : A → string) (s : State) :
  Process.forEach l (λ x, log (f x)) s = (Returned tt, logged s (map f l)).
Proof.
  revert s. induction l as [|x l IH]; intros s.
  - unfold logged. simpl. rewrite app_nil_r. by destruct s.
  - cbn [Process.forEach map].
    erewrite process_bind_returned by apply suite_log_logged.
    by rewrite IH, suite_logged_logged.
Qed.

Ltac logs :=
  repeat (erewrite process_bind_returned by apply suite_log_logged;
          rewrite ?suite_logged_logged).

(** How [generateReport] ends the process. *)
Lemma suite_generateReport env (s : State) :
  ∃ s', generateReport env s
        = (Exited (if JsNumber.ge (success_rate (passed_count (results s))
                                     (length (results s))) 80
                   then 0 else 1), s')
        ∧ results s' = results s.
Proof.
  unfold generateReport.
  erewrite process_bind_returned by reflexivity.
  erewrite process_bind_returned by reflexivity.
  erewrite process_bind_returned by reflexivity.
  cbv zeta. cbn [results]. fold (passed_count (results s)).
  set (rate := success_rate _ _). clearbody rate.
  set (seconds := JsNumber.round _). clearbody seconds.
  match goal with |- context [Process.bind (log _) _ ?s0] => set (s1 := s0) end.
  assert (Hs1 : results s1 = results s) by reflexivity. clearbody s1.
  logs.
  erewrite process_bind_returned
    by apply (suite_forEach_log _
                (λ result, (if passed result then "✅" else "❌") +:+ " "
                           +:+ test result +:+ ": " +:+ details result)).
  rewrite ?suite_logged_logged. logs.
  destruct (JsNumber.ge rate 80); logs; eexists; (split; [reflexivity|]); exact Hs1.
Qed.

Lemma success_rate_of_14 (p : nat) :
  (p <= 14)%nat →
  JsNumber.ge (success_rate p 14) 80 = (12 <=? p)%nat.
Proof.
  intros Hp.
  assert (Hall : forallb (λ p, Bool.eqb (JsNumber.ge (success_rate p 14) 80) (12 <=? p)%nat)
                   (seq 0 15) = true) by (vm_compute; reflexivity).
  rewrite forallb_forall in Hall. apply Bool.eqb_prop, Hall, in_seq. lia.
Qed.

Lemma passed_count_le (l : list TestResult) : (passed_count l <= length l)%nat.
Proof. unfold passed_count. apply List.filter_length_le. Qed.

Lemma suite_placeholder_group (s : State) :
  ∃ s', testGroup "Multitenant Functionality" [testTenantRouting; testTenantIsolation] s
        = (Returned tt, s')
        ∧ results s' = (results s ++ [routing_result; isolation_result])%list.
Proof. eexists. split; [reflexivity|]. cbn. by rewrite <- app_assoc. Qed.

(** One run of the script. *)
Lemma suite_main_run env :
  ∃ s', main env
        = (Exited (if (12 <=? passed_count (results s'))%nat then 0 else 1), s')
        ∧ length (results s') = 14%nat
        ∧ Forall named_iff_passed (results s')
        ∧ routing_result ∈ results s'
        ∧ isolation_result ∈ results s'.
Proof.
  pose proof (suite_tests_record_once env) as H.
  repeat (apply Forall_cons in H as [? H]).
  unfold main, runAllTests.
  destruct (suite_testGroup "Infrastructure Health"
              [ testAPIGatewayHealth env; testCloudFrontDistribution env;
                testS3DirectAccess env; testLambdaFunctions env ]
              ltac:(repeat constructor; assumption) (constructor env))
    as (s1 & n1 & E1 & R1 & L1 & F1).
  destruct (suite_testGroup "API Endpoints"
              [ testCoreHealthEndpoint env; testAPIGatewayRouting env;
                testErrorHandling env ]
              ltac:(repeat constructor; assumption) s1)
    as (s2 & n2 & E2 & R2 & L2 & F2).
  destruct (suite_testGroup "Frontend Deployment"
              [ testStaticAssets env; testIndexHTML env; testModuleFederationAssets env ]
              ltac:(repeat constructor; assumption) s2)
    as (s3 & n3 & E3 & R3 & L3 & F3).
  destruct (suite_placeholder_group s3) as (s4 & E4 & R4).
  destruct (suite_testGroup "Performance & Reliability"
              [ testResponseTimes env; testLoadHandling env ]
              ltac:(repeat constructor; assumption) s4)
    as (s5 & n5 & E5 & R5 & L5 & F5).
  destruct (suite_generateReport env s5) as (s6 & E6 & R6).
  assert (Hres : results s6
                 = (n1 ++ n2 ++ n3 ++ [routing_result; isolation_result] ++ n5)%list).
  { rewrite R6, R5, R4, R3, R2, R1. cbn [results constructor].
    by rewrite <- !app_assoc. }
  assert (Hlen : length (results s6) = 14%nat).
  { rewrite Hres, !length_app. simpl in *. lia. }
  exists s6. split.
  - unfold Process.try_catch.
    erewrite (process_bind_returned _ _ _ _ _ E1).
    erewrite (process_bind_returned _ _ _ _ _ E2).
    erewrite (process_bind_returned _ _ _ _ _ E3).
    erewrite (process_bind_returned _ _ _ _ _ E4).
    erewrite (process_bind_returned _ _ _ _ _ E5).
    rewrite E6, <- R6, Hlen.
    by rewrite success_rate_of_14 by (rewrite <- Hlen; apply passed_count_le).
  - split; [done|]. rewrite Hres. split.
    + rewrite !Forall_app. repeat split; try done.
      do 2 (constructor; [by left|]). constructor.
    + rewrite !elem_of_app, !elem_of_cons. split; tauto.
Qed.

End SuiteFacts.

(** X12. The integration test suite always ends the process itself,
    after recording exactly 14 results, one for each test: it exits
    with 0 when at least 12 of them passed and with 1 otherwise, since
    [Math.round(passed / 14 * 100) >= 80] holds from 12 on. *)
Theorem suite_exit_code (env : Suite.Environment) :
  ∃ s', Suite.main env
        = (Exited (if (12 <=? Suite.passed_count (Suite.results s'))%nat then 0 else 1), s')
        ∧ length (Suite.results s') = 14%nat.
Proof.
  destruct (SuiteFacts.suite_main_run env) as (s' & Hrun & Hlen & _).
  by exists s'.
Qed.

(** X13. A test that throws is recorded by [testGroup] under
    [test.name], which is empty for the arrow functions of the test
    lists: in the results of a run every failed entry has the empty
    name and every passed entry a name, so the report does not say
    which tests failed. *)
Theorem suite_failures_are_anonymous (env : Suite.Environment) :
  Forall Suite.named_iff_passed (Suite.results (snd (Suite.main env))).
Proof.
  destruct (SuiteFacts.suite_main_run env) as (s' & Hrun & _ & Hall & _).
  by rewrite Hrun.
Qed.

(** X14. The tests 'Tenant Routing' and 'Tenant Isolation' are
    placeholders: they send no request and pass whatever the
    deployment does, so both are among the passed results of every
    run. *)
Theorem suite_tenant_tests_always_pass (env : Suite.Environment) (s : Suite.State) :
  fst (Suite.testTenantIsolation s) = Returned true
  ∧ Suite.requests (snd (Suite.testTenantIsolation s)) = Suite.requests s
  ∧ fst (Suite.testTenantRouting s) = Returned true
  ∧ Suite.requests (snd (Suite.testTenantRouting s)) = Suite.requests s
  ∧ Suite.isolation_result ∈ Suite.results (snd (Suite.main env))
  ∧ Suite.routing_result ∈ Suite.results (snd (Suite.main env)).
Proof.
  do 4 (split; [reflexivity|]).
  destruct (SuiteFacts.suite_main_run env) as (s' & Hrun & _ & _ & Hr & Hi).
  by rewrite Hrun.
Qed.


Lemma success_rate_of_none : Suite.success_rate 0 0 = JsNumber.NotANumber.
Proof. vm_compute. reflexivity. Qed.

(** X15. With no result recorded, [generateReport] divides 0 by 0: the
    success rate is NaN, the comparison with 80 is false, the line
    reads 'NaN% (0/0)' and the process exits with 1. *)
Theorem suite_report_without_results (env : Suite.Environment) (s : Suite.State) :
  Suite.results s = [] →
  fst (Suite.generateReport env s) = Exited 1
  ∧ "📈 Success Rate: NaN% (0/0)" ∈ Suite.console (snd (Suite.generateReport env s)).
Proof.
  intros Hs. unfold Suite.generateReport.
  do 3 (erewrite SuiteFacts.process_bind_returned by reflexivity).
  cbv zeta. cbn [Suite.results]. rewrite Hs. cbn [List.filter length Process.forEach].
  rewrite success_rate_of_none. cbn [JsNumber.ge JsNumber.to_text].
  set (seconds := JsNumber.round _). clearbody seconds.
  match goal with |- context [Process.bind (Suite.log _) _ ?s0] => set (s1 := s0) end.
  clearbody s1.
  SuiteFacts.logs.
  erewrite SuiteFacts.process_bind_returned by reflexivity.
  SuiteFacts.logs.
  split; [reflexivity|]. unfold Process.exit. cbn [snd Suite.console Suite.logged].
  apply elem_of_app. right.
  repeat (apply elem_of_app;
          first [ right; apply list_elem_of_singleton; reflexivity | left ]).
Qed.

Lemma suite_report_without_results_witness :
  fst (Suite.generateReport
         {| Suite.respond := λ _ _, Suite.Rejected "down";
            Suite.settle_time := λ _, 0; Suite.clock := λ _, 0 |}
         (Suite.constructor
            {| Suite.respond := λ _ _, Suite.Rejected "down";
               Suite.settle_time := λ _, 0; Suite.clock := λ _, 0 |}))
  = Exited 1.
Proof.
  exact (proj1 (suite_report_without_results _ (Suite.constructor _) eq_refl)).
Defined.

Section SuiteTests.
Import Suite SuiteFacts.

(** One round of the loop of [testResponseTimes]. *)
Lemma suite_timing_round env (endpoint : string) (t : Timing) (s : State) :
  ∃ t' s',
    Process.try_catch
      (start <<- Date_now env;;
       makeRequest env endpoint;;;
       stop <<- Date_now env;;
       (if 5000 <? stop - start then
          log ("⚠️ Slow response from " +:+ endpoint +:+ ": "
               +:+ pretty (stop - start) +:+ "ms")
        else Process.ret tt);;;
       Process.ret {| totalTime := totalTime t + (stop - start);
                      successful := successful t + 1 |})
      (λ _, Process.ret t) s
    = (Returned t', s')
    ∧ successful t'
      = successful t
        + (if is_resolved (respond env (length (requests s)) endpoint) then 1 else 0)
    ∧ requests s' = (requests s ++ [endpoint])%list.
Proof.
  unfold Process.try_catch, Process.bind, Date_now, makeRequest, send, Process.gets,
    Process.modify, Process.ret, Process.throw, log.
  cbn. destruct (respond env (length (requests s)) endpoint) as [r|e]; cbn.
  - destruct (5000 <? _); cbn; eexists _, _; (split; [reflexivity|]); done.
  - eexists _, _. split; [reflexivity|]. cbn. split; [lia | done].
Qed.

Lemma suite_timing env (s : State) :
  fst (testResponseTimes env s) = Returned true
  ↔ is_resolved (respond env (length (requests s)) (api +:+ "/health")) = true
    ∨ is_resolved (respond env (S (length (requests s))) frontend) = true.
Proof.
  unfold testResponseTimes. cbn [Process.forEach_with].
  destruct (suite_timing_round env (api +:+ "/health")
              {| totalTime := 0; successful := 0 |} s) as (t1 & s1 & E1 & S1 & R1).
  destruct (suite_timing_round env frontend t1 s1) as (t2 & s2 & E2 & S2 & R2).
  erewrite process_bind_returned; cycle 1.
  { erewrite process_bind_returned by exact E1.
    erewrite process_bind_returned by exact E2. reflexivity. }
  rewrite R1, length_app in S2. cbn [length] in S2.
  replace (length (requests s) + 1)%nat with (S (length (requests s))) in S2 by lia.
  cbn [successful] in S1.
  destruct (is_resolved (respond env (length (requests s)) _)),
    (is_resolved (respond env (S (length (requests s))) _));
    (replace (successful t2) with 2 by lia) || (replace (successful t2) with 1 by lia)
    || (replace (successful t2) with 0 by lia); cbn [Z.ltb Z.compare];
    try (split; [intros; tauto | reflexivity]).
  split; [discriminate | intros [|]; discriminate].
Qed.
End SuiteTests.

(** X16. [testResponseTimes] sends one request to each of its two
    endpoints and passes as soon as one of them resolves: it looks
    neither at the status code nor at the time, which it only
    reports. *)
Theorem response_time_test_passes_iff (env : Suite.Environment) (s : Suite.State) :
  fst (Suite.testResponseTimes env s) = Returned true
  ↔ Suite.is_resolved
      (Suite.respond env (length (Suite.requests s)) (Suite.api +:+ "/health")) = true
    ∨ Suite.is_resolved
        (Suite.respond env (S (length (Suite.requests s))) Suite.frontend) = true.
Proof. apply suite_timing. Qed.

Section SuiteLoad.
Import Suite SuiteFacts.

Lemma suite_send_all env (urls : list string) (s : State) :
  ∃ s', send_all env urls s = (Returned (sent_from env (length (requests s)) urls), s')
        ∧ results s' = results s.
Proof.
  revert s. induction urls as [|url urls IH]; intros s.
  - by exists s.
  - cbn [send_all].
    erewrite process_bind_returned by reflexivity.
    match goal with
    | |- context [Process.bind (send_all _ _) _ ?s0] =>
        destruct (IH s0) as (s' & Hsend & Hres)
    end.
    erewrite process_bind_returned by exact Hsend.
    exists s'. split; [|exact Hres]. unfold Process.ret. f_equal. f_equal.
    unfold sent_from. cbn [imap requests]. rewrite length_app. cbn [length].
    rewrite Nat.add_0_r. f_equal.
    apply imap_ext. intros k url' _. cbn.
    by replace (length (requests s) + 1 + k)%nat
      with (length (requests s) + S k)%nat by lia.
Qed.

Lemma suite_first_rejection_none env (sent : list (nat * Settled)) :
  first_rejection env sent = None ↔ Forall (λ x, is_resolved x.2 = true) sent.
Proof.
  induction sent as [|[n [r|e]] sent IH]; cbn [first_rejection].
  - split; [constructor | done].
  - rewrite IH. split; [by constructor | by intros [_ ?]%Forall_cons].
  - split; [by destruct (first_rejection env sent) as [[? ?]|]; [destruct (_ <? _)|]|].
    by intros [? _]%Forall_cons.
Qed.

Lemma suite_resolved_200 (sent : list (nat * Settled)) :
  Forall (λ x, is_resolved x.2 = true) sent →
  length (List.filter (λ r, statusCode r =? 200) (resolved sent))
  = length (List.filter (λ x : nat * Settled, is_200 x.2) sent).
Proof.
  unfold resolved. induction 1 as [|[n [r|e]] sent Hx _ IH]; [done| |done].
  cbn. destruct (statusCode r =? 200); cbn; by rewrite IH.
Qed.

Lemma suite_load env (s : State) :
  fst (testLoadHandling env s) = Returned true
  ↔ Forall (λ x, is_resolved x.2 = true)
      (sent_from env (length (requests s)) (replicate 5 (api +:+ "/health")))
    ∧ (3 <= length (List.filter (λ x : nat * Settled, is_200 x.2)
                      (sent_from env (length (requests s))
                         (replicate 5 (api +:+ "/health")))))%nat.
Proof.
  unfold testLoadHandling.
  destruct (suite_send_all env (replicate 5 (api +:+ "/health")) s) as (s1 & E1 & _).
  erewrite process_bind_returned by exact E1.
  set (sent := sent_from env _ _). clearbody sent.
  unfold Process.try_catch, Promise_all.
  pose proof (suite_first_rejection_none env sent) as Hnone.
  destruct (first_rejection env sent) as [[t e]|].
  - unfold Process.bind, Process.throw. cbn. split; [done|].
    intros [Hall _]. by apply Hnone in Hall.
  - erewrite process_bind_returned by reflexivity. cbv zeta.
    rewrite (suite_resolved_200 sent) by (by apply Hnone).
    destruct (Nat.leb_spec 3 (length (List.filter (λ x : nat * Settled, is_200 x.2) sent))).
    + split; [|done]. intros _. split; [by apply Hnone | done].
    + unfold Process.throw. cbn. split; [done | intros [_ ?]; lia].
Qed.
End SuiteLoad.

(** X17. [testLoadHandling] sends five requests at once and passes
    exactly when all five resolve and at least three of them with
    status 200: two answers with another status are tolerated, but one
    request that rejects fails the test even if the four others
    answered 200. *)
Theorem load_test_passes_iff (env : Suite.Environment) (s : Suite.State) :
  fst (Suite.testLoadHandling env s) = Returned true
  ↔ Forall (λ x, Suite.is_resolved x.2 = true)
      (Suite.sent_from env (length (Suite.requests s)) (replicate 5 (Suite.api +:+ "/health")))
    ∧ (3 <= length (List.filter (λ x : nat * Suite.Settled, Suite.is_200 x.2)
                      (Suite.sent_from env (length (Suite.requests s))
                         (replicate 5 (Suite.api +:+ "/health")))))%nat.
Proof. apply suite_load. Qed.

Section SuiteCount.
Import Suite SuiteFacts.

Lemma suite_count_loop {A} env (items : list A) (url : A → string)
    (accepted : A → Response → bool) (c : Z) (s : State) :
  ∃ s',
    Process.forEach_with items
      (λ (item : A) (successful : Z),
         Process.try_catch
           (result <<- makeRequest env (url item);;
            if accepted item result then Process.ret (successful + 1)
            else Process.ret successful)
           (λ _, Process.ret successful) : M Z) c s
    = (Returned (c + accepted_from env (length (requests s)) items url accepted), s').
Proof.
  revert c s. induction items as [|item items IH]; intros c s.
  - exists s. cbn. by rewrite Z.add_0_r.
  - cbn [Process.forEach_with accepted_from].
    assert (Hround : ∃ s1 : State,
      Process.try_catch
        (result <<- makeRequest env (url item);;
         if accepted item result then Process.ret (c + 1) else Process.ret c)
        (λ _, Process.ret c : M Z) s
      = (Returned (c + match respond env (length (requests s)) (url item) with
                       | Resolved r => if accepted item r then 1 else 0
                       | Rejected _ => 0
                       end), s1)
      ∧ length (requests s1) = S (length (requests s))).
    { unfold Process.try_catch, Process.bind, makeRequest, send, Process.gets,
        Process.modify, Process.ret, Process.throw. cbn.
      destruct (respond env (length (requests s)) (url item)) as [r|e]; cbn.
      - destruct (accepted item r); rewrite ?Z.add_0_r; eexists;
          (split; [reflexivity|]); cbn; rewrite length_app; cbn; lia.
      - eexists. split; [by rewrite Z.add_0_r|]. cbn. rewrite length_app. cbn. lia. }
    destruct Hround as (s1 & E1 & L1).
    erewrite process_bind_returned by exact E1.
    destruct (IH (c + match respond env (length (requests s)) (url item) with
                      | Resolved r => if accepted item r then 1 else 0
                      | Rejected _ => 0
                      end) s1) as (s' & ->).
    exists s'. rewrite L1. f_equal. f_equal. lia.
Qed.

Lemma suite_routing env (s : State) :
  fst (testAPIGatewayRouting env s) = Returned true
  ↔ 2 <= accepted_from env (length (requests s)) routes
           (λ route, api +:+ path route)
           (λ route result, bool_decide (statusCode result ∈ expectedStatus route)).
Proof.
  unfold testAPIGatewayRouting, count_accepted.
  destruct (suite_count_loop env routes (λ route, api +:+ path route)
              (λ route result, bool_decide (statusCode result ∈ expectedStatus route))
              0 s) as (s' & E).
  erewrite process_bind_returned by exact E.
  set (n := accepted_from _ _ _ _ _). clearbody n. cbn [length routes Z.of_nat].
  change (Z.of_nat 3) with 3. rewrite Z.add_0_l.
  destruct (Z.leb_spec 3 (2 * n)).
  - cbv zeta. split; [lia | done].
  - unfold Process.throw. cbn. split; [done | lia].
Qed.
End SuiteCount.

(** X18. [testAPIGatewayRouting] compares the number of routes that
    answer an expected status with 1.5: it passes exactly when at
    least two of its three routes do.  A request that rejects counts
    as a route that does not work and does not fail the test by
    itself. *)
Theorem routing_test_passes_iff (env : Suite.Environment) (s : Suite.State) :
  fst (Suite.testAPIGatewayRouting env s) = Returned true
  ↔ 2 <= Suite.accepted_from env (length (Suite.requests s)) Suite.routes
           (λ route, Suite.api +:+ Suite.path route)
           (λ route result,
              bool_decide (Suite.statusCode result ∈ Suite.expectedStatus route)).
Proof. apply suite_routing. Qed.

(** ** The deployment validator *)

Module ValidatorFacts.
Import Validator SuiteFacts.

Lemma validator_runTest env (name command workingDir : string) (s : State) :
  ∃ r s',
    runTest env name command workingDir s = (Returned (Some r), s')
    ∧ success r
      = bool_decide (is_Some (first_success env (length (executed s)) command workingDir))
    ∧ ran s s' command workingDir
        (executions env (length (executed s)) command workingDir).
Proof.
  unfold runTest, executions, first_success, ran.
  unfold attempts, execSync, Process.bind, Process.gets, Process.modify, Process.ret, log,
    sleep. cbn.
  destruct (exec env (length (executed s)) command workingDir) as [o1|e1]; cbn.
  { eexists _, _. split; [reflexivity|]. cbn. repeat split; by rewrite ?app_nil_r. }
  rewrite !length_app. cbn [length].
  destruct (exec env (length (executed s) + 1) command workingDir) as [o2|e2]; cbn.
  { eexists _, _. split; [reflexivity|]. cbn. repeat split; by rewrite <- ?app_assoc. }
  rewrite ?length_app. cbn [length]. rewrite <- ?Nat.add_assoc. cbn [Nat.add].
  destruct (exec env (length (executed s) + 2) command workingDir) as [o3|e3]; cbn.
  { eexists _, _. split; [reflexivity|]. cbn. repeat split; by rewrite <- ?app_assoc. }
  destruct (String.eqb (exec_stdout e3) EmptyString),
    (String.eqb (exec_stderr e3) EmptyString); cbn;
    eexists _, _; (split; [reflexivity|]); cbn; repeat split; by rewrite <- ?app_assoc.
Qed.


Lemma validator_runTest_passes env (name command workingDir : string) (s : State) :
  ∃ r s',
    runTest env name command workingDir s = (Returned (Some r), s')
    ∧ success r = passes env (length (executed s)) command workingDir
    ∧ length (executed s')
      = (length (executed s)
         + executions env (length (executed s)) command workingDir)%nat
    ∧ results s' = results s.
Proof.
  destruct (validator_runTest env name command workingDir s)
    as (r & s' & Hrun & Hs & He & _ & Hr).
  exists r, s'. split; [done|]. split; [done|]. split; [|done].
  by rewrite He, length_app, length_replicate.
Qed.

Lemma executions_bounds env n command workingDir :
  (1 <= executions env n command workingDir <= 3)%nat.
Proof.
  unfold executions, first_success.
  repeat match goal with |- context [if ?b then _ else _] => destruct b end; lia.
Qed.

Lemma validator_validateInfrastructure env (s : State) :
  ∃ s',
    validateInfrastructure env s
    = (Returned (infrastructure_ok env (length (executed s))), s')
    ∧ length (executed s')
      = (length (executed s) + infrastructure_executions env (length (executed s)))%nat
    ∧ results s'
      = {| infrastructure := infrastructure_ok env (length (executed s));
           tenantHealth := tenantHealth (results s);
           productionReadiness := productionReadiness (results s) |}.
Proof.
  unfold validateInfrastructure.
  destruct (validator_runTest_passes env "Infrastructure Health Check"
              infrastructure_command ".." s) as (r1 & s1 & E1 & S1 & L1 & R1).
  destruct (validator_runTest_passes env "Detailed Infrastructure Tests"
              "node tests/infrastructure-test-fixed.js" ".." s1)
    as (r2 & s2 & E2 & S2 & L2 & R2).
  erewrite process_bind_returned by exact E1.
  erewrite process_bind_returned by exact E2.
  erewrite process_bind_returned by reflexivity.
  assert (Hb : (if success r1 then success r2 else false)
               = infrastructure_ok env (length (executed s))).
  { unfold infrastructure_ok. rewrite S1, S2, L1. fold detailed_command.
    by destruct (passes env (length (executed s)) _ _). }
  erewrite (process_bind_returned _ _ _ (if success r1 then success r2 else false) s2)
    by (destruct (success r1); reflexivity).
  rewrite Hb.
  erewrite process_bind_returned by reflexivity.
  eexists. split; [reflexivity|]. cbn. rewrite R2, R1. split; [|done].
  rewrite L2, L1. unfold infrastructure_executions. fold detailed_command. lia.
Qed.

Lemma validator_validateTenantHealth env (s : State) :
  ∃ s',
    validateTenantHealth env s
    = (Returned (passes env (length (executed s)) tenant_health_command ".."), s')
    ∧ length (executed s')
      = (length (executed s)
         + executions env (length (executed s)) tenant_health_command "..")%nat
    ∧ results s'
      = {| infrastructure := infrastructure (results s);
           tenantHealth := passes env (length (executed s)) tenant_health_command "..";
           productionReadiness := productionReadiness (results s) |}.
Proof.
  unfold validateTenantHealth.
  destruct (validator_runTest_passes env "Production Tenant Health Check"
              tenant_health_command ".." s) as (r1 & s1 & E1 & S1 & L1 & R1).
  erewrite process_bind_returned by exact E1.
  erewrite process_bind_returned by reflexivity.
  erewrite process_bind_returned by reflexivity.
  rewrite <- S1. eexists. split; [reflexivity|]. cbn. by rewrite R1.
Qed.

Lemma validator_service_round env (service : Service) (allPassed : bool) (s : State) :
  ∃ b s',
    (result <<- runTest env (service_name service) (service_command service)
                  (service_path service);;
     a <<- success_of result;;
     Process.ret (if a then allPassed else false)) s
    = (Returned b, s')
    ∧ (length (executed s) + 1 <= length (executed s') <= length (executed s) + 3)%nat
    ∧ results s' = results s.
Proof.
  destruct (validator_runTest_passes env (service_name service) (service_command service)
              (service_path service) s) as (r1 & s1 & E1 & S1 & L1 & R1).
  erewrite process_bind_returned by exact E1.
  erewrite process_bind_returned by reflexivity.
  eexists _, _. split; [reflexivity|]. split; [|done].
  pose proof (executions_bounds env (length (executed s)) (service_command service)
                (service_path service)). lia.
Qed.

Lemma validator_validateApplicationTests env (s : State) :
  ∃ b s',
    validateApplicationTests env s = (Returned b, s')
    ∧ (length (executed s) + 3 <= length (executed s') <= length (executed s) + 9)%nat
    ∧ results s' = results s.
Proof.
  unfold validateApplicationTests, services. cbn [Process.forEach_with].
  match goal with
  | |- context [Process.bind (Process.bind (runTest env (service_name ?sv) _ _) _) _ s] =>
      destruct (validator_service_round env sv true s) as (b1 & s1 & E1 & L1 & R1)
  end.
  erewrite process_bind_returned by exact E1.
  match goal with
  | |- context [Process.bind (Process.bind (runTest env (service_name ?sv) _ _) _) _ s1] =>
      destruct (validator_service_round env sv b1 s1) as (b2 & s2 & E2 & L2 & R2)
  end.
  erewrite process_bind_returned by exact E2.
  match goal with
  | |- context [Process.bind (Process.bind (runTest env (service_name ?sv) _ _) _) _ s2] =>
      destruct (validator_service_round env sv b2 s2) as (b3 & s3 & E3 & L3 & R3)
  end.
  erewrite process_bind_returned by exact E3.
  exists b3, s3. split; [reflexivity|]. split; [lia | congruence].
Qed.

Lemma validator_log_results (line : string) (s : State) :
  ∃ s', log line s = (Returned tt, s') ∧ results s' = results s
        ∧ executed s' = executed s.
Proof. by eexists. Qed.

Lemma validator_generateDeploymentReport env (s : State) :
  ∃ s',
    generateDeploymentReport env s
    = (Returned (infrastructure (results s) && tenantHealth (results s)), s')
    ∧ executed s' = executed s ∧ results s' = results s.
Proof.
  unfold generateDeploymentReport. destruct s as [[i t p] c e sl].
  erewrite process_bind_returned by reflexivity. cbn [results infrastructure tenantHealth].
  destruct i, t; cbn; eexists; (split; [reflexivity|]); done.
Qed.

Lemma validator_main env :
  ∃ s',
    main env = (Exited (if approved env then 0 else 1), s')
    ∧ infrastructure (results s') = infrastructure_ok env 0
    ∧ tenantHealth (results s')
      = passes env (infrastructure_executions env 0) tenant_health_command ".."
    ∧ (6 <= length (executed s') <= 18)%nat.
Proof.
  unfold main, runFullValidation.
  destruct (validator_validateInfrastructure env constructor) as (s1 & E1 & L1 & R1).
  destruct (validator_validateTenantHealth env s1) as (s2 & E2 & L2 & R2).
  destruct (validator_validateApplicationTests env s2) as (b & s3 & E3 & L3 & R3).
  pose (s4 := snd (set_results (λ r, {| infrastructure := infrastructure r;
                                       tenantHealth := tenantHealth r;
                                       productionReadiness := b |}) s3)).
  destruct (validator_generateDeploymentReport env s4) as (s5 & E5 & X5 & R5).
  cbn [length executed constructor Nat.add] in L1, R1.
  assert (Hflags : infrastructure (results s4) = infrastructure_ok env 0
                   ∧ tenantHealth (results s4)
                     = passes env (infrastructure_executions env 0)
                         tenant_health_command "..").
  { unfold s4. cbn. rewrite R3, R2, R1, L1. done. }
  destruct Hflags as [Hi Ht].
  exists s5. split.
  - unfold Process.try_catch.
    erewrite process_bind_returned by exact E1.
    erewrite process_bind_returned by exact E2.
    erewrite process_bind_returned; cycle 1.
    { unfold Process.try_catch.
      erewrite process_bind_returned by exact E3. reflexivity. }
    fold s4. erewrite process_bind_returned by exact E5.
    unfold Process.exit, approved. by rewrite Hi, Ht.
  - rewrite R5, X5. split; [done|]. split; [done|].
    unfold s4. cbn [executed set_results Process.modify snd].
    pose proof (executions_bounds env 0 infrastructure_command "..").
    pose proof (executions_bounds env (0 + executions env 0 infrastructure_command "..")
                  detailed_command "..").
    pose proof (executions_bounds env (length (executed s1)) tenant_health_command "..").
    unfold infrastructure_executions in L1. lia.
Qed.

End ValidatorFacts.

(** X19. [runTest] runs its command at most three times, stopping at
    the first success and waiting ten seconds after each of the first
    two failures; it never throws, and reports success exactly when
    one of the attempts it made succeeded.  A command that fails twice
    and then succeeds counts as passed. *)
Theorem runTest_retries (env : Validator.Environment) (name command workingDir : string)
    (s : Validator.State) :
  ∃ r s',
    Validator.runTest env name command workingDir s = (Returned (Some r), s')
    ∧ Validator.success r
      = bool_decide (is_Some (Validator.first_success env (length (Validator.executed s))
                                command workingDir))
    ∧ Validator.executed s'
      = (Validator.executed s
         ++ replicate (Validator.executions env (length (Validator.executed s))
                         command workingDir)
              (command, workingDir))%list
    ∧ Validator.slept s'
      = (Validator.slept s
         ++ replicate (Validator.executions env (length (Validator.executed s))
                         command workingDir - 1)
              Validator.retryDelay)%list
    ∧ (1 <= Validator.executions env (length (Validator.executed s)) command workingDir
       <= 3)%nat.
Proof.
  destruct (ValidatorFacts.validator_runTest env name command workingDir s)
    as (r & s' & Hrun & Hs & He & Hw & _).
  exists r, s'. repeat split; try done;
    unfold Validator.executions; destruct (Validator.first_success _ _ _ _) as [k|] eqn:Hk;
    try lia; unfold Validator.first_success in Hk;
    repeat match type of Hk with
           | (if ?b then _ else _) = _ => destruct b
           end; simplify_eq; lia.
Qed.

(** X20. The deployment validator always ends the process itself, with
    0 exactly when both infrastructure tests and the tenant health
    check pass (each within its three attempts) and with 1 otherwise.
    All six tests are run whatever fails before them, and the three
    application tests never change the exit code. *)
Theorem validator_exit_code (env : Validator.Environment) :
  ∃ s',
    Validator.main env = (Exited (if Validator.approved env then 0 else 1), s')
    ∧ Validator.infrastructure (Validator.results s') = Validator.infrastructure_ok env 0
    ∧ Validator.tenantHealth (Validator.results s')
      = Validator.passes env (Validator.infrastructure_executions env 0)
          tenant_health_command ".."
    ∧ (6 <= length (Validator.executed s') <= 18)%nat.
Proof. apply ValidatorFacts.validator_main. Qed.

Lemma first_success_some env n command workingDir :
  is_Some (Validator.first_success env n command workingDir)
  ↔ ∃ k, (k < 3)%nat ∧ succeeded (Validator.exec env (n + k) command workingDir) = true.
Proof.
  unfold Validator.first_success.
  destruct (succeeded (Validator.exec env n command workingDir)) eqn:H0.
  { split; [|by eexists]. intros _. exists 0%nat. rewrite Nat.add_0_r. split; [lia | done]. }
  destruct (succeeded (Validator.exec env (n + 1) command workingDir)) eqn:H1.
  { split; [|by eexists]. intros _. exists 1%nat. split; [lia | done]. }
  destruct (succeeded (Validator.exec env (n + 2) command workingDir)) eqn:H2.
  { split; [|by eexists]. intros _. exists 2%nat. split; [lia | done]. }
  split; [by intros [? [=]]|]. intros (k & Hk & Hs).
  assert (k = 0 ∨ k = 1 ∨ k = 2)%nat as [->|[->| ->]] by lia;
    rewrite ?Nat.add_0_r in Hs; congruence.
Qed.

(** X21. When the command of the tenant health test is the production
    script, which [execSync] takes as failed exactly when it exits
    with another code than 0, [validateTenantHealth] returns true
    exactly when one of at most three consecutive runs of
    [runProductionHealthCheck] returns true; [w k] is the row source
    as the k-th command of the validation finds it. *)
Theorem tenant_health_flag_follows_production
    (env : Validator.Environment) (w : nat → RowSource) (s : Validator.State) :
  (∀ k, succeeded (Validator.exec env k tenant_health_command "..")
        = bool_decide (fst (Production.main (w k)) = 0)) →
  fst (Validator.validateTenantHealth env s) = Returned true
  ↔ ∃ k, (k < 3)%nat
         ∧ fst (Production.runProductionHealthCheck
                  (w (length (Validator.executed s) + k)%nat) Production.constructor)
           = Value true.
Proof.
  intros Hexec.
  destruct (ValidatorFacts.validator_validateTenantHealth env s) as (s' & -> & _).
  cbn [fst]. unfold Validator.passes.
  split.
  - intros [= H%bool_decide_eq_true]. apply first_success_some in H as (k & Hk & Hs).
    exists k. split; [done|]. rewrite Hexec in Hs. apply bool_decide_eq_true in Hs.
    rewrite production_main_exit in Hs. by apply exit_code_zero in Hs.
  - intros (k & Hk & Hrun). f_equal. apply bool_decide_eq_true, first_success_some.
    exists k. split; [done|]. rewrite Hexec. apply bool_decide_eq_true.
    rewrite production_main_exit. by apply exit_code_zero.
Qed.

Lemma tenant_health_flag_follows_production_witness :
  fst (Validator.validateTenantHealth
         (Validator.sample
            (bool_decide (fst (Production.main (Sample.reachable Sample.at_limit)) = 0)))
         Validator.constructor)
  = Returned true.
Proof.
  apply (tenant_health_flag_follows_production
           (Validator.sample
              (bool_decide (fst (Production.main (Sample.reachable Sample.at_limit)) = 0)))
           (λ _, Sample.reachable Sample.at_limit) Validator.constructor).
  - intros k. reflexivity.
  - exists 0%nat. split; [lia | reflexivity].
Defined.

(** ** The deployment dashboard *)

Module DashboardFacts.
Import Dashboard SuiteFacts.

Lemma dashboard_sendEmailNotification env (s : State) :
  ∃ lines,
    sendEmailNotification env s
    = (Returned tt,
       {| deploymentResults := deploymentResults s;
          emailTransporter := emailTransporter s;
          console := console s ++ lines;
          executed := executed s;
          readings := readings s;
          mails := mails s ++ (if emailTransporter s
                               then [mail_of env (deploymentResults s)] else []) |}).
Proof.
  unfold sendEmailNotification. destruct s as [r [] c e rd m].
  - unfold Process.bind, Process.gets, Process.modify, log. cbn.
    destruct (sendMail env (length m)); eexists; unfold mail_of; cbn; reflexivity.
  - eexists. unfold Process.bind, Process.gets, log, Process.modify. cbn.
    by rewrite (app_nil_r m).
Qed.

(** Without a transporter the notification is one line of the console. *)
Lemma dashboard_skips_mail env (s : State) :
  emailTransporter s = false →
  sendEmailNotification env s
  = (Returned tt,
     {| deploymentResults := deploymentResults s;
        emailTransporter := false;
        console := console s ++ ["📧 Email not configured, skipping notification"];
        executed := executed s;
        readings := readings s;
        mails := mails s |}).
Proof.
  intros Hs. unfold sendEmailNotification, Process.bind, Process.gets.
  rewrite Hs. unfold log, Process.modify. by rewrite Hs.
Qed.

Ltac dstep :=
  erewrite process_bind_returned by reflexivity;
  cbn [deploymentResults emailTransporter console executed readings mails].

Lemma dashboard_try env (r : DeploymentResults) tr c e rd m :
  ∃ lines,
    Process.try_catch
      (log "Checking infrastructure health...";;;
       execSync env infrastructure_command;;;
       update (λ r, {| lastUpdate := lastUpdate r;
                       infrastructure := healthy_infrastructure;
                       tenantHealth := tenantHealth r; tests := tests r;
                       overall := overall r |});;;
       log "Checking tenant health...";;;
       execSync env tenant_health_command;;;
       update (λ r, {| lastUpdate := lastUpdate r;
                       infrastructure := infrastructure r;
                       tenantHealth := healthy_tenants;
                       tests := tests r; overall := overall r |});;;
       log "Running test validation...";;;
       update (λ r, {| lastUpdate := lastUpdate r;
                       infrastructure := infrastructure r;
                       tenantHealth := tenantHealth r;
                       tests := healthy_tests;
                       overall := {| overall_status := "ready"; ready := true |} |}))
      (λ e,
         log ("Validation failed: " +:+ e);;;
         update (λ r, {| lastUpdate := lastUpdate r;
                         infrastructure := set_status (infrastructure r) "critical";
                         tenantHealth := set_status (tenantHealth r) "critical";
                         tests := {| tests_status := "critical";
                                     passed := passed (tests r);
                                     failed := failed (tests r);
                                     tests_details := tests_details (tests r) |};
                         overall := {| overall_status := overall_status (overall r);
                                       ready := false |} |}))
      {| deploymentResults := r; emailTransporter := tr; console := c;
         executed := e; readings := rd; mails := m |}
    = (Returned tt,
       {| deploymentResults := outcome_of env (length e) r;
          emailTransporter := tr;
          console := c ++ lines;
          executed := e ++ commands_run env (length e);
          readings := rd; mails := m |}).
Proof.
  unfold outcome_of, commands_run.
  unfold log, execSync, update.
  unfold Process.try_catch, Process.bind, Process.gets, Process.modify, Process.ret,
    Process.throw.
  cbn [deploymentResults emailTransporter console executed readings mails].
  destruct (exec env (length e) infrastructure_command) as [o1|e1].
  - cbn [deploymentResults emailTransporter console executed readings mails succeeded].
    rewrite length_app. cbn [length]. rewrite Nat.add_1_r.
    destruct (exec env (S (length e)) tenant_health_command) as [o2|e2];
      cbn [deploymentResults emailTransporter console executed readings mails lastUpdate infrastructure
           tenantHealth tests overall];
      eexists; rewrite <- !app_assoc; reflexivity.
  - cbn [deploymentResults emailTransporter console executed readings mails succeeded].
    eexists. rewrite <- !app_assoc. reflexivity.
Qed.

Lemma dashboard_run env (s : State) :
  ∃ lines,
    runFullValidation env s
    = (Returned tt,
       {| deploymentResults :=
            dated (outcome_of env (length (executed s)) (deploymentResults s))
              (iso env (S (readings s)));
          emailTransporter := emailTransporter s;
          console := console s ++ lines;
          executed := executed s ++ commands_run env (length (executed s));
          readings := S (S (S (readings s)));
          mails := mails s
                   ++ (if emailTransporter s
                       then [ mail_of env
                                (dated (outcome_of env (length (executed s))
                                          (deploymentResults s))
                                   (iso env (S (readings s)))) ]
                       else []) |}).
Proof.
  unfold runFullValidation. destruct s as [r tr c e rd m].
  cbn [deploymentResults emailTransporter console executed readings mails].
  dstep. dstep.
  destruct (dashboard_try env r tr (c ++ ["🔍 Running full deployment validation..."])
              e (S rd) m) as (l0 & Htry).
  erewrite process_bind_returned by exact Htry.
  dstep. dstep.
  match goal with
  | |- context [Process.bind (sendEmailNotification env) _ ?s0] =>
      destruct (dashboard_sendEmailNotification env s0) as (l1 & Hmail)
  end.
  erewrite process_bind_returned by exact Hmail.
  cbn [deploymentResults emailTransporter console executed readings mails].
  dstep. unfold log, Process.modify, dated.
  cbn [deploymentResults emailTransporter console executed readings mails].
  eexists. rewrite <- !app_assoc. reflexivity.
Qed.

(** Validations neither make a transporter nor, without one, hand a
    mail over. *)
Lemma dashboard_validations env (k : nat) (s : State) :
  emailTransporter s = false →
  ∃ s', validations env k s = (Returned tt, s')
        ∧ emailTransporter s' = false ∧ mails s' = mails s.
Proof.
  revert s. induction k as [|k IH]; intros s Hs; [by exists s|].
  cbn [validations]. destruct (dashboard_run env s) as (lines & Hrun).
  erewrite process_bind_returned by exact Hrun.
  rewrite Hs, app_nil_r.
  match goal with
  | |- context [validations env k ?s0] =>
      destruct (IH s0 eq_refl) as (s' & -> & Htr & Hmails)
  end.
  by exists s'.
Qed.

End DashboardFacts.

(** X22. [POST /api/trigger-validation] always answers success, never
    500: a validation neither throws nor ends the process, whatever the
    two commands and the mail transporter do. What it found is only in
    [overall.ready], which is true exactly when both commands
    succeeded; each command is run at most once, and the tenant health
    command only after the infrastructure command succeeded. *)
Theorem dashboard_trigger_reply (env : Dashboard.Environment) (s : Dashboard.State) :
  let n := length (Dashboard.executed s) in
  ∃ s',
    Dashboard.trigger_validation env s
    = (Returned (Dashboard.Ok "Validation triggered successfully"), s')
    ∧ s' = snd (Dashboard.runFullValidation env s)
    ∧ Dashboard.ready (Dashboard.overall (Dashboard.deploymentResults s'))
      = Dashboard.both_succeed env n
    ∧ Dashboard.executed s'
      = (Dashboard.executed s
         ++ infrastructure_command
            :: (if succeeded (Dashboard.exec env n infrastructure_command)
                then [tenant_health_command] else []))%list.
Proof.
  intros n. subst n.
  destruct (DashboardFacts.dashboard_run env s) as (lines & Hrun).
  eexists. unfold Dashboard.trigger_validation, Process.try_catch, Process.bind.
  rewrite Hrun. cbn [snd Dashboard.deploymentResults Dashboard.executed].
  repeat split.
  - unfold Dashboard.dated, Dashboard.outcome_of, Dashboard.both_succeed.
    destruct (Dashboard.exec env (length (Dashboard.executed s)) infrastructure_command);
      [|done].
    by destruct (Dashboard.exec env (S (length (Dashboard.executed s)))
                   tenant_health_command).
  - unfold Dashboard.commands_run.
    by destruct (succeeded (Dashboard.exec env _ infrastructure_command)).
Qed.

(** X23. A failed validation marks the three sections critical, clears
    [overall.ready] and writes the time of the validation to
    [lastUpdate]. When the infrastructure command failed, the scores,
    the details, the test counts and [overall.status] stay those of
    the validation before. When the infrastructure command succeeded
    and the tenant health command failed, the infrastructure section
    was replaced before the failure: it then has the score 100 and the
    details of a healthy check under the status critical, and only the
    tenant section, the tests and [overall.status] keep their values.
    So a first validation whose tenant check fails shows the
    infrastructure critical with a score of 100. *)
Theorem dashboard_failure_keeps_stale_values
    (env : Dashboard.Environment) (s : Dashboard.State) :
  let n := length (Dashboard.executed s) in
  let r := Dashboard.deploymentResults s in
  let r' := Dashboard.deploymentResults (snd (Dashboard.runFullValidation env s)) in
  (succeeded (Dashboard.exec env n infrastructure_command) = false →
   r' = {| Dashboard.lastUpdate := Some (Dashboard.iso env (S (Dashboard.readings s)));
           Dashboard.infrastructure :=
             {| Dashboard.status := "critical";
                Dashboard.score := Dashboard.score (Dashboard.infrastructure r);
                Dashboard.details := Dashboard.details (Dashboard.infrastructure r) |};
           Dashboard.tenantHealth :=
             {| Dashboard.status := "critical";
                Dashboard.score := Dashboard.score (Dashboard.tenantHealth r);
                Dashboard.details := Dashboard.details (Dashboard.tenantHealth r) |};
           Dashboard.tests :=
             {| Dashboard.tests_status := "critical";
                Dashboard.passed := Dashboard.passed (Dashboard.tests r);
                Dashboard.failed := Dashboard.failed (Dashboard.tests r);
                Dashboard.tests_details := Dashboard.tests_details (Dashboard.tests r) |};
           Dashboard.overall :=
             {| Dashboard.overall_status := Dashboard.overall_status (Dashboard.overall r);
                Dashboard.ready := false |} |})
  ∧ (succeeded (Dashboard.exec env n infrastructure_command) = true →
     succeeded (Dashboard.exec env (S n) tenant_health_command) = false →
     r' = {| Dashboard.lastUpdate := Some (Dashboard.iso env (S (Dashboard.readings s)));
             Dashboard.infrastructure :=
               {| Dashboard.status := "critical";
                  Dashboard.score := 100;
                  Dashboard.details :=
                    Dashboard.details Dashboard.healthy_infrastructure |};
             Dashboard.tenantHealth :=
               {| Dashboard.status := "critical";
                  Dashboard.score := Dashboard.score (Dashboard.tenantHealth r);
                  Dashboard.details := Dashboard.details (Dashboard.tenantHealth r) |};
             Dashboard.tests :=
               {| Dashboard.tests_status := "critical";
                  Dashboard.passed := Dashboard.passed (Dashboard.tests r);
                  Dashboard.failed := Dashboard.failed (Dashboard.tests r);
                  Dashboard.tests_details :=
                    Dashboard.tests_details (Dashboard.tests r) |};
             Dashboard.overall :=
               {| Dashboard.overall_status :=
                    Dashboard.overall_status (Dashboard.overall r);
                  Dashboard.ready := false |} |}).
Proof.
  intros n r r'. subst n r r'.
  destruct (DashboardFacts.dashboard_run env s) as (lines & ->).
  cbn [snd Dashboard.deploymentResults].
  unfold Dashboard.dated, Dashboard.outcome_of.
  destruct (Dashboard.exec env (length (Dashboard.executed s)) infrastructure_command).
  - split; [done|]. intros _.
    by destruct (Dashboard.exec env (S (length (Dashboard.executed s)))
                   tenant_health_command).
  - split; [done|]. done.
Qed.

Lemma dashboard_failure_keeps_stale_values_witness :
  Dashboard.deploymentResults
    (snd (Dashboard.runFullValidation
            (Dashboard.sample (λ _, true) (λ _, false)) Dashboard.initial))
  = {| Dashboard.lastUpdate := Some "2025-01-01T00:00:01.000Z";
       Dashboard.infrastructure :=
         {| Dashboard.status := "critical"; Dashboard.score := 100;
            Dashboard.details := [ "All critical services responding"; "CDN operational";
                                   "DNS resolved"; "API Gateway healthy" ] |};
       Dashboard.tenantHealth :=
         {| Dashboard.status := "critical"; Dashboard.score := 0;
            Dashboard.details := [] |};
       Dashboard.tests :=
         {| Dashboard.tests_status := "critical"; Dashboard.passed := 0;
            Dashboard.failed := 0; Dashboard.tests_details := [] |};
       Dashboard.overall :=
         {| Dashboard.overall_status := "unknown"; Dashboard.ready := false |} |}.
Proof.
  exact (proj2 (dashboard_failure_keeps_stale_values
                  (Dashboard.sample (λ _, true) (λ _, false)) Dashboard.initial)
           eq_refl eq_refl).
Defined.

(** X24. A successful validation replaces the three sections and the
    overall state by constants, whatever they were and whatever the
    commands printed: both scores are 100 and the tests read 260
    passed, 0 failed, although the only commands run are the
    infrastructure and the tenant health check. *)
Theorem dashboard_success_overwrites (env : Dashboard.Environment) (s : Dashboard.State) :
  let s' := snd (Dashboard.runFullValidation env s) in
  Dashboard.both_succeed env (length (Dashboard.executed s)) = true →
  Dashboard.deploymentResults s'
  = {| Dashboard.lastUpdate := Some (Dashboard.iso env (S (Dashboard.readings s)));
       Dashboard.infrastructure := Dashboard.healthy_infrastructure;
       Dashboard.tenantHealth := Dashboard.healthy_tenants;
       Dashboard.tests := Dashboard.healthy_tests;
       Dashboard.overall := {| Dashboard.overall_status := "ready";
                               Dashboard.ready := true |} |}
  ∧ Dashboard.executed s'
    = (Dashboard.executed s ++ [infrastructure_command; tenant_health_command])%list.
Proof.
  intros s' Hok. subst s'.
  destruct (DashboardFacts.dashboard_run env s) as (lines & ->).
  cbn [snd Dashboard.deploymentResults Dashboard.executed].
  unfold Dashboard.both_succeed in Hok.
  unfold Dashboard.dated, Dashboard.outcome_of, Dashboard.commands_run.
  destruct (Dashboard.exec env (length (Dashboard.executed s)) infrastructure_command);
    [|done].
  by destruct (Dashboard.exec env (S (length (Dashboard.executed s)))
                 tenant_health_command).
Qed.

Lemma dashboard_success_overwrites_witness :
  Dashboard.tests
    (Dashboard.deploymentResults
       (snd (Dashboard.runFullValidation (Dashboard.sample (λ _, true) (λ _, true))
               Dashboard.initial)))
  = Dashboard.healthy_tests.
Proof.
  exact (f_equal Dashboard.tests
           (proj1 (dashboard_success_overwrites
                     (Dashboard.sample (λ _, true) (λ _, true)) Dashboard.initial
                     eq_refl))).
Defined.

(** X25. The dashboard never hands a mail to a transporter.
    The module makes the transporter with [nodemailer.createTransporter],
    which the package does not have: when both SMTP credentials are set
    the call throws while the module is loaded, before any validation;
    when one is missing the transporter stays [null]. No validation
    assigns it, so after the module was loaded and any number of
    validations ran there is no transporter and no mail was handed
    over, and [sendEmailNotification] only logs that mail is not
    configured. *)
Theorem dashboard_never_mails (env : Dashboard.Environment) (k : nat) :
  let configured :=
    Dashboard.given (Dashboard.smtp_user env)
    && Dashboard.given (Dashboard.smtp_pass env) in
  let run :=
    Process.bind (Dashboard.load env) (λ _, Dashboard.validations env k)
      Dashboard.initial in
  (configured = true →
   run = (Thrown "nodemailer.createTransporter is not a function", Dashboard.initial))
  ∧ (configured = false → fst run = Returned tt)
  ∧ Dashboard.emailTransporter (snd run) = false
  ∧ Dashboard.mails (snd run) = []
  ∧ ∀ s, Dashboard.emailTransporter s = false →
      Dashboard.sendEmailNotification env s
      = (Returned tt,
         {| Dashboard.deploymentResults := Dashboard.deploymentResults s;
            Dashboard.emailTransporter := false;
            Dashboard.console :=
              Dashboard.console s ++ ["📧 Email not configured, skipping notification"];
            Dashboard.executed := Dashboard.executed s;
            Dashboard.readings := Dashboard.readings s;
            Dashboard.mails := Dashboard.mails s |}).
Proof.
  intros configured run. subst configured run.
  unfold Dashboard.load.
  destruct (Dashboard.given (Dashboard.smtp_user env)
            && Dashboard.given (Dashboard.smtp_pass env)).
  - repeat split; try done. intros s. apply DashboardFacts.dashboard_skips_mail.
  - destruct (DashboardFacts.dashboard_validations env k Dashboard.initial eq_refl)
      as (s' & Hrun & Htr & Hmails).
    unfold Process.bind, Process.ret. rewrite Hrun.
    repeat split; try done. intros s. apply DashboardFacts.dashboard_skips_mail.
Qed.

Lemma dashboard_never_mails_witness :
  Process.bind (Dashboard.load (Dashboard.with_credentials (λ _, true) (λ _, true)))
    (λ _, Dashboard.validations (Dashboard.with_credentials (λ _, true) (λ _, true)) 1)
    Dashboard.initial
  = (Thrown "nodemailer.createTransporter is not a function", Dashboard.initial)
  ∧ Dashboard.mails
      (snd (Process.bind (Dashboard.load (Dashboard.sample (λ _, true) (λ _, true)))
              (λ _, Dashboard.validations (Dashboard.sample (λ _, true) (λ _, true)) 2)
              Dashboard.initial))
    = [].
Proof.
  split.
  - exact (proj1 (dashboard_never_mails
                    (Dashboard.with_credentials (λ _, true) (λ _, true)) 1) eq_refl).
  - exact (proj1 (proj2 (proj2 (proj2 (dashboard_never_mails
                    (Dashboard.sample (λ _, true) (λ _, true)) 2))))).
Defined.

(** X26. When the infrastructure command succeeds and the tenant health
    command is the production script, which [execSync] takes as failed
    exactly when it exits with another code than 0, the dashboard is
    ready after a validation exactly when the production check
    connects, closes its connection and finds no issue. Unlike the
    deployment validator, the dashboard runs the script once. *)
Theorem dashboard_ready_follows_production
    (env : Dashboard.Environment) (w : RowSource) (s : Dashboard.State) :
  let n := length (Dashboard.executed s) in
  succeeded (Dashboard.exec env n infrastructure_command) = true →
  succeeded (Dashboard.exec env (S n) tenant_health_command)
  = bool_decide (fst (Production.main w) = 0) →
  Dashboard.ready
    (Dashboard.overall
       (Dashboard.deploymentResults (snd (Dashboard.runFullValidation env s)))) = true
  ↔ connect_error w = None ∧ end_error w = None ∧ Production.run_issues w = [].
Proof.
  intros n Hinfra Htenants. subst n.
  destruct (DashboardFacts.dashboard_run env s) as (lines & ->).
  cbn [snd Dashboard.deploymentResults].
  rewrite <- production_ready_issues, <- exit_code_zero, <- production_main_exit.
  rewrite <- (bool_decide_eq_true (fst (Production.main w) = 0)), <- Htenants.
  unfold Dashboard.dated, Dashboard.outcome_of.
  destruct (Dashboard.exec env (length (Dashboard.executed s)) infrastructure_command);
    [|done].
  by destruct (Dashboard.exec env (S (length (Dashboard.executed s)))
                 tenant_health_command).
Qed.

Lemma dashboard_ready_follows_production_witness :
  Dashboard.ready
    (Dashboard.overall
       (Dashboard.deploymentResults
          (snd (Dashboard.runFullValidation
                  (Dashboard.sample (λ _, true)
                     (λ _, bool_decide
                             (fst (Production.main (Sample.reachable Sample.over_limit))
                              = 0)))
                  Dashboard.initial)))) = false.
Proof.
  apply not_true_is_false.
  intros H.
  apply (dashboard_ready_follows_production
           (Dashboard.sample (λ _, true)
              (λ _, bool_decide
                      (fst (Production.main (Sample.reachable Sample.over_limit)) = 0)))
           (Sample.reachable Sample.over_limit) Dashboard.initial) in H as (_ & _ & H);
    [discriminate H | reflexivity | reflexivity].
Defined.

(** ** What the tests of the suite accept *)

Section SuiteAnswers.
Import Suite SuiteFacts.

(** [await this.makeRequest(url)] on the answer of the environment. *)
Lemma suite_makeRequest env url (s : State) :
  makeRequest env url s
  = (match respond env (length (requests s)) url with
     | Resolved r => Returned r
     | Rejected e => Thrown e
     end,
     {| results := results s; startTime := startTime s; console := console s;
        requests := requests s ++ [url]; readings := readings s |}).
Proof.
  unfold makeRequest, send, Process.bind, Process.gets, Process.modify, Process.ret,
    Process.throw. cbn.
  by destruct (respond env (length (requests s)) url).
Qed.

Lemma suite_bind_makeRequest {B} env url (k : Response → M B) (s : State) :
  Process.bind (makeRequest env url) k s
  = match respond env (length (requests s)) url with
    | Resolved r =>
        k r {| results := results s; startTime := startTime s; console := console s;
               requests := requests s ++ [url]; readings := readings s |}
    | Rejected e =>
        (Thrown e,
         {| results := results s; startTime := startTime s; console := console s;
            requests := requests s ++ [url]; readings := readings s |})
    end.
Proof.
  unfold Process.bind at 1. rewrite suite_makeRequest.
  by destruct (respond env (length (requests s)) url).
Qed.

Lemma suite_federation env (s : State) :
  fst (testModuleFederationAssets env s) = Returned true
  ↔ is_resolved (respond env (length (requests s)) frontend) = true.
Proof.
  unfold testModuleFederationAssets. rewrite suite_bind_makeRequest.
  destruct (respond env (length (requests s)) frontend) as [r|e]; cbn [is_resolved].
  - by destruct (_ || _).
  - done.
Qed.

Lemma suite_index env (s : State) :
  fst (testIndexHTML env s) = Returned true
  ↔ ∃ r, respond env (length (requests s)) frontend = Resolved r
         ∧ Forall (λ element, JsNumber.includes (body r) element = true)
             requiredElements.
Proof.
  unfold testIndexHTML. rewrite suite_bind_makeRequest.
  destruct (respond env (length (requests s)) frontend) as [r|e].
  - cbv zeta.
    destruct (length (List.filter _ requiredElements) =? 0)%nat eqn:Hm.
    + split; [|done]. intros _. exists r. split; [done|].
      apply Nat.eqb_eq, length_zero_iff_nil in Hm.
      apply Forall_forall. intros x Hx.
      destruct (JsNumber.includes (body r) x) eqn:Hi; [done|].
      assert (Hin : In x (List.filter (λ element, negb (JsNumber.includes (body r) element))
                            requiredElements)).
      { apply filter_In. split; [by apply list_elem_of_In | by rewrite Hi]. }
      rewrite Hm in Hin. destruct Hin.
    + split; [done|]. intros (r' & [= <-] & Hall).
      apply Nat.eqb_neq in Hm. exfalso. apply Hm, length_zero_iff_nil. clear Hm.
      induction Hall as [|x l Hx Hall IH]; [done|]. cbn [List.filter]. rewrite Hx. exact IH.
  - split; [done | by intros (r' & [=] & _)].
Qed.

Lemma suite_health env (s : State) :
  fst (testAPIGatewayHealth env s) = Returned true
  ↔ ∃ r, respond env (length (requests s)) (api +:+ "/health") = Resolved r
         ∧ statusCode r = 200 ∧ JsNumber.includes (body r) "ok" = true.
Proof.
  unfold testAPIGatewayHealth. rewrite suite_bind_makeRequest.
  destruct (respond env (length (requests s)) (api +:+ "/health")) as [r|e].
  - destruct (Z.eqb_spec (statusCode r) 200) as [H200|H200];
      destruct (JsNumber.includes (body r) "ok") eqn:Hok; cbn [andb].
    + split; [by exists r | done].
    + split; [done | by intros (r' & [= <-] & _ & ?); congruence].
    + split; [done | by intros (r' & [= <-] & ? & _)].
    + split; [done | by intros (r' & [= <-] & ? & _)].
  - split; [done | by intros (r' & [=] & _)].
Qed.

Lemma suite_lambda env (s : State) :
  fst (testLambdaFunctions env s) = Returned true
  ↔ ∃ r, respond env (length (requests s)) (api +:+ "/health") = Resolved r
         ∧ (statusCode r = 200 ∨ statusCode r = 401).
Proof.
  unfold testLambdaFunctions, count_accepted.
  destruct (suite_count_loop env lambdaEndpoints (λ endpoint, api +:+ endpoint)
              (λ _ result, (statusCode result =? 200) || (statusCode result =? 401))
              0 s) as (s' & E).
  erewrite process_bind_returned by exact E.
  cbn [accepted_from lambdaEndpoints]. rewrite Z.add_0_l, Z.add_0_r.
  destruct (respond env (length (requests s)) (api +:+ "/health")) as [r|e].
  - destruct (Z.eqb_spec (statusCode r) 200) as [H200|H200];
      destruct (Z.eqb_spec (statusCode r) 401) as [H401|H401]; cbn [orb Z.ltb Z.compare];
      cbv zeta; try (split; [intros _; exists r; tauto | done]).
    split; [done | intros (r' & [= <-] & [?|?]); done].
  - split; [done | by intros (r' & [=] & _)].
Qed.

(** The counting loop sends one request for each item. *)
Lemma suite_count_requests {A} env (items : list A) (url : A → string)
    (accepted : A → Response → bool) (c : Z) (s : State) :
  ∃ s',
    Process.forEach_with items
      (λ (item : A) (successful : Z),
         Process.try_catch
           (result <<- makeRequest env (url item);;
            if accepted item result then Process.ret (successful + 1)
            else Process.ret successful)
           (λ _, Process.ret successful) : M Z) c s
    = (Returned (c + accepted_from env (length (requests s)) items url accepted), s')
    ∧ requests s' = (requests s ++ map url items)%list.
Proof.
  revert c s. induction items as [|item items IH]; intros c s.
  - exists s. cbn. by rewrite Z.add_0_r, app_nil_r.
  - cbn [Process.forEach_with accepted_from map].
    unfold Process.bind at 1. unfold Process.try_catch at 1.
    rewrite suite_bind_makeRequest.
    destruct (respond env (length (requests s)) (url item)) as [r|e].
    + set (s1 := {| results := results s; startTime := startTime s;
                    console := console s; requests := requests s ++ [url item];
                    readings := readings s |}).
      destruct (accepted item r); unfold Process.ret at 1.
      * destruct (IH (c + 1) s1) as (s' & E & R). exists s'.
        rewrite E, R. subst s1. cbn [requests]. rewrite length_app, <- app_assoc.
        cbn [length app]. rewrite Nat.add_1_r. split; [|done]. f_equal. f_equal. lia.
      * destruct (IH c s1) as (s' & E & R). exists s'.
        rewrite E, R. subst s1. cbn [requests]. rewrite length_app, <- app_assoc.
        cbn [length app]. rewrite Nat.add_1_r. split; [|done]. f_equal.
    + unfold Process.ret at 1.
      set (s1 := {| results := results s; startTime := startTime s;
                    console := console s; requests := requests s ++ [url item];
                    readings := readings s |}).
      destruct (IH c s1) as (s' & E & R). exists s'.
      rewrite E, R. subst s1. cbn [requests]. rewrite length_app, <- app_assoc.
      cbn [length app]. rewrite Nat.add_1_r. split; [|done]. f_equal.
Qed.

Lemma accepted_from_nonneg {A} env n (items : list A) url accepted :
  0 <= accepted_from env n items url accepted.
Proof.
  revert n. induction items as [|item items IH]; intros n; cbn [accepted_from]; [done|].
  specialize (IH (S n)).
  destruct (respond env n (url item)) as [r|e]; [destruct (accepted item r)|]; lia.
Qed.

Lemma suite_assets env (s : State) :
  fst (testStaticAssets env s) = Returned true
  ↔ 1 <= accepted_from env (length (requests s)) assets (λ asset, frontend +:+ asset)
            (λ _ result, statusCode result =? 200)
    ∨ ∃ r, respond env (length (requests s) + 2) frontend = Resolved r
           ∧ JsNumber.includes (body r) "/assets/" = true.
Proof.
  unfold testStaticAssets, count_accepted.
  destruct (suite_count_requests env assets (λ asset, frontend +:+ asset)
              (λ _ result, statusCode result =? 200) 0 s) as (s' & E & R).
  erewrite process_bind_returned by exact E.
  rewrite Z.add_0_l.
  pose proof (accepted_from_nonneg env (length (requests s)) assets
                (λ asset, frontend +:+ asset) (λ _ result, statusCode result =? 200)) as Hn.
  set (n := accepted_from _ _ _ _ _) in *. clearbody n.
  destruct (Z.ltb_spec 0 n) as [Hpos|Hzero].
  - split; [intros _; left; lia | done].
  - rewrite suite_bind_makeRequest. rewrite R, length_app. cbn [length map assets].
    destruct (respond env (length (requests s) + 2) frontend) as [r|e].
    + destruct (JsNumber.includes (body r) "/assets/") eqn:Hi.
      * split; [intros _; right; by exists r | done].
      * split; [done | intros [?|(r' & [= <-] & ?)]; [lia | congruence]].
    + split; [done | intros [?|(r' & [=] & _)]; lia].
Qed.

End SuiteAnswers.

(** X27. The tests of the front page read the body and never the
    status code.  [testModuleFederationAssets] passes as soon as the
    request resolves, whatever it answers: both branches record a
    passed result.  [testIndexHTML] passes exactly when the request
    resolves and the body holds the four required texts, also when the
    status is an error. *)
Theorem frontend_tests_ignore_status (env : Suite.Environment) (s : Suite.State) :
  (fst (Suite.testModuleFederationAssets env s) = Returned true
   ↔ Suite.is_resolved (Suite.respond env (length (Suite.requests s)) Suite.frontend)
     = true)
  ∧ (fst (Suite.testIndexHTML env s) = Returned true
     ↔ ∃ r, Suite.respond env (length (Suite.requests s)) Suite.frontend
            = Suite.Resolved r
            ∧ Forall (λ element, JsNumber.includes (Suite.body r) element = true)
                Suite.requiredElements).
Proof. split; [apply suite_federation | apply suite_index]. Qed.

(** X28. [testStaticAssets] passes exactly when one of its two asset
    requests answers 200, or else when a third request, for the front
    page, resolves with a body that mentions '/assets/', whatever its
    status.  A rejected asset request only counts as not loading. *)
Theorem static_assets_test_passes_iff (env : Suite.Environment) (s : Suite.State) :
  fst (Suite.testStaticAssets env s) = Returned true
  ↔ 1 <= Suite.accepted_from env (length (Suite.requests s)) Suite.assets
            (λ asset, Suite.frontend +:+ asset)
            (λ _ result, Suite.statusCode result =? 200)
    ∨ ∃ r, Suite.respond env (length (Suite.requests s) + 2) Suite.frontend
           = Suite.Resolved r
           ∧ JsNumber.includes (Suite.body r) "/assets/" = true.
Proof. apply suite_assets. Qed.

(** X29. Two tests judge the same endpoint [/health] differently:
    [testAPIGatewayHealth] passes exactly on status 200 with a body
    that contains 'ok', [testLambdaFunctions] on status 200 or 401
    with any body.  So an answer that passes the first passes the
    second, and a 401 passes only the second; a request that rejects
    fails both. *)
Theorem health_endpoint_is_judged_twice (env : Suite.Environment) (s : Suite.State) :
  let answer := Suite.respond env (length (Suite.requests s)) (Suite.api +:+ "/health") in
  (fst (Suite.testAPIGatewayHealth env s) = Returned true
   ↔ ∃ r, answer = Suite.Resolved r
          ∧ Suite.statusCode r = 200 ∧ JsNumber.includes (Suite.body r) "ok" = true)
  ∧ (fst (Suite.testLambdaFunctions env s) = Returned true
     ↔ ∃ r, answer = Suite.Resolved r
            ∧ (Suite.statusCode r = 200 ∨ Suite.statusCode r = 401))
  ∧ (fst (Suite.testAPIGatewayHealth env s) = Returned true
     → fst (Suite.testLambdaFunctions env s) = Returned true).
Proof.
  intros answer. subst answer.
  split; [apply suite_health|]. split; [apply suite_lambda|].
  rewrite suite_health, suite_lambda. intros (r & Hr & H200 & _). exists r. tauto.
Qed.
